(** * Sales dashboard: the data engine of [app.py]

    A shallow embedding of the loading, de-duplication and aggregation code
    of [app.py], the properties of it that the specification states, and
    further properties that the code shows.

    The program is written against pandas.  A [DataFrame] is modelled as an
    ordered list of column names and an ordered list of rows, a row being a
    finite map from column names to cells; a [Series] is a list of cells.
    Every pandas operation the program calls is a definition below, named
    after the pandas function, and every table the program builds is a
    definition with the program's variable name.

    Numbers are exact rationals ([Qc]): the rounding of floating-point
    arithmetic is outside the model.  A null ([NaN], [NaT], [<NA>]) is the
    cell [NA].  A cell holds no infinity: the series that [pd.to_numeric]
    returns may hold one ([float64] below), its cast to [int64] fails on it
    as in pandas, and where the program would keep it in a column the
    embedding of [load_data] ends with [InfiniteValue]. *)

From stdpp Require Import gmap strings pretty list fin_maps numbers sorting.
From Stdlib Require Import Ascii QArith Qcanon Lqa.

Local Open Scope Z_scope.
Local Set Warnings "-clear-no-such-hyp".

(** ** Cells *)

Inductive cell :=
  | NA
  | Num (q : Qc)
  | Str (s : string)
  | Timestamp (ns : Z).

Global Instance cell_eq_dec : EqDecision cell.
Proof. solve_decision. Defined.

Global Instance cell_inhabited : Inhabited cell := populate NA.

Definition isna (c : cell) : bool :=
  match c with NA => true | _ => false end.

Definition notna (c : cell) : bool := negb (isna c).

(** A cell of a numeric column: a number or a null. *)
Definition is_numeric (c : cell) : bool :=
  match c with NA | Num _ => true | _ => false end.

Definition num (z : Z) : cell := Num (Q2Qc (inject_Z z)).

(** The order pandas sorts values in: numbers by value, text by code point,
    timestamps by instant; in a column of mixed types numbers come before
    text; a null comes last. *)
Definition cell_rank (c : cell) : nat :=
  match c with Num _ => 0 | Str _ => 1 | Timestamp _ => 2 | NA => 3 end%nat.

Definition cell_leb (a b : cell) : bool :=
  match a, b with
  | Num p, Num q => bool_decide (p <= q)%Qc
  | Str s, Str t => String.leb s t
  | Timestamp m, Timestamp n => m <=? n
  | _, _ => (cell_rank a <=? cell_rank b)%nat
  end.

(** Descending order of values, nulls last ([na_position='last']). *)
Definition cell_geb (a b : cell) : bool :=
  match a, b with
  | _, NA => true
  | NA, _ => false
  | _, _ => cell_leb b a
  end.

(** Lexicographic order of the keys of a group (one cell per key column). *)
Fixpoint keys_leb (k1 k2 : list cell) : bool :=
  match k1, k2 with
  | [], _ => true
  | _ :: _, [] => false
  | a :: k1', b :: k2' =>
      if decide (a = b) then keys_leb k1' k2' else cell_leb a b
  end.

(** ** Exceptions *)

(** The exceptions of the program.  [InfiniteValue] is not one of them: it
    marks where the program keeps an infinity in a column, which no cell
    of the model can hold (see [cells] below). *)
Inductive error :=
  | FileNotFoundError (path : string)
  | KeyError (column : string)
  | TypeError (column : string)
  | IntCastingNaNError (column : string)
  | InfiniteValue (column : string).

Inductive result (A : Type) :=
  | Ok (a : A)
  | Err (e : error).
Arguments Ok {A} a.
Arguments Err {A} e.

Global Instance result_ret : MRet result := λ A a, Ok a.
Global Instance result_bind : MBind result := λ A B f m,
  match m with Ok a => f a | Err e => Err e end.

Definition raise_unless {A} (b : bool) (e : error) (k : result A) : result A :=
  if b then k else Err e.

(** ** Series

    A column of a frame is a list of cells.  The series that
    [pd.to_numeric] returns is a list of [float64] values: besides numbers
    it holds [NaN] and the two infinities, which pandas reads from texts
    such as "inf" and "-Infinity". *)

Inductive float64 :=
  | Finite (q : Qc)
  | NaN
  | Infinity (negative : bool).

Definition infinite (x : float64) : bool :=
  match x with Infinity _ => true | _ => false end.

(** [Series.fillna(v)] *)
Definition fillna (v : Qc) (s : list float64) : list float64 :=
  (λ x, match x with NaN => Finite v | _ => x end) <$> s.

Definition isna_any (s : list cell) : bool := existsb isna s.

(** The cells of a column that is assigned a [float64] series.  A cell
    holds a number or a null and has no value for an infinity: where the
    program stores [inf] in the column, the embedding ends with
    [InfiniteValue]. *)
Definition cell_of (column : string) (x : float64) : result cell :=
  match x with
  | Finite q => Ok (Num q)
  | NaN => Ok NA
  | Infinity _ => Err (InfiniteValue column)
  end.

Definition cells (column : string) (s : list float64) : result (list cell) :=
  mapM (cell_of column) s.

(** [astype("int64")] depends on the type of the series.

    Of a [float64] series: a number is truncated toward zero, and a number
    beyond the range of [int64] becomes the least [int64], which is what the
    conversion gives on the processors the program runs on (pandas silences
    the warning); [NaN] and the infinities cannot be cast.

    Of the nullable integers that [isocalendar()] returns ([UInt32]): an
    integer is kept, a null cannot be cast. *)
Definition trunc (q : Qc) : Z := Z.quot (Qnum q) (Zpos (Qden q)).

Definition int64 (z : Z) : Z :=
  if (- 2 ^ 63 <=? z) && (z <? 2 ^ 63) then z else - 2 ^ 63.

Definition float64_to_int64 (column : string) (x : float64) : result cell :=
  match x with
  | Finite q => Ok (num (int64 (trunc q)))
  | NaN | Infinity _ => Err (IntCastingNaNError column)
  end.

Definition UInt32_to_int64 (column : string) (c : cell) : result cell :=
  match c with
  | NA => Err (IntCastingNaNError column)
  | _ => Ok c
  end.

Class AsType (A : Type) :=
  astype_int64 : string → list A → result (list cell).

Global Instance float64_astype : AsType float64 :=
  λ column, mapM (float64_to_int64 column).

Global Instance UInt32_astype : AsType cell :=
  λ column, mapM (UInt32_to_int64 column).

(** ** Calendar fields of a timestamp

    A timestamp is a count of nanoseconds since 1970-01-01T00:00, as in
    pandas.  The civil date of a day number follows the proleptic Gregorian
    calendar; the ISO week is the week of the year that holds the Thursday
    of the timestamp's week. *)

Definition ns_per_day : Z := 86400000000000.

Definition days_of (ns : Z) : Z := ns / ns_per_day.

Definition civil_from_days (days : Z) : Z * Z * Z :=
  let z := days + 719468 in
  let era := z / 146097 in
  let doe := z - era * 146097 in
  let yoe := (doe - doe / 1460 + doe / 36524 - doe / 146096) / 365 in
  let doy := doe - (365 * yoe + yoe / 4 - yoe / 100) in
  let mp := (5 * doy + 2) / 153 in
  let d := doy - (153 * mp + 2) / 5 + 1 in
  let m := if mp <? 10 then mp + 3 else mp - 9 in
  let y := yoe + era * 400 + (if m <=? 2 then 1 else 0) in
  (y, m, d).

Definition days_from_civil (y m d : Z) : Z :=
  let y' := if m <=? 2 then y - 1 else y in
  let era := y' / 400 in
  let yoe := y' - era * 400 in
  let doy := (153 * (if 2 <? m then m - 3 else m + 9) + 2) / 5 + d - 1 in
  let doe := yoe * 365 + yoe / 4 - yoe / 100 + doy in
  era * 146097 + doe - 719468.

Definition year_of (ns : Z) : Z := (civil_from_days (days_of ns)).1.1.

Definition month_of (ns : Z) : Z := (civil_from_days (days_of ns)).1.2.

Definition iso_week_of (ns : Z) : Z :=
  let days := days_of ns in
  let weekday := (days + 3) mod 7 in
  let thursday := days - weekday + 3 in
  let iso_year := (civil_from_days thursday).1.1 in
  (thursday - days_from_civil iso_year 1 1) / 7 + 1.

(** The [.dt] accessors: a null timestamp ([NaT]) gives a null. *)
Definition dt_field (f : Z → Z) (c : cell) : cell :=
  match c with Timestamp ns => num (f ns) | _ => NA end.

Definition dt_year (s : list cell) : list cell := dt_field year_of <$> s.
Definition dt_month (s : list cell) : list cell := dt_field month_of <$> s.
Definition dt_isocalendar_week (s : list cell) : list cell :=
  dt_field iso_week_of <$> s.

(** ** Reading text

    What pandas accepts as the text of a number or of a date is not fixed
    here: the conversions are parameters of the model.  [parse_numeric]
    gives [NaN] for a text that is no number.  [repr] is Python's [str] of
    a cell ([astype(str)]). *)

Class Text := {
  parse_numeric : string → float64;
  parse_datetime : string → option Z;
  number_to_datetime : Qc → option Z;
  repr : cell → string;
}.

Section conversions.
Context `{Text}.

(** [pd.to_numeric(_, errors="coerce")] on one cell. *)
Definition to_numeric_cell (c : cell) : float64 :=
  match c with
  | NA => NaN
  | Num q => Finite q
  | Str s => parse_numeric s
  | Timestamp ns => Finite (Q2Qc (inject_Z ns))
  end.

Definition to_numeric (s : list cell) : list float64 := to_numeric_cell <$> s.

(** [pd.to_datetime(_, errors="coerce")] on one cell. *)
Definition to_datetime_cell (c : cell) : cell :=
  match c with
  | NA => NA
  | Timestamp ns => Timestamp ns
  | Str s => match parse_datetime s with Some ns => Timestamp ns | None => NA end
  | Num q => match number_to_datetime q with Some ns => Timestamp ns | None => NA end
  end.

Definition to_datetime (s : list cell) : list cell := to_datetime_cell <$> s.
End conversions.

(** ** Data frames *)

Abbreviation row := (gmap string cell).

Record frame := Frame {
  columns : list string;
  rows : list row;
}.

(** The cell of a row under a column; a row that lacks the column reads as
    null, as rows do after pandas aligned them to a wider set of columns. *)
Definition col (c : string) (r : row) : cell := default NA (r !! c).

Definition has_column (c : string) (df : frame) : bool :=
  bool_decide (c ∈ columns df).

(** [df[c]] *)
Definition getitem (c : string) (df : frame) : result (list cell) :=
  raise_unless (has_column c df) (KeyError c) (Ok (col c <$> rows df)).

(** [df[c] = s], for a series [s] aligned with the rows of [df]; a new
    column goes last. *)
Definition setitem (c : string) (s : list cell) (df : frame) : frame :=
  {| columns := if has_column c df then columns df else columns df ++ [c];
     rows := zip_with (λ r v, <[c := v]> r) (rows df) s |}.

(** A row restricted (and, with nulls, extended) to the columns [cs]. *)
Definition reindex (cs : list string) (r : row) : row :=
  list_to_map ((λ c, (c, col c r)) <$> cs).

(** [pd.concat(dfs, ignore_index=True)]: the rows of the frames in order,
    over the union of their columns in order of first appearance. *)
Definition union_columns (acc cs : list string) : list string :=
  acc ++ filter (λ c, c ∉ acc) cs.

Definition concat (dfs : list frame) : frame :=
  let cs := foldl (λ acc df, union_columns acc (columns df)) [] dfs in
  {| columns := cs; rows := reindex cs <$> mjoin (rows <$> dfs) |}.

(** [df.drop(columns=cs)] *)
Definition drop_columns (cs : list string) (df : frame) : frame :=
  {| columns := filter (λ c, c ∉ cs) (columns df);
     rows := (λ r, foldr delete r cs) <$> rows df |}.

(** [df[cs]] for a list of columns. *)
Definition select (cs : list string) (df : frame) : result frame :=
  match filter (λ c, c ∉ columns df) cs with
  | [] => Ok {| columns := cs; rows := reindex cs <$> rows df |}
  | c :: _ => Err (KeyError c)
  end.

(** [df[mask]] for a row-wise condition. *)
Definition where_ (p : row → bool) (df : frame) : frame :=
  {| columns := columns df; rows := List.filter p (rows df) |}.

(** A numeric column: every cell a number or a null. *)
Definition numeric_column (c : string) (df : frame) : bool :=
  forallb (λ r, is_numeric (col c r)) (rows df).

(** The guard of an operation that reads column [c] as a number. *)
Definition measure {A} (c : string) (df : frame) (k : result A) : result A :=
  raise_unless (has_column c df) (KeyError c)
    (raise_unless (numeric_column c df) (TypeError c) k).

(** The guard of an operation that reads column [c]. *)
Definition key {A} (c : string) (df : frame) (k : result A) : result A :=
  raise_unless (has_column c df) (KeyError c) k.

(** [astype("category")] changes the storage of a column, not its cells. *)
Definition astype_category (s : list cell) : list cell := s.

(** ** The file system *)

(** What [pd.read_csv] finds at a path: a table, or no table.  Without a
    table [read_csv] raises: [FileNotFoundError] when there is no file, and
    another exception when the file is not a gzip-compressed table, which
    the model does not tell apart.  A value that the file gives as [inf]
    is a cell with its text. *)
Definition file_system := string → option frame.

Definition read_csv (fs : file_system) (p : string) : result frame :=
  match fs p with
  | Some df => Ok df
  | None => Err (FileNotFoundError p)
  end.

(** ** [load_data] *)

Definition paths : list string :=
  ["data/parte_1.csv.gz"; "data/parte_2.csv.gz"].

Definition cat_cols : list string :=
  ["family"; "holiday_type"; "locale"; "locale_name"; "description";
   "transferred"; "city"; "state"; "store_type"; "day_of_week"].

Section load_data.
Context `{Text}.

Definition load_data (fs : file_system) : result frame :=
  dfs ← mapM (read_csv fs) paths;
  let df := concat dfs in
  let df := if has_column "Unnamed: 0" df
            then drop_columns ["Unnamed: 0"] df else df in
  date ← getitem "date" df;
  let df := setitem "date" (to_datetime date) df in
  let df := foldl (λ df c,
              if has_column c df
              then setitem c (astype_category (col c <$> rows df)) df
              else df) df cat_cols in
  sales ← getitem "sales" df;
  sales ← cells "sales" (fillna 0 (to_numeric sales));
  let df := setitem "sales" sales df in
  onpromotion ← getitem "onpromotion" df;
  onpromotion ← astype_int64 "onpromotion" (fillna 0 (to_numeric onpromotion));
  let df := setitem "onpromotion" onpromotion df in
  transactions ← getitem "transactions" df;
  transactions ← cells "transactions" (to_numeric transactions);
  let df := setitem "transactions" transactions df in
  let df := if negb (has_column "year" df)
               || isna_any (col "year" <$> rows df)
            then setitem "year" (dt_year (col "date" <$> rows df)) df
            else df in
  let df := if negb (has_column "month" df)
               || isna_any (col "month" <$> rows df)
            then setitem "month" (dt_month (col "date" <$> rows df)) df
            else df in
  if negb (has_column "week" df) || isna_any (col "week" <$> rows df)
  then week ← astype_int64 "week"
                (dt_isocalendar_week (col "date" <$> rows df));
       Ok (setitem "week" week df)
  else Ok df.
End load_data.

(** ** Sorting and de-duplication *)

(** The sort of the model is the stable insertion sort.  The program sorts
    with the default kind of [sort_values] ([quicksort]), which promises
    no order among rows of equal value: the order of such rows in the
    model is one of the orders the program may give, and no property below
    is about it. *)
Fixpoint insert_sorted {A} (leb : A → A → bool) (x : A) (l : list A) : list A :=
  match l with
  | [] => [x]
  | y :: l' => if leb x y then x :: l else y :: insert_sorted leb x l'
  end.

Definition stable_sort {A} (leb : A → A → bool) (l : list A) : list A :=
  foldr (insert_sorted leb) [] l.

(** The elements of [l] whose key was not seen before ([keep='first']). *)
Fixpoint unique_by {A K} `{EqDecision K}
    (f : A → K) (seen : list K) (l : list A) : list A :=
  match l with
  | [] => []
  | x :: l' =>
      if decide (f x ∈ seen) then unique_by f seen l'
      else x :: unique_by f (f x :: seen) l'
  end.

Definition keys_of (ks : list string) (r : row) : list cell :=
  (λ c, col c r) <$> ks.

(** [df.drop_duplicates(subset=ks)]; two nulls count as the same value. *)
Definition drop_duplicates (ks : list string) (df : frame) : result frame :=
  match filter (λ c, c ∉ columns df) ks with
  | [] => Ok {| columns := columns df;
                rows := unique_by (keys_of ks) [] (rows df) |}
  | c :: _ => Err (KeyError c)
  end.

(** ** Group-by *)

(** A series with its index: the key of each group and its value. *)
Abbreviation series := (list (list cell * cell)).

Definition complete (k : list cell) : bool := forallb notna k.

(** The keys of the groups: the distinct keys without a null, sorted. *)
Definition group_index (ks : list string) (rs : list row) : list (list cell) :=
  stable_sort keys_leb
    (unique_by id [] (List.filter complete (keys_of ks <$> rs))).

(** The rows of one group, in the order of the frame. *)
Definition get_group (ks : list string) (k : list cell) (rs : list row)
    : list row :=
  List.filter (λ r, bool_decide (keys_of ks r = k)) rs.

(** [groupby(ks)[v].agg(f)] *)
Definition groupby_agg (ks : list string) (v : string)
    (f : list cell → cell) (rs : list row) : series :=
  (λ k, (k, f (col v <$> get_group ks k rs))) <$> group_index ks rs.

(** Aggregations skip nulls. *)
Definition valid (s : list cell) : list Qc :=
  omap (λ c, match c with Num q => Some q | _ => None end) s.

Definition total (l : list Qc) : Qc := foldl Qcplus 0%Qc l.

Definition of_nat (n : nat) : Qc := Q2Qc (inject_Z (Z.of_nat n)).

(** [sum(min_count=n)]: null when fewer than [n] values are not null. *)
Definition agg_sum_min_count (n : nat) (s : list cell) : cell :=
  if (length (valid s) <? n)%nat then NA else Num (total (valid s)).

Definition agg_sum : list cell → cell := agg_sum_min_count 0.

Definition agg_mean (s : list cell) : cell :=
  match valid s with
  | [] => NA
  | vs => Num (total vs / of_nat (length vs))%Qc
  end.

(** [Series.sort_values(ascending=False)] *)
Definition sort_values_desc (s : series) : series :=
  stable_sort (λ a b, cell_geb a.2 b.2) s.

(** [Series.reset_index()]: the index becomes the columns [ks]. *)
Definition reset_index (ks : list string) (v : string) (s : series) : frame :=
  {| columns := ks ++ [v];
     rows := (λ kv, <[v := kv.2]> (list_to_map (zip ks kv.1))) <$> s |}.

(** [Series.dropna()] *)
Definition dropna (s : list cell) : list cell := List.filter notna s.

(** The values of a list are of one type.  Python refuses to compare a
    number with text, and either with a timestamp. *)
Definition same_type (l : list cell) : bool :=
  match l with
  | [] => true
  | c :: l' => forallb (λ c', cell_rank c' =? cell_rank c)%nat l'
  end.

(** [DataFrame.sort_values(by, ascending)], each column with its direction.

    By one column, pandas sorts the values of the column that are not null
    with [argsort], which compares them with each other and raises
    [TypeError] when they are not of one type.  By several columns, each
    column is first replaced by ordered codes, numbers before text, and
    nothing is raised. *)
Fixpoint rows_leb (by_ : list (string * bool)) (a b : row) : bool :=
  match by_ with
  | [] => true
  | (c, ascending) :: by' =>
      if decide (col c a = col c b) then rows_leb by' a b
      else if ascending then cell_leb (col c a) (col c b)
           else cell_geb (col c a) (col c b)
  end.

Definition comparable (c : string) (df : frame) : bool :=
  same_type (dropna (col c <$> rows df)).

Definition sort_values (by_ : list (string * bool)) (df : frame) : result frame :=
  match filter (λ c, c ∉ columns df) by_.*1 with
  | [] =>
      let sorted := {| columns := columns df;
                       rows := stable_sort (rows_leb by_) (rows df) |} in
      match by_ with
      | [(c, _)] => raise_unless (comparable c df) (TypeError c) (Ok sorted)
      | _ => Ok sorted
      end
  | c :: _ => Err (KeyError c)
  end.

(** [df.groupby(c).head(1)]: the first row of each group, in frame order. *)
Definition groupby_head_1 (c : string) (df : frame) : result frame :=
  key c df (Ok {| columns := columns df;
                  rows := unique_by (col c) []
                            (List.filter (λ r, notna (col c r)) (rows df)) |}).

(** [df.head(n)] *)
Definition head_ (n : nat) (df : frame) : frame :=
  {| columns := columns df; rows := take n (rows df) |}.

(** Row conditions: [df[c] == v] and [df[c] > 0]. A null equals nothing. *)
Definition eq_ (c : string) (v : cell) (r : row) : bool :=
  bool_decide (col c r = v) && notna v.

Definition gt_0 (c : string) (r : row) : bool :=
  match col c r with Num q => bool_decide (0 < q)%Qc | _ => false end.

(** [groupby(ks).agg(out=(column, function), ...)]: one row of aggregates
    per group, and its [reset_index()]. *)
Definition groupby_named_agg (ks : list string)
    (aggs : list (string * (string * (list cell → cell))))
    (rs : list row) : list (list cell * list cell) :=
  (λ k, (k, (λ a, a.2.2 (col a.2.1 <$> get_group ks k rs)) <$> aggs))
    <$> group_index ks rs.

Definition reset_index_frame (ks outs : list string)
    (t : list (list cell * list cell)) : frame :=
  {| columns := ks ++ outs;
     rows := (λ kv, list_to_map (zip (ks ++ outs) (kv.1 ++ kv.2))) <$> t |}.

(** [str.zfill(width)]: zeros on the left, after a sign. *)
Fixpoint zeros (n : nat) : string :=
  match n with O => "" | S n' => String "0"%char (zeros n') end.

Definition zfill (width : nat) (s : string) : string :=
  let pad := zeros (width - String.length s) in
  match s with
  | String a s' =>
      if bool_decide (a = "+"%char ∨ a = "-"%char)
      then String a (pad +:+ s') else pad +:+ s
  | EmptyString => pad
  end.

(** ** The transaction view *)

Definition transactions_base (df_ : frame) : result frame :=
  let cols := ["date"; "store_nbr"; "state"; "transactions"; "year"] in
  base ← select cols df_;
  drop_duplicates ["date"; "store_nbr"] base.

(** ** The tables of the dashboard *)

(** The chain [groupby(k)[v].sum().sort_values(ascending=False).head(n)
    .reset_index()] that every ranking of the program is written as. *)
Definition ranking (k v : string) (n : nat) (df : frame) : result frame :=
  key k df (measure v df (Ok
    (reset_index [k] v
       (take n (sort_values_desc (groupby_agg [k] v agg_sum (rows df))))))).

(** The chain [groupby(k)[v].mean().reset_index()]. *)
Definition mean_by (k v : string) (df : frame) : result frame :=
  key k df (measure v df (Ok
    (reset_index [k] v (groupby_agg [k] v agg_mean (rows df))))).

Section tables.
Context `{Text}.

(** Tab 1 *)

Definition top_products (df : frame) : result frame :=
  ranking "family" "sales" 10 df.

Definition sales_by_store (df : frame) : result frame :=
  ranking "store_nbr" "sales" 30 df.

Definition promo_df (df : frame) : result frame :=
  measure "onpromotion" df (Ok (where_ (gt_0 "onpromotion") df)).

Definition promo_sales_by_store (df : frame) : result frame :=
  promo_df ← promo_df df;
  ranking "store_nbr" "sales" 10 promo_df.

Definition dow_avg (df : frame) : result frame :=
  key "day_of_week" df (measure "sales" df (Ok
    (reset_index ["day_of_week"] "sales"
       (sort_values_desc
          (groupby_agg ["day_of_week"] "sales" agg_mean (rows df)))))).

Definition week_avg (df : frame) : result frame :=
  t ← mean_by "week" "sales" df;
  sort_values [("week", true)] t.

Definition month_avg (df : frame) : result frame :=
  t ← mean_by "month" "sales" df;
  sort_values [("month", true)] t.

(** Tab 2 *)

Definition df_store (df : frame) (store_selected : cell) : result frame :=
  key "store_nbr" df (Ok (where_ (eq_ "store_nbr" store_selected) df)).

Definition sales_by_year (df_store : frame) : result frame :=
  key "year" df_store (measure "sales" df_store (
    sort_values [("year", true)]
      (reset_index ["year"] "sales"
         (groupby_agg ["year"] "sales" agg_sum (rows df_store))))).

Definition top_store_products (df_store : frame) : result frame :=
  ranking "family" "sales" 10 df_store.

(** Tab 3 *)

Definition df_state (df : frame) (state_selected : cell) : result frame :=
  key "state" df (Ok (where_ (eq_ "state" state_selected) df)).

Definition tx_state (tx_base : frame) (state_selected : cell) : result frame :=
  key "state" tx_base (Ok (where_ (eq_ "state" state_selected) tx_base)).

Definition tx_year (tx_state : frame) : result frame :=
  key "year" tx_state (measure "transactions" tx_state (
    sort_values [("year", true)]
      (reset_index ["year"] "transactions"
         (groupby_agg ["year"] "transactions" (agg_sum_min_count 1)
            (rows tx_state))))).

Definition sales_store_rank (df_state : frame) : result frame :=
  ranking "store_nbr" "sales" 10 df_state.

Definition top_product_per_store (df_state : frame) : result frame :=
  key "store_nbr" df_state (key "family" df_state (measure "sales" df_state (
    t ← sort_values [("store_nbr", true); ("sales", false)]
          (reset_index ["store_nbr"; "family"] "sales"
             (groupby_agg ["store_nbr"; "family"] "sales" agg_sum
                (rows df_state)));
    t ← groupby_head_1 "store_nbr" t;
    t ← sort_values [("sales", false)] t;
    Ok (head_ 15 t)))).

(** Tab 4 *)

Definition promo_flag (r : row) : cell :=
  if gt_0 "onpromotion" r then Str "Con promoción" else Str "Sin promoción".

Definition promo_compare (df : frame) : result frame :=
  measure "onpromotion" df (
    mean_by "promo_flag" "sales"
      (setitem "promo_flag" (promo_flag <$> rows df) df)).

Definition holiday_avg (df : frame) : result frame :=
  t ← mean_by "holiday_type" "sales" df;
  sort_values [("sales", false)] t.

Definition oil_ok (df : frame) : result frame :=
  key "dcoilwtico" df (Ok (where_ (λ r, notna (col "dcoilwtico" r)) df)).

(** The text of a year depends on the storage of its column, which the
    model does not have: pandas prints 2017 for a column of integers and
    2017.0 for a floating-point one.  [repr] stands for either. *)
Definition year_month (r : row) : cell :=
  Str (repr (col "year" r) +:+ "-" +:+ zfill 2 (repr (col "month" r))).

Definition oil_month (df : frame) : result frame :=
  oil_ok ← oil_ok df;
  key "year" oil_ok (key "month" oil_ok (
    measure "dcoilwtico" oil_ok (measure "sales" oil_ok (
      let oil_month :=
        reset_index_frame ["year"; "month"] ["avg_oil"; "total_sales"]
          (groupby_named_agg ["year"; "month"]
             [("avg_oil", ("dcoilwtico", agg_mean));
              ("total_sales", ("sales", agg_sum))]
             (rows oil_ok)) in
      Ok (setitem "year_month" (year_month <$> rows oil_month) oil_month))))).
End tables.

(** ** The vocabulary of the properties *)

(** [t] has one row for each value of column [k] that occurs, not null, in
    [df], and the row holds the aggregate [f] of column [v] over the rows of
    [df] with that value. *)
Definition grouped_by (k v : string) (f : list cell → cell)
    (df t : frame) : Prop :=
  columns t = [k; v] ∧
  NoDup (col k <$> rows t) ∧
  (∀ b, b ∈ col k <$> rows t ↔ b ≠ NA ∧ ∃ r, r ∈ rows df ∧ col k r = b) ∧
  ∀ x, x ∈ rows t →
    col v x = f (col v <$> get_group [k] [col k x] (rows df)).

(** The values of a single key column that head a group, in group order. *)
Definition buckets (k : string) (rs : list row) : list cell :=
  hd NA <$> group_index [k] rs.

(** The values of a column in order of first appearance. *)
Definition first_appearance (k : string) (rs : list row) : list cell :=
  unique_by id [] (col k <$> rs).

Definition ascending (s : list cell) : Prop :=
  Sorted (λ a b, cell_leb a b = true) s.

Definition descending (s : list cell) : Prop :=
  Sorted (λ a b, cell_geb a b = true) s.

(** ** Example data *)

(** The conversions for plain text: decimal integers and the infinities
    written "inf" and "-inf", ISO dates ([YYYY-MM-DD]), and integers
    printed in decimal. *)
Definition digit (a : ascii) : option Z :=
  let n := Z.of_N (N_of_ascii a) in
  if (48 <=? n) && (n <=? 57) then Some (n - 48) else None.

Fixpoint digits (acc : Z) (s : string) : option Z :=
  match s with
  | EmptyString => Some acc
  | String a s' => d ← digit a; digits (10 * acc + d) s'
  end.

Definition integer (s : string) : option Z :=
  match s with
  | EmptyString => None
  | String a s' =>
      if bool_decide (a = "-"%char)
      then (if bool_decide (s' = EmptyString) then None
            else Z.opp <$> digits 0 s')
      else digits 0 s
  end.

Definition iso_date (s : string) : option Z :=
  if bool_decide (String.length s = 10%nat ∧ String.substring 4 1 s = "-"
                  ∧ String.substring 7 1 s = "-")
  then y ← digits 0 (String.substring 0 4 s);
       m ← digits 0 (String.substring 5 2 s);
       d ← digits 0 (String.substring 8 2 s);
       if (1 <=? m) && (m <=? 12) && (1 <=? d) && (d <=? 31)
       then Some (days_from_civil y m d * ns_per_day) else None
  else None.

Definition plain_repr (c : cell) : string :=
  match c with
  | NA => "nan"
  | Num q => if bool_decide (Qden q = 1%positive) then pretty (Qnum q)
             else pretty (Qnum q) +:+ "/" +:+ pretty (Zpos (Qden q))
  | Str s => s
  | Timestamp ns => pretty ns
  end.

Definition plain_number (s : string) : float64 :=
  if bool_decide (s = "inf") then Infinity false
  else if bool_decide (s = "-inf") then Infinity true
  else match integer s with
       | Some z => Finite (Q2Qc (inject_Z z))
       | None => NaN
       end.

Definition plain_text : Text := {|
  parse_numeric := plain_number;
  parse_datetime := iso_date;
  number_to_datetime q := Some (trunc q);
  repr := plain_repr;
|}.

(** The three rows of the specification's ranking example, and two tied
    families that appear in the order B, A in one table and in the order
    A, B in another. *)
Definition example_sales : frame :=
  Frame ["family"; "sales"]
    [list_to_map [("family", Str "A"); ("sales", num 10)];
     list_to_map [("family", Str "B"); ("sales", num 30)];
     list_to_map [("family", Str "A"); ("sales", num 5)]].

Definition tied_sales : frame :=
  Frame ["family"; "sales"]
    [list_to_map [("family", Str "B"); ("sales", num 10)];
     list_to_map [("family", Str "A"); ("sales", num 10)]].

Definition tied_sales_reversed : frame :=
  Frame ["family"; "sales"]
    [list_to_map [("family", Str "A"); ("sales", num 10)];
     list_to_map [("family", Str "B"); ("sales", num 10)]].

(** Two days of the week, the later one with the larger sales. *)
Definition weekday_sales : frame :=
  Frame ["day_of_week"; "week"; "month"; "sales"]
    [list_to_map [("day_of_week", Str "Monday"); ("week", num 2);
                  ("month", num 1); ("sales", num 1)];
     list_to_map [("day_of_week", Str "Tuesday"); ("week", num 1);
                  ("month", num 1); ("sales", num 5)]].

(** Two weeks, one read as a number and one as text. *)
Definition mixed_weeks : frame :=
  Frame ["week"; "sales"]
    [list_to_map [("week", Str "W2"); ("sales", num 5)];
     list_to_map [("week", num 1); ("sales", num 1)]].

(** A transaction view of one state: a year without a known count and a
    year with counts on two of three days. *)
Definition yearly_transactions : frame :=
  Frame ["date"; "store_nbr"; "state"; "transactions"; "year"]
    [list_to_map [("date", Timestamp 0); ("store_nbr", num 1);
                  ("state", Str "Pichincha"); ("transactions", NA);
                  ("year", num 1970)];
     list_to_map [("date", Timestamp 31536000000000000); ("store_nbr", num 1);
                  ("state", Str "Pichincha"); ("transactions", num 7);
                  ("year", num 1971)];
     list_to_map [("date", Timestamp 31622400000000000); ("store_nbr", num 1);
                  ("state", Str "Pichincha"); ("transactions", NA);
                  ("year", num 1971)];
     list_to_map [("date", Timestamp 31708800000000000); ("store_nbr", num 1);
                  ("state", Str "Pichincha"); ("transactions", num 5);
                  ("year", num 1971)]].



(** Two stores of one state. *)
Definition two_stores : frame :=
  Frame ["store_nbr"; "state"; "sales"]
    [list_to_map [("store_nbr", num 1); ("state", Str "Pichincha");
                  ("sales", num 3)];
     list_to_map [("store_nbr", num 2); ("state", Str "Pichincha");
                  ("sales", num 4)]].

(** Oil prices and sales of two months; the price is unknown on one day. *)
Definition oil_and_sales : frame :=
  Frame ["year"; "month"; "dcoilwtico"; "sales"]
    [list_to_map [("year", num 2017); ("month", num 3);
                  ("dcoilwtico", num 50); ("sales", num 10)];
     list_to_map [("year", num 2017); ("month", num 3);
                  ("dcoilwtico", NA); ("sales", num 100)];
     list_to_map [("year", num 2017); ("month", num 3);
                  ("dcoilwtico", num 53); ("sales", num 20)];
     list_to_map [("year", num 2017); ("month", num 11);
                  ("dcoilwtico", num 60); ("sales", num 7)]].

(** The row of [oil_month] for the group of key [k], before the combined
    year-month column is added. *)
Definition oil_row (known : list row) (k : list cell) : row :=
  list_to_map (zip (["year"; "month"] ++ ["avg_oil"; "total_sales"])
    (k ++ [agg_mean (col "dcoilwtico" <$> get_group ["year"; "month"] k known);
           agg_sum (col "sales" <$> get_group ["year"; "month"] k known)])).

(** ** What [load_data] computes, row by row

    A second description of [load_data]: its four blocks as functions of
    their own, and the table it returns as a function of the rows read.
    [load_outcome] is proved equal to [load_data] below. *)

Section loaded.
Context `{Text}.

(** The partitions concatenated, without the index column a previous
    serialization left behind. *)
Definition concatenated (dfs : list frame) : frame :=
  let df := concat dfs in
  if has_column "Unnamed: 0" df then drop_columns ["Unnamed: 0"] df else df.

Definition parse_dates (df : frame) : result frame :=
  date ← getitem "date" df;
  Ok (setitem "date" (to_datetime date) df).

Definition categories (df : frame) : frame :=
  foldl (λ df c,
    if has_column c df
    then setitem c (astype_category (col c <$> rows df)) df
    else df) df cat_cols.

Definition coerce_numeric (df : frame) : result frame :=
  sales ← getitem "sales" df;
  sales ← cells "sales" (fillna 0 (to_numeric sales));
  let df := setitem "sales" sales df in
  onpromotion ← getitem "onpromotion" df;
  onpromotion ← astype_int64 "onpromotion" (fillna 0 (to_numeric onpromotion));
  let df := setitem "onpromotion" onpromotion df in
  transactions ← getitem "transactions" df;
  transactions ← cells "transactions" (to_numeric transactions);
  Ok (setitem "transactions" transactions df).

Definition backfill_calendar (df : frame) : result frame :=
  let df := if negb (has_column "year" df)
               || isna_any (col "year" <$> rows df)
            then setitem "year" (dt_year (col "date" <$> rows df)) df
            else df in
  let df := if negb (has_column "month" df)
               || isna_any (col "month" <$> rows df)
            then setitem "month" (dt_month (col "date" <$> rows df)) df
            else df in
  if negb (has_column "week" df) || isna_any (col "week" <$> rows df)
  then week ← astype_int64 "week"
                (dt_isocalendar_week (col "date" <$> rows df));
       Ok (setitem "week" week df)
  else Ok df.

Definition load_data_blocks (fs : file_system) : result frame :=
  dfs ← mapM (read_csv fs) paths;
  df ← parse_dates (concatenated dfs);
  df ← coerce_numeric (categories df);
  backfill_calendar df.

(** The column is absent or holds a null. *)
Definition needs_backfill (c : string) (df : frame) : bool :=
  negb (has_column c df) || isna_any (col c <$> rows df).

(** A value of the column reads as an infinity. *)
Definition some_infinite (c : string) (raw : frame) : bool :=
  existsb (λ r, infinite (to_numeric_cell (col c r))) (rows raw).

(** The three coercions on a value that is not infinite. *)
Definition coerce_sales (c : cell) : cell :=
  match to_numeric_cell c with Finite q => Num q | _ => num 0 end.

Definition coerce_onpromotion (c : cell) : cell :=
  match to_numeric_cell c with
  | Finite q => num (int64 (trunc q))
  | _ => num 0
  end.

Definition coerce_transactions (c : cell) : cell :=
  match to_numeric_cell c with Finite q => Num q | _ => NA end.

Definition parse_date_row (r : row) : row :=
  <["date" := to_datetime_cell (col "date" r)]> r.

Definition as_category (raw : frame) (r : row) : row :=
  foldl (λ r c, if has_column c raw then <[c := col c r]> r else r) r cat_cols.

Definition coerce_row (r : row) : row :=
  <["transactions" := coerce_transactions (col "transactions" r)]>
    (<["onpromotion" := coerce_onpromotion (col "onpromotion" r)]>
       (<["sales" := coerce_sales (col "sales" r)]> r)).

Definition backfill (c : string) (f : Z → Z) (raw : frame) (r : row) : row :=
  if needs_backfill c raw then <[c := dt_field f (col "date" r)]> r else r.

Definition calendar_row (raw : frame) (r : row) : row :=
  backfill "week" iso_week_of raw
    (backfill "month" month_of raw (backfill "year" year_of raw r)).

Definition normalized_row (raw : frame) (r : row) : row :=
  coerce_row (as_category raw (parse_date_row r)).

Definition loaded_row (raw : frame) (r : row) : row :=
  calendar_row raw (normalized_row raw r).

Definition with_column (c : string) (cs : list string) : list string :=
  if bool_decide (c ∈ cs) then cs else cs ++ [c].

Definition loaded_columns (raw : frame) : list string :=
  let cs := columns raw in
  let cs := if needs_backfill "year" raw then with_column "year" cs else cs in
  let cs := if needs_backfill "month" raw then with_column "month" cs else cs in
  if needs_backfill "week" raw then with_column "week" cs else cs.

(** A date of the table does not parse. *)
Definition some_date_unparsed (raw : frame) : bool :=
  existsb (λ r, isna (to_datetime_cell (col "date" r))) (rows raw).

Definition load_outcome (fs : file_system) : result frame :=
  match fs "data/parte_1.csv.gz" with
  | None => Err (FileNotFoundError "data/parte_1.csv.gz")
  | Some f1 =>
      match fs "data/parte_2.csv.gz" with
      | None => Err (FileNotFoundError "data/parte_2.csv.gz")
      | Some f2 =>
          let raw := concatenated [f1; f2] in
          key "date" raw (key "sales" raw (
            raise_unless (negb (some_infinite "sales" raw))
              (InfiniteValue "sales") (
            key "onpromotion" raw (
            raise_unless (negb (some_infinite "onpromotion" raw))
              (IntCastingNaNError "onpromotion") (
            key "transactions" raw (
            raise_unless (negb (some_infinite "transactions" raw))
              (InfiniteValue "transactions") (
              if needs_backfill "week" raw && some_date_unparsed raw
              then Err (IntCastingNaNError "week")
              else Ok {| columns := loaded_columns raw;
                         rows := loaded_row raw <$> rows raw |})))))))
      end
  end.
End loaded.

(** A cell that holds a number that is not negative. *)
Definition nonneg (c : cell) : Prop := ∃ q, c = Num q ∧ (0 <= q)%Qc.

(** A file system that holds the two partitions and nothing else. *)
Definition two_files (f1 f2 : frame) : file_system := λ p,
  if String.eqb p "data/parte_1.csv.gz" then Some f1
  else if String.eqb p "data/parte_2.csv.gz" then Some f2
  else None.

(** Two partitions of one schema without calendar columns: a row as it
    should be, a row whose sales are missing and whose promotion count is
    not a number, and a row with a fractional promotion count. *)
Definition partitions_without_calendar : file_system :=
  two_files
    (Frame ["date"; "store_nbr"; "family"; "sales"; "onpromotion";
            "transactions"]
       [list_to_map [("date", Str "2017-01-01"); ("store_nbr", num 1);
                     ("family", Str "DAIRY"); ("sales", num 12);
                     ("onpromotion", num 3); ("transactions", num 40)];
        list_to_map [("date", Str "2015-12-31"); ("store_nbr", num 1);
                     ("family", Str "DAIRY"); ("sales", NA);
                     ("onpromotion", Str "abc"); ("transactions", NA)]])
    (Frame ["date"; "store_nbr"; "family"; "sales"; "onpromotion";
            "transactions"]
       [list_to_map [("date", Str "2016-01-04"); ("store_nbr", num 2);
                     ("family", Str "DAIRY"); ("sales", Str "7");
                     ("onpromotion", Num (Q2Qc (5 # 2)));
                     ("transactions", Str "n/a")]]).

(** What [load_data] returns for them: the missing sales value and the
    promotion count that is no number are 0, and the promotion count 5/2
    is 2. *)
Definition loaded_without_calendar : frame :=
  Frame ["date"; "store_nbr"; "family"; "sales"; "onpromotion";
         "transactions"; "year"; "month"; "week"]
    [list_to_map [("date", Timestamp 1483228800000000000);
                  ("store_nbr", num 1); ("family", Str "DAIRY");
                  ("sales", num 12); ("onpromotion", num 3);
                  ("transactions", num 40); ("year", num 2017);
                  ("month", num 1); ("week", num 52)];
     list_to_map [("date", Timestamp 1451520000000000000);
                  ("store_nbr", num 1); ("family", Str "DAIRY");
                  ("sales", num 0); ("onpromotion", num 0);
                  ("transactions", NA); ("year", num 2015);
                  ("month", num 12); ("week", num 53)];
     list_to_map [("date", Timestamp 1451865600000000000);
                  ("store_nbr", num 2); ("family", Str "DAIRY");
                  ("sales", num 7); ("onpromotion", num 2);
                  ("transactions", NA); ("year", num 2016);
                  ("month", num 1); ("week", num 1)]].

(** A partition with a negative sales value and a negative promotion
    count. *)
Definition partitions_with_negatives : file_system :=
  two_files
    (Frame ["date"; "sales"; "onpromotion"; "transactions"]
       [list_to_map [("date", Str "2017-01-01"); ("sales", num (-5));
                     ("onpromotion", num (-3)); ("transactions", num 40)]])
    (Frame ["date"; "sales"; "onpromotion"; "transactions"] []).

(** A partition with a promotion count of 10^30, and one with an infinite
    promotion count. *)
Definition partitions_with_large_count : file_system :=
  two_files
    (Frame ["date"; "sales"; "onpromotion"; "transactions"; "week"]
       [list_to_map [("date", Str "2017-01-01"); ("sales", num 1);
                     ("onpromotion", num (10 ^ 30)); ("transactions", num 40);
                     ("week", num 52)]])
    (Frame ["date"; "sales"; "onpromotion"; "transactions"; "week"] []).

Definition partitions_with_infinite_count : file_system :=
  two_files
    (Frame ["date"; "sales"; "onpromotion"]
       [list_to_map [("date", Str "2017-01-01"); ("sales", num 1);
                     ("onpromotion", Str "inf")]])
    (Frame ["date"; "sales"; "onpromotion"] []).

(** Partitions whose calendar columns are present and complete: a row
    whose year is not the year of its date, and a row whose date does not
    parse. *)
Definition partitions_with_calendar : file_system :=
  two_files
    (Frame ["date"; "sales"; "onpromotion"; "transactions"; "year"; "month";
            "week"]
       [list_to_map [("date", Str "2020-05-17"); ("sales", num 1);
                     ("onpromotion", num 0); ("transactions", num 40);
                     ("year", num 1999); ("month", num 1); ("week", num 1)];
        list_to_map [("date", Str "not a date"); ("sales", num 1);
                     ("onpromotion", num 0); ("transactions", num 40);
                     ("year", num 2017); ("month", num 1); ("week", num 1)]])
    (Frame ["date"; "sales"; "onpromotion"; "transactions"; "year"; "month";
            "week"] []).

(** Partitions without a week column, with a date that does not parse. *)
Definition partitions_with_bad_date : file_system :=
  two_files
    (Frame ["date"; "sales"; "onpromotion"; "transactions"]
       [list_to_map [("date", Str "not a date"); ("sales", num 1);
                     ("onpromotion", num 0); ("transactions", num 40)]])
    (Frame ["date"; "sales"; "onpromotion"; "transactions"] []).


(** Four rows of two (date, store) pairs, one row per family. *)
Definition two_pairs : frame :=
  Frame ["date"; "store_nbr"; "family"; "state"; "transactions"; "year"]
    [list_to_map [("date", Timestamp 0); ("store_nbr", num 1);
                  ("family", Str "DAIRY"); ("state", Str "Pichincha");
                  ("transactions", num 40); ("year", num 1970)];
     list_to_map [("date", Timestamp 0); ("store_nbr", num 1);
                  ("family", Str "MEATS"); ("state", Str "Pichincha");
                  ("transactions", num 40); ("year", num 1970)];
     list_to_map [("date", Timestamp 0); ("store_nbr", num 2);
                  ("family", Str "DAIRY"); ("state", Str "Guayas");
                  ("transactions", NA); ("year", num 1970)];
     list_to_map [("date", Timestamp 0); ("store_nbr", num 2);
                  ("family", Str "MEATS"); ("state", Str "Guayas");
                  ("transactions", NA); ("year", num 1970)]].

(** ** The figures of the dashboard *)

(** [Series.unique()] (the values in order of first appearance, a null
    counting as a value) and [Series.nunique()] (the number of values that
    are not null). *)
Definition unique (s : list cell) : list cell := unique_by id [] s.

Definition nunique (s : list cell) : nat := length (unique (dropna s)).

(** [Series.sum()]: nulls are skipped, and the sum of no value is 0. *)
Definition sum_ (s : list cell) : Qc := total (valid s).

(** What a cell adds to a sum. *)
Definition addend (c : cell) : Qc :=
  match c with Num q => q | _ => 0%Qc end.

(** [sorted(l)] for a list without nulls: values of one type in ascending
    order; Python refuses to compare values of different types. *)
Definition sorted_ (column : string) (l : list cell) : result (list cell) :=
  raise_unless (same_type l) (TypeError column) (Ok (stable_sort cell_leb l)).

(** [int(x)], and [safe_int]: what [int] refuses is returned as it is.
    Which texts [int] reads as integers is a parameter. *)
Section helpers.
Variable int_literal : string → option Z.

Definition int_ (x : cell) : option Z :=
  match x with
  | Num q => Some (trunc q)
  | Str s => int_literal s
  | NA | Timestamp _ => None
  end.

Definition safe_int (x : cell) : cell :=
  match int_ x with
  | Some z => num z
  | None => x
  end.
End helpers.

(** [round(x, ndigits)]: the nearest multiple of [10 ^ -ndigits], a tie
    going to the even one. *)
Definition floor (q : Qc) : Z := Qnum q / Zpos (Qden q).

Definition of_Z (z : Z) : Qc := Q2Qc (inject_Z z).

Definition rint (q : Qc) : Z :=
  let n := floor q in
  let r := (q - of_Z n)%Qc in
  if bool_decide (r < Q2Qc (1 # 2))%Qc then n
  else if bool_decide (Q2Qc (1 # 2) < r)%Qc then n + 1
  else if Z.even n then n else n + 1.

Definition round_ (x : Qc) (ndigits : nat) : Qc :=
  (of_Z (rint (x * of_Z (10 ^ Z.of_nat ndigits)))
   / of_Z (10 ^ Z.of_nat ndigits))%Qc.

(** Tab 1: the four counts. *)
Definition total_stores (df : frame) : result nat :=
  store_nbr ← getitem "store_nbr" df; Ok (nunique store_nbr).

Definition total_products (df : frame) : result nat :=
  family ← getitem "family" df; Ok (nunique family).

Definition total_states (df : frame) : result nat :=
  state ← getitem "state" df; Ok (nunique state).

Definition months_available (df : frame) : result nat :=
  pairs ← select ["year"; "month"] df;
  pairs ← drop_duplicates (columns pairs) pairs;
  Ok (length (rows pairs)).

(** Tab 2: the figures of the selected store. *)
Definition products_sold (df_store : frame) : result nat :=
  measure "sales" df_store (
    family ← getitem "family" (where_ (gt_0 "sales") df_store);
    Ok (nunique family)).

Definition promo_products_sold (df_store : frame) : result nat :=
  measure "sales" df_store (measure "onpromotion" df_store (
    family ← getitem "family"
               (where_ (λ r, gt_0 "sales" r && gt_0 "onpromotion" r) df_store);
    Ok (nunique family))).

(** [df[df["onpromotion"] > 0]["sales"].sum()], of the selected store in
    Tab 2 and of the whole dataset in Tab 4. *)
Definition promo_sales (df : frame) : result Qc :=
  measure "onpromotion" df (
    let promo := where_ (gt_0 "onpromotion") df in
    measure "sales" promo (Ok (sum_ (col "sales" <$> rows promo)))).

(** Tab 3: the states offered for selection. *)
Definition states (df : frame) : result (list cell) :=
  state ← getitem "state" df;
  sorted_ "state" (unique (dropna state)).

(** Tab 4: the share of the sales made under promotion. *)
Definition total_sales (df : frame) : result Qc :=
  measure "sales" df (Ok (sum_ (col "sales" <$> rows df))).

Definition promo_share (df : frame) : result Qc :=
  total_sales ← total_sales df;
  promo_sales ← promo_sales df;
  Ok (if bool_decide (0 < total_sales)%Qc
      then (promo_sales / total_sales * of_Z 100)%Qc
      else 0%Qc).

(** The sum of the sales of a family in a store. *)
Definition sold (df : frame) (store family : cell) : Qc :=
  sum_ (col "sales"
          <$> get_group ["store_nbr"; "family"] [store; family] (rows df)).

(** ** More example data *)

(** One store of one state over two years: a family sold with and without
    promotion, a family sold only without, and a family not sold. *)
Definition store_sales : frame :=
  Frame ["store_nbr"; "family"; "state"; "holiday_type"; "sales";
         "onpromotion"; "year"; "month"]
    [list_to_map [("store_nbr", num 1); ("family", Str "DAIRY");
                  ("state", Str "Pichincha"); ("holiday_type", Str "Holiday");
                  ("sales", num 30); ("onpromotion", num 2);
                  ("year", num 2016); ("month", num 12)];
     list_to_map [("store_nbr", num 1); ("family", Str "DAIRY");
                  ("state", Str "Pichincha"); ("holiday_type", Str "Work Day");
                  ("sales", num 10); ("onpromotion", num 0);
                  ("year", num 2017); ("month", num 1)];
     list_to_map [("store_nbr", num 1); ("family", Str "MEATS");
                  ("state", Str "Pichincha"); ("holiday_type", Str "Work Day");
                  ("sales", num 60); ("onpromotion", num 0);
                  ("year", num 2017); ("month", num 1)];
     list_to_map [("store_nbr", num 2); ("family", Str "BOOKS");
                  ("state", Str "Guayas"); ("holiday_type", NA);
                  ("sales", num 0); ("onpromotion", num 1);
                  ("year", num 2017); ("month", num 1)]].

(** Two partitions with every column the dashboard reads and the index
    column of a previous serialization; the second partition has a sales
    value written as text, no promotion count, a transactions count that
    is not a number, and no holiday and oil price. *)
Definition partitions_full : file_system :=
  two_files
    (Frame ["Unnamed: 0"; "date"; "store_nbr"; "family"; "sales";
            "onpromotion"; "transactions"; "state"; "day_of_week";
            "holiday_type"; "dcoilwtico"]
       [list_to_map [("Unnamed: 0", num 0); ("date", Str "2017-01-01");
                     ("store_nbr", num 1); ("family", Str "DAIRY");
                     ("sales", num 12); ("onpromotion", num 3);
                     ("transactions", num 40); ("state", Str "Pichincha");
                     ("day_of_week", Str "Sunday");
                     ("holiday_type", Str "Holiday"); ("dcoilwtico", num 50)];
        list_to_map [("Unnamed: 0", num 1); ("date", Str "2017-01-01");
                     ("store_nbr", num 1); ("family", Str "MEATS");
                     ("sales", num 8); ("onpromotion", num 0);
                     ("transactions", num 40); ("state", Str "Pichincha");
                     ("day_of_week", Str "Sunday");
                     ("holiday_type", Str "Holiday"); ("dcoilwtico", num 50)]])
    (Frame ["Unnamed: 0"; "date"; "store_nbr"; "family"; "sales";
            "onpromotion"; "transactions"; "state"; "day_of_week";
            "holiday_type"; "dcoilwtico"]
       [list_to_map [("Unnamed: 0", num 0); ("date", Str "2017-01-02");
                     ("store_nbr", num 2); ("family", Str "DAIRY");
                     ("sales", Str "5"); ("onpromotion", NA);
                     ("transactions", Str "n/a"); ("state", Str "Guayas");
                     ("day_of_week", Str "Monday");
                     ("holiday_type", NA); ("dcoilwtico", NA)]]).

(** What [load_data] returns for them. *)
Definition loaded_full : frame :=
  Frame ["date"; "store_nbr"; "family"; "sales"; "onpromotion";
         "transactions"; "state"; "day_of_week"; "holiday_type"; "dcoilwtico";
         "year"; "month"; "week"]
    [list_to_map [("date", Timestamp 1483228800000000000);
                  ("store_nbr", num 1); ("family", Str "DAIRY");
                  ("sales", num 12); ("onpromotion", num 3);
                  ("transactions", num 40); ("state", Str "Pichincha");
                  ("day_of_week", Str "Sunday");
                  ("holiday_type", Str "Holiday"); ("dcoilwtico", num 50);
                  ("year", num 2017); ("month", num 1); ("week", num 52)];
     list_to_map [("date", Timestamp 1483228800000000000);
                  ("store_nbr", num 1); ("family", Str "MEATS");
                  ("sales", num 8); ("onpromotion", num 0);
                  ("transactions", num 40); ("state", Str "Pichincha");
                  ("day_of_week", Str "Sunday");
                  ("holiday_type", Str "Holiday"); ("dcoilwtico", num 50);
                  ("year", num 2017); ("month", num 1); ("week", num 52)];
     list_to_map [("date", Timestamp 1483315200000000000);
                  ("store_nbr", num 2); ("family", Str "DAIRY");
                  ("sales", num 5); ("onpromotion", num 0);
                  ("transactions", NA); ("state", Str "Guayas");
                  ("day_of_week", Str "Monday");
                  ("holiday_type", NA); ("dcoilwtico", NA);
                  ("year", num 2017); ("month", num 1); ("week", num 1)]].

(** Partitions that have a date but no sales between them. *)
Definition partitions_without_sales : file_system :=
  two_files (Frame ["date"; "onpromotion"] [])
            (Frame ["date"; "transactions"] []).

(** The transaction view of [two_pairs]. *)
Definition two_pairs_view : frame :=
  Frame ["date"; "store_nbr"; "state"; "transactions"; "year"]
    [list_to_map [("date", Timestamp 0); ("store_nbr", num 1);
                  ("state", Str "Pichincha"); ("transactions", num 40);
                  ("year", num 1970)];
     list_to_map [("date", Timestamp 0); ("store_nbr", num 2);
                  ("state", Str "Guayas"); ("transactions", NA);
                  ("year", num 1970)]].

(** * Properties *)

(** ** Rows and columns *)

Lemma col_insert (c c' : string) (v : cell) (r : row) :
  col c (<[c' := v]> r) = if decide (c' = c) then v else col c r.
Proof.
  unfold col. rewrite lookup_insert. by destruct (decide (c' = c)).
Qed.

Lemma lookup_reindex (cs : list string) (r : row) (c : string) :
  reindex cs r !! c = if decide (c ∈ cs) then Some (col c r) else None.
Proof.
  unfold reindex. induction cs as [|c' cs IH]; csimpl.
  - rewrite lookup_empty. destruct (decide (c ∈ [])) as [Hin|]; [|done].
    by apply elem_of_nil in Hin.
  - rewrite lookup_insert. destruct (decide (c' = c)) as [->|Hne].
    + rewrite decide_True; [done | apply list_elem_of_here].
    + rewrite IH. destruct (decide (c ∈ cs)) as [Hin|Hnin].
      * rewrite decide_True; [done | by apply list_elem_of_further].
      * rewrite decide_False; [done|].
        intros [->|?]%elem_of_cons; done.
Qed.

Lemma col_reindex (cs : list string) (r : row) (c : string) :
  c ∈ cs → col c (reindex cs r) = col c r.
Proof. intros Hin. unfold col at 1. rewrite lookup_reindex. by rewrite decide_True. Qed.

Lemma dom_reindex (cs : list string) (r : row) :
  dom (reindex cs r) = list_to_set cs.
Proof.
  apply set_eq. intros c. rewrite elem_of_dom, lookup_reindex, elem_of_list_to_set.
  destruct (decide (c ∈ cs)) as [Hin|Hnin].
  - split; [done | by eauto].
  - split; [by intros [? ?] | done].
Qed.

Lemma keys_of_reindex (ks cs : list string) (r : row) :
  ks ⊆ cs → keys_of ks (reindex cs r) = keys_of ks r.
Proof.
  intros Hsub. unfold keys_of. apply list_fmap_ext. intros i c Hc.
  apply col_reindex, Hsub. by eapply list_elem_of_lookup_2.
Qed.

Lemma setitem_fmap (c : string) (g : row → cell) (df : frame) :
  rows (setitem c (g <$> rows df) df) = (λ r, <[c := g r]> r) <$> rows df.
Proof.
  unfold setitem; simpl. induction (rows df) as [|r rs IH]; csimpl; [done|].
  by f_equal.
Qed.

(** ** Stable sort *)

Section sorting.
Context {A : Type} (leb : A → A → bool).

Lemma insert_sorted_Permutation (x : A) (l : list A) :
  insert_sorted leb x l ≡ₚ x :: l.
Proof.
  induction l as [|y l IH]; simpl; [done|].
  destruct (leb x y); [done|]. rewrite IH. apply perm_swap.
Qed.

Lemma stable_sort_Permutation (l : list A) : stable_sort leb l ≡ₚ l.
Proof.
  induction l as [|x l IH]; simpl; [done|].
  rewrite insert_sorted_Permutation. by rewrite IH.
Qed.

Lemma stable_sort_length (l : list A) : length (stable_sort leb l) = length l.
Proof. by rewrite stable_sort_Permutation. Qed.

Lemma stable_sort_elem_of (x : A) (l : list A) : x ∈ stable_sort leb l ↔ x ∈ l.
Proof. by rewrite stable_sort_Permutation. Qed.

Lemma stable_sort_NoDup (l : list A) : NoDup l → NoDup (stable_sort leb l).
Proof. by rewrite stable_sort_Permutation. Qed.

Hypothesis leb_total : ∀ x y, leb x y = false → leb y x = true.

Lemma insert_sorted_Sorted (x : A) (l : list A) :
  Sorted (λ a b, leb a b = true) l →
  Sorted (λ a b, leb a b = true) (insert_sorted leb x l).
Proof.
  induction 1 as [|y l Hl IH Hhd]; simpl.
  - by repeat constructor.
  - destruct (leb x y) eqn:Hxy.
    + constructor; [by constructor | by constructor].
    + constructor; [done|].
      destruct Hhd as [|z l Hyz]; simpl.
      * constructor. by apply leb_total.
      * destruct (leb x z); constructor; [by apply leb_total | done].
Qed.

Lemma stable_sort_Sorted (l : list A) :
  Sorted (λ a b, leb a b = true) (stable_sort leb l).
Proof.
  induction l as [|x l IH]; simpl; [constructor|].
  by apply insert_sorted_Sorted.
Qed.
End sorting.

Lemma stable_sort_nil {A} (leb : A → A → bool) : stable_sort leb [] = [].
Proof. done. Qed.

Lemma col_insert_eq (c : string) (v : cell) (r : row) : col c (<[c := v]> r) = v.
Proof. by rewrite col_insert, decide_True. Qed.

Lemma col_insert_ne (c c' : string) (v : cell) (r : row) :
  c ≠ c' → col c (<[c' := v]> r) = col c r.
Proof. intros. by rewrite col_insert, decide_False. Qed.

(** ** The order of cells and of group keys *)

Lemma cell_leb_total (a b : cell) : cell_leb a b = false → cell_leb b a = true.
Proof.
  destruct a as [|p|s|m], b as [|q|t|n]; simpl; try done.
  - intros Hpq%bool_decide_eq_false. apply bool_decide_eq_true.
    by destruct (Qc_le_total p q).
  - intros Hst. by destruct (String.leb_total s t) as [Hl|Hl]; [congruence|].
  - intros Hmn%Z.leb_gt. apply Z.leb_le. lia.
Qed.

Lemma cell_leb_refl (a : cell) : cell_leb a a = true.
Proof.
  destruct (cell_leb a a) eqn:Haa; [done|].
  apply cell_leb_total in Haa as Haa'. congruence.
Qed.

Lemma cell_geb_total (a b : cell) : cell_geb a b = false → cell_geb b a = true.
Proof.
  unfold cell_geb. destruct a, b; try done; apply cell_leb_total.
Qed.

Lemma keys_leb_total (k1 k2 : list cell) :
  keys_leb k1 k2 = false → keys_leb k2 k1 = true.
Proof.
  revert k2. induction k1 as [|a k1 IH]; intros [|b k2]; simpl; try done.
  destruct (decide (a = b)) as [->|Hne].
  - rewrite decide_True by done. apply IH.
  - rewrite decide_False by done. apply cell_leb_total.
Qed.

Lemma keys_leb_singleton (a b : cell) : keys_leb [a] [b] = cell_leb a b.
Proof.
  simpl. destruct (decide (a = b)) as [->|]; [|done]. by rewrite cell_leb_refl.
Qed.


(** ** Keeping first occurrences *)

Section unique_by.
Context {A K : Type} `{EqDecision K} (f : A → K).

(** Among the kept elements, those of key [k] are the first element of key
    [k], unless the key was seen before. *)
Lemma filter_unique_by (k : K) (seen : list K) (l : list A) :
  List.filter (λ x, bool_decide (f x = k)) (unique_by f seen l) =
  if decide (k ∈ seen) then []
  else take 1 (List.filter (λ x, bool_decide (f x = k)) l).
Proof.
  revert seen. induction l as [|x l IH]; intros seen; simpl.
  - by destruct (decide (k ∈ seen)).
  - destruct (decide (f x ∈ seen)) as [Hseen|Hnew].
    + rewrite IH. destruct (decide (k ∈ seen)) as [|Hk]; [done|].
      rewrite bool_decide_eq_false_2; [done | congruence].
    + simpl. rewrite IH. destruct (bool_decide (f x = k)) eqn:Hx.
      * apply bool_decide_eq_true in Hx. subst k.
        rewrite decide_True by apply list_elem_of_here.
        rewrite decide_False by done. done.
      * apply bool_decide_eq_false in Hx.
        destruct (decide (k ∈ seen)) as [Hk|Hk].
        -- rewrite decide_True; [done | by apply list_elem_of_further].
        -- rewrite decide_False; [done|].
           intros [->|?]%elem_of_cons; done.
Qed.

Lemma unique_by_elem_of (x : A) (seen : list K) (l : list A) :
  x ∈ unique_by f seen l → x ∈ l ∧ f x ∉ seen.
Proof.
  revert seen. induction l as [|y l IH]; intros seen; simpl.
  - by intros ?%elem_of_nil.
  - destruct (decide (f y ∈ seen)) as [Hseen|Hnew].
    + intros [??]%IH. split; [by apply list_elem_of_further | done].
    + intros [->|Hin]%elem_of_cons.
      * split; [apply list_elem_of_here | done].
      * apply IH in Hin as [? Hn]. split; [by apply list_elem_of_further|].
        intros ?. apply Hn. by apply list_elem_of_further.
Qed.

Lemma unique_by_key_elem_of (k : K) (seen : list K) (l : list A) :
  k ∈ f <$> unique_by f seen l ↔ k ∈ f <$> l ∧ k ∉ seen.
Proof.
  revert seen. induction l as [|y l IH]; intros seen; csimpl.
  - split; [by intros ?%elem_of_nil | by intros [?%elem_of_nil ?]].
  - destruct (decide (f y ∈ seen)) as [Hseen|Hnew]; csimpl.
    + rewrite IH, elem_of_cons. split; [naive_solver|].
      intros [[->|?] ?]; done.
    + rewrite !elem_of_cons, IH, elem_of_cons.
      destruct (decide (k = f y)); naive_solver.
Qed.

Lemma unique_by_NoDup (seen : list K) (l : list A) :
  NoDup (f <$> unique_by f seen l).
Proof.
  revert seen. induction l as [|y l IH]; intros seen; csimpl.
  - constructor.
  - destruct (decide (f y ∈ seen)); csimpl; [done|].
    constructor; [|done].
    rewrite unique_by_key_elem_of. intros [_ Hn]. apply Hn, list_elem_of_here.
Qed.
End unique_by.

(** ** Groups *)

Lemma group_index_elem_of (ks : list string) (rs : list row) (k : list cell) :
  k ∈ group_index ks rs ↔ complete k = true ∧ ∃ r, r ∈ rs ∧ keys_of ks r = k.
Proof.
  unfold group_index. rewrite stable_sort_elem_of.
  rewrite <- (list_fmap_id (unique_by id [] _)).
  change (fmap id) with (fmap (M:=list) (@id (list cell))).
  rewrite (unique_by_key_elem_of id), list_fmap_id.
  rewrite list_elem_of_In, filter_In, <- list_elem_of_In, list_elem_of_fmap.
  split.
  - intros [[(r & -> & Hr) Hc] _]. eauto.
  - intros [Hc (r & Hr & <-)]. split; [eauto|]. by intros ?%elem_of_nil.
Qed.

Lemma group_index_NoDup (ks : list string) (rs : list row) :
  NoDup (group_index ks rs).
Proof.
  unfold group_index. apply stable_sort_NoDup.
  rewrite <- (list_fmap_id (unique_by id [] _)). apply (unique_by_NoDup id).
Qed.

Lemma group_index_Sorted (ks : list string) (rs : list row) :
  Sorted (λ a b, keys_leb a b = true) (group_index ks rs).
Proof. apply stable_sort_Sorted, keys_leb_total. Qed.

Lemma group_index_nil (ks : list string) : group_index ks [] = [].
Proof. done. Qed.

Lemma get_group_elem_of (ks : list string) (k : list cell) (rs : list row) (r : row) :
  r ∈ get_group ks k rs ↔ r ∈ rs ∧ keys_of ks r = k.
Proof.
  unfold get_group. rewrite list_elem_of_In, filter_In, <- list_elem_of_In.
  by rewrite bool_decide_eq_true.
Qed.

(** ** The transaction view *)

Lemma no_missing_column (cs have : list string) :
  Forall (λ c, c ∈ have) cs → filter (λ c, c ∉ have) cs = [].
Proof.
  induction 1 as [|c cs Hc _ IH]; [done|].
  rewrite filter_cons_False by (by intros ?). done.
Qed.

Lemma select_ok (cs : list string) (df : frame) :
  Forall (λ c, c ∈ columns df) cs →
  select cs df = Ok {| columns := cs; rows := reindex cs <$> rows df |}.
Proof.
  intros Hcs. unfold select.
  by rewrite no_missing_column.
Qed.

Lemma drop_duplicates_ok (ks : list string) (df : frame) :
  Forall (λ c, c ∈ columns df) ks →
  drop_duplicates ks df =
    Ok {| columns := columns df; rows := unique_by (keys_of ks) [] (rows df) |}.
Proof.
  intros Hks. unfold drop_duplicates.
  by rewrite no_missing_column.
Qed.

Lemma get_group_fmap_reindex (ks cs : list string) (k : list cell) (rs : list row) :
  ks ⊆ cs →
  get_group ks k (reindex cs <$> rs) = reindex cs <$> get_group ks k rs.
Proof.
  intros Hsub. unfold get_group. induction rs as [|r rs IH]; csimpl; [done|].
  rewrite keys_of_reindex by done.
  destruct (bool_decide (keys_of ks r = k)); csimpl; by rewrite IH.
Qed.

Lemma get_group_unique_by (ks : list string) (k : list cell) (rs : list row) :
  get_group ks k (unique_by (keys_of ks) [] rs) = take 1 (get_group ks k rs).
Proof.
  unfold get_group. rewrite filter_unique_by.
  by rewrite decide_False by (by intros ?%elem_of_nil).
Qed.

Lemma transactions_base_rows (df : frame) :
  Forall (λ c, c ∈ columns df) ["date"; "store_nbr"; "state"; "transactions"; "year"] →
  transactions_base df =
    Ok {| columns := ["date"; "store_nbr"; "state"; "transactions"; "year"];
          rows := unique_by (keys_of ["date"; "store_nbr"]) []
                    (reindex ["date"; "store_nbr"; "state"; "transactions"; "year"]
                       <$> rows df) |}.
Proof.
  intros Hcs. unfold transactions_base. rewrite select_ok by done.
  cbn [mbind result_bind]. rewrite drop_duplicates_ok; [done|].
  simpl. repeat constructor; set_solver.
Qed.

(** C1. On a dataset that has the five columns, [transactions_base] returns
    a view with exactly the columns date, store_nbr, state, transactions and
    year, whose rows carry exactly these columns; for every row of the
    dataset the view holds exactly one row with its (date, store_nbr) pair;
    that row is the first row of the dataset with the pair, restricted to
    the five columns; and when transactions is the same on all rows of the
    pair, the view's row carries that value. *)
Theorem transactions_base_one_row_per_pair (df : frame) :
  Forall (λ c, c ∈ columns df)
    ["date"; "store_nbr"; "state"; "transactions"; "year"] →
  ∃ base,
    transactions_base df = Ok base ∧
    columns base = ["date"; "store_nbr"; "state"; "transactions"; "year"] ∧
    Forall (λ b, dom b =
      list_to_set ["date"; "store_nbr"; "state"; "transactions"; "year"])
      (rows base) ∧
    ∀ r, r ∈ rows df →
      let pair := keys_of ["date"; "store_nbr"] r in
      ∃ b first,
        get_group ["date"; "store_nbr"] pair (rows base) = [b] ∧
        head (get_group ["date"; "store_nbr"] pair (rows df)) = Some first ∧
        b = reindex ["date"; "store_nbr"; "state"; "transactions"; "year"] first ∧
        ((∀ r', r' ∈ rows df → keys_of ["date"; "store_nbr"] r' = pair →
            col "transactions" r' = col "transactions" r) →
         col "transactions" b = col "transactions" r).
Proof.
  intros Hcs. eexists. split; [by apply transactions_base_rows|].
  split; [done|]. cbn [rows]. split.
  - apply Forall_forall. intros b [Hb _]%unique_by_elem_of.
    apply list_elem_of_fmap in Hb as (r & -> & _). apply dom_reindex.
  - intros r Hr. cbv zeta.
    assert (Hsub : ["date"; "store_nbr"] ⊆
                   ["date"; "store_nbr"; "state"; "transactions"; "year"])
      by set_solver.
    rewrite get_group_unique_by, get_group_fmap_reindex by done.
    destruct (get_group ["date"; "store_nbr"] (keys_of ["date"; "store_nbr"] r)
                (rows df)) as [|first g] eqn:Hg.
    + assert (r ∈ get_group ["date"; "store_nbr"]
                    (keys_of ["date"; "store_nbr"] r) (rows df)) as Hin
        by by apply get_group_elem_of.
      rewrite Hg in Hin. by apply elem_of_nil in Hin.
    + exists (reindex ["date"; "store_nbr"; "state"; "transactions"; "year"] first), first.
      split; [done|]. split; [done|]. split; [done|].
      intros Hsame. rewrite col_reindex by set_solver.
      assert (first ∈ get_group ["date"; "store_nbr"]
                (keys_of ["date"; "store_nbr"] r) (rows df)) as Hin
        by (rewrite Hg; apply list_elem_of_here).
      apply get_group_elem_of in Hin as [Hin Hk]. by apply Hsame.
Qed.

(** ** Tables of one row per group *)

Lemma stable_sort_sorted {A} (leb : A → A → bool) (l : list A) :
  Sorted (λ a b, leb a b = true) l → stable_sort leb l = l.
Proof.
  induction 1 as [|x l Hl IH Hhd]; [done|]. simpl. rewrite IH.
  destruct Hhd as [|y l Hxy]; simpl; [done|]. by rewrite Hxy.
Qed.

Lemma group_index_single (k : string) (rs : list row) :
  group_index [k] rs = (λ b, [b]) <$> buckets k rs.
Proof.
  unfold buckets. rewrite <- list_fmap_compose.
  rewrite <- (list_fmap_id (group_index [k] rs)) at 1.
  apply list_fmap_ext. intros i key Hkey. simpl.
  apply list_elem_of_lookup_2, group_index_elem_of in Hkey as (_ & r & _ & <-).
  done.
Qed.

Lemma buckets_elem_of (k : string) (rs : list row) (b : cell) :
  b ∈ buckets k rs ↔ b ≠ NA ∧ ∃ r, r ∈ rs ∧ col k r = b.
Proof.
  unfold buckets. rewrite list_elem_of_fmap. split.
  - intros (key & -> & (Hc & r & Hr & <-)%group_index_elem_of). simpl.
    split; [|eauto]. simpl in Hc. by destruct (col k r).
  - intros (Hb & r & Hr & <-). exists [col k r]. split; [done|].
    apply group_index_elem_of. split; [|eauto].
    simpl. by destruct (col k r).
Qed.

Lemma buckets_NoDup (k : string) (rs : list row) : NoDup (buckets k rs).
Proof.
  pose proof (group_index_NoDup [k] rs) as Hnd.
  rewrite group_index_single in Hnd. by apply NoDup_fmap_1 in Hnd.
Qed.

Lemma buckets_ascending (k : string) (rs : list row) : ascending (buckets k rs).
Proof.
  pose proof (group_index_Sorted [k] rs) as Hs.
  rewrite group_index_single in Hs. unfold ascending.
  remember (buckets k rs) as bs eqn:E. clear E.
  induction bs as [|a bs IH]; [constructor|].
  csimpl in Hs. apply Sorted_inv in Hs as [Hs Hhd]. constructor; [by apply IH|].
  destruct bs as [|b bs]; [constructor|]. csimpl in Hhd.
  apply HdRel_inv in Hhd. constructor. by rewrite <- keys_leb_singleton.
Qed.

Lemma groupby_agg_single (k v : string) (f : list cell → cell) (rs : list row) :
  groupby_agg [k] v f rs =
  (λ b, ([b], f (col v <$> get_group [k] [b] rs))) <$> buckets k rs.
Proof.
  unfold groupby_agg. rewrite group_index_single. by rewrite <- list_fmap_compose.
Qed.

Lemma reset_index_single (k v : string) (f : list cell → cell) (rs : list row) :
  rows (reset_index [k] v (groupby_agg [k] v f rs)) =
  (λ b, <[v := f (col v <$> get_group [k] [b] rs)]> (<[k := b]> ∅))
    <$> buckets k rs.
Proof.
  unfold reset_index. cbn [rows]. rewrite groupby_agg_single.
  rewrite <- list_fmap_compose. by apply list_fmap_ext.
Qed.

Lemma grouped_by_Permutation (k v : string) (f : list cell → cell)
    (df t t' : frame) :
  columns t' = columns t → rows t' ≡ₚ rows t →
  grouped_by k v f df t → grouped_by k v f df t'.
Proof.
  intros Hc Hp (Hcols & Hnd & Hin & Hval). unfold grouped_by.
  rewrite Hc. split; [done|]. split; [by rewrite Hp|]. split.
  - intros b. by rewrite Hp.
  - intros x Hx. apply Hval. by rewrite <- Hp.
Qed.

Lemma groupby_agg_grouped_by (k v : string) (f : list cell → cell) (df : frame) :
  k ≠ v →
  grouped_by k v f df (reset_index [k] v (groupby_agg [k] v f (rows df))).
Proof.
  intros Hkv.
  assert (Hk : col k <$> rows (reset_index [k] v (groupby_agg [k] v f (rows df)))
               = buckets k (rows df)).
  { rewrite reset_index_single, <- list_fmap_compose.
    rewrite <- (list_fmap_id (buckets k (rows df))) at 2.
    apply list_fmap_ext. intros i b _. simpl.
    rewrite col_insert, decide_False by done.
    by rewrite col_insert, decide_True. }
  split; [done|]. rewrite Hk. split; [apply buckets_NoDup|].
  split; [apply buckets_elem_of|].
  intros x. rewrite reset_index_single. intros (b & -> & _)%list_elem_of_fmap.
  rewrite (col_insert v), decide_True by done.
  by rewrite (col_insert k), decide_False, col_insert, decide_True.
Qed.

(** ** Guards *)

Lemma key_ok {A} (c : string) (df : frame) (k : result A) :
  c ∈ columns df → key c df k = k.
Proof.
  intros Hc. unfold key, has_column. by rewrite bool_decide_eq_true_2.
Qed.

Lemma measure_ok {A} (c : string) (df : frame) (k : result A) :
  c ∈ columns df → numeric_column c df = true → measure c df k = k.
Proof.
  intros Hc Hn. unfold measure, has_column.
  by rewrite bool_decide_eq_true_2, Hn.
Qed.

(** ** Rankings *)

Lemma col_reset_index_value (ks : list string) (v : string) (s : series) :
  col v <$> rows (reset_index ks v s) = s.*2.
Proof.
  unfold reset_index. cbn [rows]. rewrite <- list_fmap_compose.
  apply list_fmap_ext. intros i kv _. simpl.
  by rewrite col_insert, decide_True.
Qed.

Lemma head_reset_index (ks : list string) (v : string) (n : nat) (s : series) :
  reset_index ks v (take n s) = head_ n (reset_index ks v s).
Proof. unfold reset_index, head_. cbn [rows columns]. by rewrite fmap_take. Qed.

Lemma sort_values_desc_descending (s : series) :
  descending (sort_values_desc s).*2.
Proof.
  unfold descending, sort_values_desc.
  eapply Sorted_fmap; [|apply stable_sort_Sorted].
  - intros x y Hxy. exact Hxy.
  - intros x y. apply cell_geb_total.
Qed.

Lemma ranking_full (k v : string) (n : nat) (df : frame) :
  k ≠ v → k ∈ columns df → v ∈ columns df → numeric_column v df = true →
  ∃ full,
    ranking k v n df = Ok (head_ n full) ∧
    grouped_by k v agg_sum df full ∧
    descending (col v <$> rows full).
Proof.
  intros Hkv Hk Hv Hnum.
  exists (reset_index [k] v (sort_values_desc (groupby_agg [k] v agg_sum (rows df)))).
  split; [|split].
  - unfold ranking. rewrite key_ok, measure_ok by done.
    by rewrite head_reset_index.
  - eapply grouped_by_Permutation; [| |by apply groupby_agg_grouped_by]; [done|].
    unfold reset_index; cbn [rows]. apply fmap_Permutation.
    apply stable_sort_Permutation.
  - rewrite col_reset_index_value. apply sort_values_desc_descending.
Qed.

(** C4 (as amended). A ranking by family has one entry per family that
    occurs, holding the sum of its sales; the entries are in descending
    order of the sum and only the first [n] are kept ([n] is 10 for
    [top_products] and [top_store_products]). On the three rows (A, 10),
    (B, 30), (A, 5) the top 2 is (B, 30), (A, 15). The order of tied
    families is not part of the statement. *)
Theorem ranking_by_family_sorted_and_truncated (n : nat) (df : frame) :
  "family" ∈ columns df → "sales" ∈ columns df →
  numeric_column "sales" df = true →
  (∃ full,
     ranking "family" "sales" n df = Ok (head_ n full) ∧
     grouped_by "family" "sales" agg_sum df full ∧
     (∀ x, x ∈ rows full → ∃ q, col "sales" x = Num q) ∧
     descending (col "sales" <$> rows full)) ∧
  top_products df = ranking "family" "sales" 10 df ∧
  top_store_products df = ranking "family" "sales" 10 df ∧
  ranking "family" "sales" 2 example_sales =
    Ok (Frame ["family"; "sales"]
          [list_to_map [("family", Str "B"); ("sales", num 30)];
           list_to_map [("family", Str "A"); ("sales", num 15)]]).
Proof.
  intros Hk Hv Hnum. split; [|split; [done|split; [done|]]].
  - destruct (ranking_full "family" "sales" n df) as (full & Hr & Hg & Hd);
      try done.
    exists full. split; [done|]. split; [done|]. split; [|done].
    intros x Hx. destruct Hg as (_ & _ & _ & Hval). rewrite (Hval x Hx).
    by eexists.
  - vm_compute. reflexivity.
Qed.

(** The witness: the statement at the example rows, with [n] 2. *)
Lemma ranking_by_family_witness :
  (∃ full,
     ranking "family" "sales" 2 example_sales = Ok (head_ 2 full) ∧
     grouped_by "family" "sales" agg_sum example_sales full ∧
     (∀ x, x ∈ rows full → ∃ q, col "sales" x = Num q) ∧
     descending (col "sales" <$> rows full)) ∧
  top_products example_sales = ranking "family" "sales" 10 example_sales ∧
  top_store_products example_sales = ranking "family" "sales" 10 example_sales ∧
  ranking "family" "sales" 2 example_sales =
    Ok (Frame ["family"; "sales"]
          [list_to_map [("family", Str "B"); ("sales", num 30)];
           list_to_map [("family", Str "A"); ("sales", num 15)]]).
Proof.
  apply (ranking_by_family_sorted_and_truncated 2 example_sales).
  - vm_compute. left. 
  - vm_compute. right; left.
  - reflexivity.
Defined.

(** The groups of a ranking are formed in the order of their keys: the
    series that is sorted does not depend on the order of the rows. *)
Lemma groupby_agg_tied_sales :
  groupby_agg ["family"] "sales" agg_sum (rows tied_sales)
    = [([Str "A"], num 10); ([Str "B"], num 10)] ∧
  groupby_agg ["family"] "sales" agg_sum (rows tied_sales_reversed)
    = [([Str "A"], num 10); ([Str "B"], num 10)].
Proof. split; vm_compute; reflexivity. Qed.

(** C4, counterexample. Families A and B tie at 10; they appear in the
    order B, A in one table and in the order A, B in the other. The two
    tables have the same ranking, so in one of them the tied families are
    not in order of first appearance. *)
Lemma top_products_ties_not_first_appearance :
  ∃ t, top_products tied_sales = Ok t ∧
       top_products tied_sales_reversed = Ok t ∧
       col "sales" <$> rows t = [num 10; num 10] ∧
       first_appearance "family" (rows tied_sales) = [Str "B"; Str "A"] ∧
       first_appearance "family" (rows tied_sales_reversed)
         = [Str "A"; Str "B"] ∧
       (col "family" <$> rows t ≠ first_appearance "family" (rows tied_sales)
        ∨ col "family" <$> rows t
            ≠ first_appearance "family" (rows tied_sales_reversed)).
Proof.
  eexists. split; [vm_compute; reflexivity|].
  split; [vm_compute; reflexivity|]. split; [vm_compute; reflexivity|].
  split; [vm_compute; reflexivity|]. split; [vm_compute; reflexivity|].
  left. vm_compute. discriminate.
Qed.

(** ** Values of one type *)

Lemma dropna_elem_of (s : list cell) (x : cell) :
  x ∈ dropna s ↔ x ≠ NA ∧ x ∈ s.
Proof.
  unfold dropna. rewrite list_elem_of_In, filter_In, <- list_elem_of_In.
  destruct x; cbn; naive_solver.
Qed.

Lemma same_type_spec (l : list cell) :
  same_type l = true ↔ ∀ x y, x ∈ l → y ∈ l → cell_rank x = cell_rank y.
Proof.
  destruct l as [|c l]; cbn [same_type].
  - split; [|done]. by intros _ x y ?%elem_of_nil.
  - rewrite forallb_forall. split.
    + intros Hall. assert (∀ x, x ∈ c :: l → cell_rank x = cell_rank c) as Hc.
      { intros x [->|Hx]%elem_of_cons; [done|].
        by apply Nat.eqb_eq, Hall, list_elem_of_In. }
      intros x y Hx Hy. by rewrite (Hc x), (Hc y).
    + intros Hall x Hx%list_elem_of_In. apply Nat.eqb_eq, Hall; [by right|by left].
Qed.

Lemma same_type_subseteq (l l' : list cell) :
  l' ⊆ l → same_type l = true → same_type l' = true.
Proof. rewrite !same_type_spec. intros Hsub Hall x y Hx Hy. apply Hall; auto. Qed.

(** A column of numbers and nulls is of one type. *)
Lemma same_type_numeric (l : list cell) :
  Forall (λ c, is_numeric c = true) l → same_type (dropna l) = true.
Proof.
  rewrite Forall_forall. intros Hnum. apply same_type_spec.
  intros x y [Hx Hxl]%dropna_elem_of [Hy Hyl]%dropna_elem_of.
  apply Hnum in Hxl, Hyl. by destruct x, y.
Qed.

Lemma comparable_spec (c : string) (df : frame) :
  comparable c df = true ↔
  ∀ r1 r2, r1 ∈ rows df → r2 ∈ rows df → col c r1 ≠ NA → col c r2 ≠ NA →
           cell_rank (col c r1) = cell_rank (col c r2).
Proof.
  unfold comparable. rewrite same_type_spec. split.
  - intros Hall r1 r2 Hr1 Hr2 Hn1 Hn2.
    apply Hall; apply dropna_elem_of; (split; [done|]);
      apply list_elem_of_fmap; eauto.
  - intros Hall x y [Hx (r1 & -> & Hr1)%list_elem_of_fmap]%dropna_elem_of
      [Hy (r2 & -> & Hr2)%list_elem_of_fmap]%dropna_elem_of.
    by apply Hall.
Qed.

Lemma comparable_where (c : string) (p : row → bool) (df : frame) :
  comparable c df = true → comparable c (where_ p df) = true.
Proof.
  rewrite !comparable_spec. intros Hall r1 r2 Hr1 Hr2.
  unfold where_ in Hr1, Hr2. cbn [rows] in Hr1, Hr2.
  apply list_elem_of_In, filter_In in Hr1 as [Hr1%list_elem_of_In _].
  apply list_elem_of_In, filter_In in Hr2 as [Hr2%list_elem_of_In _].
  by apply Hall.
Qed.

Lemma comparable_numeric (c : string) (df : frame) :
  numeric_column c df = true → comparable c df = true.
Proof.
  intros Hnum. apply same_type_numeric, Forall_fmap, Forall_forall.
  intros r Hr. unfold numeric_column in Hnum. rewrite forallb_forall in Hnum.
  by apply Hnum, list_elem_of_In.
Qed.

(** ** Tables sorted by their key *)

Lemma col_key_reset_index (k v : string) (f : list cell → cell) (rs : list row) :
  k ≠ v →
  col k <$> rows (reset_index [k] v (groupby_agg [k] v f rs)) = buckets k rs.
Proof.
  intros Hkv. rewrite reset_index_single, <- list_fmap_compose.
  rewrite <- (list_fmap_id (buckets k rs)) at 2.
  apply list_fmap_ext. intros i b _. simpl.
  by rewrite col_insert_ne, col_insert_eq.
Qed.

(** The keys of the groups of a column of one type are of one type. *)
Lemma comparable_groups (k v : string) (f : list cell → cell) (df : frame) :
  k ≠ v → comparable k df = true →
  comparable k (reset_index [k] v (groupby_agg [k] v f (rows df))) = true.
Proof.
  intros Hkv. unfold comparable. rewrite col_key_reset_index by done.
  apply same_type_subseteq.
  intros b [_ [Hb (r & Hr & <-)]%buckets_elem_of]%dropna_elem_of.
  apply dropna_elem_of. split; [done|]. apply list_elem_of_fmap. eauto.
Qed.

Lemma sort_values_key_sorted (k v : string) (f : list cell → cell) (df : frame) :
  k ≠ v → comparable k df = true →
  sort_values [(k, true)] (reset_index [k] v (groupby_agg [k] v f (rows df))) =
  Ok (reset_index [k] v (groupby_agg [k] v f (rows df))).
Proof.
  intros Hkv Hcmp. unfold sort_values.
  rewrite no_missing_column by (simpl; repeat constructor).
  cbv zeta. rewrite comparable_groups by done. cbn [raise_unless].
  assert (Hvk : v ≠ k) by congruence.
  f_equal. rewrite stable_sort_sorted; [reflexivity|].
  rewrite reset_index_single.
  eapply Sorted_fmap; [|apply buckets_ascending].
  intros a b Hab. simpl.
  rewrite !(col_insert_ne k v), !col_insert_eq by done.
  by destruct (decide (a = b)).
Qed.

Lemma mean_by_ok (k v : string) (df : frame) :
  k ∈ columns df → v ∈ columns df → numeric_column v df = true →
  mean_by k v df = Ok (reset_index [k] v (groupby_agg [k] v agg_mean (rows df))).
Proof. intros. unfold mean_by. by rewrite key_ok, measure_ok. Qed.

(** C6 (as amended). The weekly and the monthly means have one row per week
    (month) that occurs and are in ascending order of the week (month),
    when the weeks (months) that are not null are of one type; the means by
    day of the week have one row per day that occurs and are in descending
    order of the mean. *)
Theorem time_bucket_tables (df : frame) :
  Forall (λ c, c ∈ columns df) ["day_of_week"; "week"; "month"; "sales"] →
  numeric_column "sales" df = true →
  (comparable "week" df = true →
   ∃ t, week_avg df = Ok t ∧
        grouped_by "week" "sales" agg_mean df t ∧
        ascending (col "week" <$> rows t)) ∧
  (comparable "month" df = true →
   ∃ t, month_avg df = Ok t ∧
        grouped_by "month" "sales" agg_mean df t ∧
        ascending (col "month" <$> rows t)) ∧
  (∃ t, dow_avg df = Ok t ∧
        grouped_by "day_of_week" "sales" agg_mean df t ∧
        descending (col "sales" <$> rows t)).
Proof.
  rewrite !Forall_cons. intros (Hd & Hw & Hm & Hs & _) Hnum.
  split; [|split].
  - intros Hcmp. eexists. unfold week_avg. rewrite mean_by_ok by done.
    cbn [mbind result_bind].
    rewrite sort_values_key_sorted by done. split; [done|].
    split; [by apply groupby_agg_grouped_by|].
    rewrite col_key_reset_index by done. apply buckets_ascending.
  - intros Hcmp. eexists. unfold month_avg. rewrite mean_by_ok by done.
    cbn [mbind result_bind].
    rewrite sort_values_key_sorted by done. split; [done|].
    split; [by apply groupby_agg_grouped_by|].
    rewrite col_key_reset_index by done. apply buckets_ascending.
  - eexists. unfold dow_avg. rewrite key_ok, measure_ok by done.
    split; [done|]. split.
    + eapply grouped_by_Permutation; [| |by apply groupby_agg_grouped_by]; [done|].
      unfold reset_index; cbn [rows]. apply fmap_Permutation.
      apply stable_sort_Permutation.
    + rewrite col_reset_index_value. apply sort_values_desc_descending.
Qed.

Lemma time_bucket_tables_witness :
  (∃ t, week_avg weekday_sales = Ok t ∧
        grouped_by "week" "sales" agg_mean weekday_sales t ∧
        ascending (col "week" <$> rows t)) ∧
  (∃ t, month_avg weekday_sales = Ok t ∧
        grouped_by "month" "sales" agg_mean weekday_sales t ∧
        ascending (col "month" <$> rows t)) ∧
  (∃ t, dow_avg weekday_sales = Ok t ∧
        grouped_by "day_of_week" "sales" agg_mean weekday_sales t ∧
        descending (col "sales" <$> rows t)).
Proof.
  destruct (time_bucket_tables weekday_sales) as (Hweek & Hmonth & Hdow).
  - unfold weekday_sales; cbn [columns]. repeat constructor; set_solver.
  - reflexivity.
  - split; [apply Hweek; reflexivity|].
    split; [apply Hmonth; reflexivity|exact Hdow].
Defined.

(** C6, counterexample. Monday sells 1 and Tuesday 5 on average: the table
    by day of the week lists Tuesday first, so its rows are not in the order
    of the days. *)
Lemma dow_avg_not_in_bucket_order :
  ∃ t, dow_avg weekday_sales = Ok t ∧
       col "day_of_week" <$> rows t = [Str "Tuesday"; Str "Monday"] ∧
       col "sales" <$> rows t = [num 5; num 1] ∧
       ¬ ascending (col "day_of_week" <$> rows t).
Proof.
  eexists. split; [vm_compute; reflexivity|].
  split; [vm_compute; reflexivity|]. split; [vm_compute; reflexivity|].
  intros Hasc. vm_compute in Hasc.
  apply Sorted_inv in Hasc as [_ Hhd]. apply HdRel_inv in Hhd. discriminate.
Qed.

(** A week column that holds a number and a text: the weekly means have a
    row for each, and sorting them by week fails. *)
Example week_avg_mixed_weeks :
  mean_by "week" "sales" mixed_weeks
    = Ok (Frame ["week"; "sales"]
            [list_to_map [("week", num 1); ("sales", num 1)];
             list_to_map [("week", Str "W2"); ("sales", num 5)]]) ∧
  week_avg mixed_weeks = Err (TypeError "week").
Proof. split; vm_compute; reflexivity. Qed.

(** ** Transactions by year *)







Example tx_year_yearly_transactions :
  tx_year yearly_transactions =
    Ok (Frame ["year"; "transactions"]
          [list_to_map [("year", num 1970); ("transactions", NA)];
           list_to_map [("year", num 1971); ("transactions", num 12)]]).
Proof. vm_compute. reflexivity. Qed.

(** ** Empty inputs and short rankings *)

Lemma columns_setitem_new (c : string) (s : list cell) (df : frame) :
  c ∈ columns (setitem c s df).
Proof.
  unfold setitem, has_column. cbn [columns]. case_bool_decide; [done|].
  set_solver.
Qed.

Lemma columns_setitem_old (c c' : string) (s : list cell) (df : frame) :
  c' ∈ columns df → c' ∈ columns (setitem c s df).
Proof.
  intros Hc. unfold setitem, has_column. cbn [columns].
  case_bool_decide; [done|]. set_solver.
Qed.



Section empty.
Context `{Text}.

End empty.




(** The two stores are in Pichincha: the subset of another state is empty
    and so is its ranking, and the ten best stores of Pichincha are its two
    stores. *)
Example sales_store_rank_two_stores :
  (df_state two_stores (Str "Guayas") ≫= sales_store_rank)
    = Ok (Frame ["store_nbr"; "sales"] []) ∧
  (df_state two_stores (Str "Pichincha") ≫= sales_store_rank)
    = Ok (Frame ["store_nbr"; "sales"]
            [list_to_map [("store_nbr", num 2); ("sales", num 4)];
             list_to_map [("store_nbr", num 1); ("sales", num 3)]]).
Proof. split; vm_compute; reflexivity. Qed.

(** ** The monthly join of oil price and sales *)

Lemma numeric_column_where (c : string) (p : row → bool) (df : frame) :
  numeric_column c df = true → numeric_column c (where_ p df) = true.
Proof.
  unfold numeric_column, where_. cbn [rows]. rewrite !forallb_forall.
  intros Hn r [Hr _]%filter_In. by apply Hn.
Qed.



Lemma frame_eq (df : frame) (cs : list string) (rs : list row) :
  columns df = cs → rows df = rs → df = {| columns := cs; rows := rs |}.
Proof. destruct df. cbn. by intros -> ->. Qed.

Section oil.
Context `{Text}.

Lemma oil_month_rows (df : frame) :
  Forall (λ c, c ∈ columns df) ["dcoilwtico"; "year"; "month"; "sales"] →
  numeric_column "dcoilwtico" df = true →
  numeric_column "sales" df = true →
  let known := List.filter (λ r, notna (col "dcoilwtico" r)) (rows df) in
  oil_month df =
    Ok {| columns := ["year"; "month"; "avg_oil"; "total_sales"; "year_month"];
          rows := (λ k, <["year_month" := year_month (oil_row known k)]>
                          (oil_row known k))
                    <$> group_index ["year"; "month"] known |}.
Proof.
  rewrite !Forall_cons. intros (Ho & Hy & Hm & Hs & _) Hno Hns known.
  unfold oil_month, oil_ok. rewrite key_ok by done. cbn [mbind result_bind].
  rewrite !key_ok by done.
  rewrite !measure_ok by (done || by apply numeric_column_where).
  f_equal. apply frame_eq; [done|].
  cbn [where_ rows]. fold known.
  assert (Ht : rows (reset_index_frame ["year"; "month"] ["avg_oil"; "total_sales"]
                 (groupby_named_agg ["year"; "month"]
                    [("avg_oil", ("dcoilwtico", agg_mean));
                     ("total_sales", ("sales", agg_sum))] known))
               = oil_row known <$> group_index ["year"; "month"] known).
  { unfold reset_index_frame, groupby_named_agg. cbn [rows].
    rewrite <- list_fmap_compose. by apply list_fmap_ext. }
  rewrite setitem_fmap, Ht, <- list_fmap_compose. by apply list_fmap_ext.
Qed.


End oil.


Example oil_month_oil_and_sales :
  oil_month (H:=plain_text) oil_and_sales =
    Ok (Frame ["year"; "month"; "avg_oil"; "total_sales"; "year_month"]
          [list_to_map [("year", num 2017); ("month", num 3);
                        ("avg_oil", Num (Q2Qc (103 # 2)));
                        ("total_sales", num 30);
                        ("year_month", Str "2017-03")];
           list_to_map [("year", num 2017); ("month", num 11);
                        ("avg_oil", num 60); ("total_sales", num 7);
                        ("year_month", Str "2017-11")]]).
Proof. vm_compute. reflexivity. Qed.

(** ** [load_data], step by step *)

Lemma trunc_num (z : Z) : trunc (Q2Qc (inject_Z z)) = z.
Proof.
  unfold trunc. cbn [Q2Qc this].
  pose proof (Qred_correct (inject_Z z)) as Heq.
  unfold Qeq in Heq. cbn [inject_Z Qnum Qden] in Heq.
  rewrite Z.mul_1_r in Heq. rewrite Heq. by apply Z.quot_mul.
Qed.

Lemma int64_in_range (z : Z) : - 2 ^ 63 ≤ z < 2 ^ 63 → int64 z = z.
Proof.
  intros Hz. unfold int64.
  destruct (Z.leb_spec (- 2 ^ 63) z), (Z.ltb_spec z (2 ^ 63)); cbn; lia.
Qed.

Lemma int64_bounds (z : Z) : - 2 ^ 63 ≤ int64 z < 2 ^ 63.
Proof.
  unfold int64.
  destruct (Z.leb_spec (- 2 ^ 63) z), (Z.ltb_spec z (2 ^ 63)); cbn; lia.
Qed.

Lemma mapM_ok {A B} (f : A → result B) (g : A → B) (l : list A) :
  (∀ x, x ∈ l → f x = Ok (g x)) → mapM f l = Ok (g <$> l).
Proof.
  induction l as [|x l IH]; intros Hf; [done|]. cbn [mapM].
  rewrite Hf by apply list_elem_of_here. cbn [mbind result_bind].
  rewrite IH; [done|]. intros y Hy. by apply Hf, list_elem_of_further.
Qed.

(** A conversion that fails on the values [bad] and nowhere else. *)
Lemma mapM_check {A B C} (h : A → B) (f : B → result C) (g : A → C)
    (bad : A → bool) (e : error) (l : list A) :
  (∀ x, x ∈ l → f (h x) = if bad x then Err e else Ok (g x)) →
  mapM f (h <$> l) = if existsb bad l then Err e else Ok (g <$> l).
Proof.
  induction l as [|x l IH]; intros Hf; [done|].
  rewrite fmap_cons. cbn [mapM existsb].
  rewrite Hf by apply list_elem_of_here.
  destruct (bad x); cbn [mbind result_bind orb]; [done|].
  rewrite IH by (intros y Hy; by apply Hf, list_elem_of_further).
  by destruct (existsb bad l).
Qed.

Lemma mapM_err {A B} (f : A → result B) (e : error) (l : list A) :
  (∀ x, x ∈ l → f x = Err e ∨ ∃ y, f x = Ok y) →
  (∃ x, x ∈ l ∧ f x = Err e) → mapM f l = Err e.
Proof.
  induction l as [|x l IH]; intros Hf (x' & Hx' & He).
  - by apply elem_of_nil in Hx'.
  - cbn [mapM]. destruct (Hf x) as [Hx|[y Hx]]; [apply list_elem_of_here| |];
      rewrite Hx; cbn [mbind result_bind]; [done|].
    rewrite IH; [done| |].
    + intros z Hz. by apply Hf, list_elem_of_further.
    + apply elem_of_cons in Hx' as [->|Hin]; [congruence | eauto].
Qed.

Section load_steps.
Context `{Text}.

Lemma to_datetime_cell_timestamp (c : cell) :
  to_datetime_cell c = NA ∨ ∃ ns, to_datetime_cell c = Timestamp ns.
Proof.
  destruct c as [|q|s|ns]; cbn; eauto.
  - destruct (number_to_datetime q); eauto.
  - destruct (parse_datetime s); eauto.
Qed.

(** The cast of onpromotion fails on an infinity and on nothing else. *)
Lemma astype_onpromotion (s : list cell) :
  astype_int64 "onpromotion" (fillna 0 (to_numeric s))
  = if existsb (λ c, infinite (to_numeric_cell c)) s
    then Err (IntCastingNaNError "onpromotion")
    else Ok (coerce_onpromotion <$> s).
Proof.
  unfold astype_int64, float64_astype, fillna, to_numeric.
  rewrite <- list_fmap_compose. apply mapM_check.
  intros c _. unfold coerce_onpromotion. cbn [compose].
  by destruct (to_numeric_cell c).
Qed.

(** The series of sales and of transactions can be kept in cells unless
    they hold an infinity. *)
Lemma cells_sales (s : list cell) :
  cells "sales" (fillna 0 (to_numeric s))
  = if existsb (λ c, infinite (to_numeric_cell c)) s
    then Err (InfiniteValue "sales")
    else Ok (coerce_sales <$> s).
Proof.
  unfold cells, fillna, to_numeric.
  rewrite <- list_fmap_compose. apply mapM_check.
  intros c _. unfold coerce_sales. cbn [compose].
  by destruct (to_numeric_cell c).
Qed.

Lemma cells_transactions (s : list cell) :
  cells "transactions" (to_numeric s)
  = if existsb (λ c, infinite (to_numeric_cell c)) s
    then Err (InfiniteValue "transactions")
    else Ok (coerce_transactions <$> s).
Proof.
  unfold cells, to_numeric. apply mapM_check.
  intros c _. unfold coerce_transactions.
  by destruct (to_numeric_cell c).
Qed.

Lemma astype_week (s : list cell) :
  Forall (λ c, c = NA ∨ ∃ ns, c = Timestamp ns) s →
  astype_int64 "week" (dt_isocalendar_week s)
  = if existsb isna s then Err (IntCastingNaNError "week")
    else Ok (dt_field iso_week_of <$> s).
Proof.
  intros Hs. unfold astype_int64, UInt32_astype, dt_isocalendar_week.
  destruct (existsb isna s) eqn:Hex.
  - apply existsb_exists in Hex as (c & Hc & Hna).
    apply mapM_err.
    + intros ? (c' & -> & Hc')%list_elem_of_fmap.
      rewrite Forall_forall in Hs. destruct (Hs c' Hc') as [->|[ns ->]].
      * by left.
      * right. by eexists.
    + exists NA. split; [|done]. apply list_elem_of_fmap.
      exists c. split; [by destruct c | by apply list_elem_of_In].
  - rewrite <- (list_fmap_id (dt_field iso_week_of <$> s)) at 2.
    apply mapM_ok. intros ? (c' & -> & Hc')%list_elem_of_fmap.
    rewrite Forall_forall in Hs. destruct (Hs c' Hc') as [->|[ns ->]].
    + exfalso. assert (existsb isna s = true); [|congruence].
      apply existsb_exists. exists NA. split; [by apply list_elem_of_In | done].
    + done.
Qed.
End load_steps.

Lemma with_column_elem (c : string) (cs : list string) :
  c ∈ cs → with_column c cs = cs.
Proof. intros. unfold with_column. by rewrite bool_decide_eq_true_2. Qed.

Lemma has_column_with_column (c c' : string) (cs : list string) (rs rs' : list row) :
  c ≠ c' →
  has_column c (Frame (with_column c' cs) rs) = has_column c (Frame cs rs').
Proof.
  intros Hne. unfold has_column, with_column. cbn [columns].
  destruct (bool_decide (c' ∈ cs)); [done|]. apply bool_decide_ext. set_solver.
Qed.

Lemma setitem_frame (c : string) (φ : row → cell) (cs : list string) (rs : list row) :
  setitem c (φ <$> rs) (Frame cs rs)
  = Frame (with_column c cs) ((λ r, <[c := φ r]> r) <$> rs).
Proof.
  apply frame_eq; [reflexivity|]. apply (setitem_fmap c φ (Frame cs rs)).
Qed.

Lemma cat_loop (cs : list string) (rs rs0 : list row) (l : list string) :
  foldl (λ df c, if has_column c df
                 then setitem c (astype_category (col c <$> rows df)) df
                 else df) (Frame cs rs) l
  = Frame cs ((λ r, foldl (λ r c, if has_column c (Frame cs rs0)
                                  then <[c := col c r]> r else r) r l) <$> rs).
Proof.
  revert rs. induction l as [|c l IH]; intros rs.
  - cbn [foldl]. by rewrite list_fmap_id.
  - cbn [foldl]. unfold astype_category. cbn [rows].
    rewrite setitem_frame.
    change (has_column c (Frame cs rs)) with (bool_decide (c ∈ cs)).
    change (has_column c (Frame cs rs0)) with (bool_decide (c ∈ cs)).
    case_bool_decide as Hc.
    + rewrite with_column_elem by done. rewrite IH.
      by rewrite <- list_fmap_compose.
    + rewrite IH. done.
Qed.

Lemma getitem_frame (c : string) (cs : list string) (rs rs0 : list row) :
  getitem c (Frame cs rs)
  = raise_unless (has_column c (Frame cs rs0)) (KeyError c) (Ok (col c <$> rs)).
Proof. done. Qed.

Lemma setitem_series (c c' : string) (h : cell → cell) (cs : list string)
    (R : list row) (g : row → row) (v : row → cell) :
  (∀ r, col c' (g r) = v r) →
  setitem c (h <$> (col c' <$> (g <$> R))) (Frame cs (g <$> R))
  = Frame (with_column c cs) ((λ r, <[c := h (v r)]> (g r)) <$> R).
Proof.
  intros Hv. rewrite <- (list_fmap_compose (col c') h), setitem_frame.
  rewrite <- list_fmap_compose. f_equal. apply list_fmap_ext.
  intros i r _. cbn [compose]. by rewrite Hv.
Qed.

Lemma setitem_series_0 (c c' : string) (h : cell → cell) (cs : list string)
    (R : list row) :
  setitem c (h <$> (col c' <$> R)) (Frame cs R)
  = Frame (with_column c cs) ((λ r, <[c := h (col c' r)]> r) <$> R).
Proof. by rewrite <- (list_fmap_compose (col c') h), setitem_frame. Qed.

Lemma existsb_fmap {A B} (p : B → bool) (q : A → bool) (f : A → B) (l : list A) :
  (∀ x, p (f x) = q x) → existsb p (f <$> l) = existsb q l.
Proof.
  intros Hpq. induction l as [|x l IH]; [done|]. csimpl. by rewrite IH, Hpq.
Qed.

Section load_eq.
Context `{Text}.

Lemma col_as_category (raw : frame) (c : string) (r : row) :
  col c (as_category raw r) = col c r.
Proof.
  unfold as_category. generalize cat_cols. intros l. revert r.
  induction l as [|c' l IH]; intros r; [done|]. cbn [foldl]. rewrite IH.
  destruct (has_column c' raw); [|done].
  rewrite col_insert. by destruct (decide (c' = c)) as [->|].
Qed.

Lemma isna_any_ext (c : string) (g : row → row) (rs : list row) :
  (∀ r, col c (g r) = col c r) →
  isna_any (col c <$> (g <$> rs)) = isna_any (col c <$> rs).
Proof.
  intros Hg. f_equal. rewrite <- list_fmap_compose. apply list_fmap_ext.
  intros i r _. apply Hg.
Qed.

Lemma some_infinite_series (c : string) (cs : list string) (R : list row)
    (g : row → row) :
  (∀ r, col c (g r) = col c r) →
  existsb (λ x, infinite (to_numeric_cell x)) (col c <$> (g <$> R))
  = some_infinite c (Frame cs R).
Proof.
  intros Hg. unfold some_infinite. cbn [rows]. rewrite <- list_fmap_compose.
  apply existsb_fmap. intros r. cbn [compose]. by rewrite Hg.
Qed.

Lemma some_infinite_series_0 (c : string) (cs : list string) (R : list row) :
  existsb (λ x, infinite (to_numeric_cell x)) (col c <$> R)
  = some_infinite c (Frame cs R).
Proof. unfold some_infinite. cbn [rows]. by apply existsb_fmap. Qed.

Lemma some_infinite_map (c : string) (cs : list string) (R : list row)
    (g : row → row) :
  (∀ r, col c (g r) = col c r) →
  some_infinite c (Frame cs (g <$> R)) = some_infinite c (Frame cs R).
Proof.
  intros Hg. unfold some_infinite. cbn [rows].
  apply existsb_fmap. intros r. by rewrite Hg.
Qed.

(** The four blocks on a table of columns [cs] and rows [R]. *)

Lemma parse_dates_frame (cs : list string) (R : list row) :
  parse_dates (Frame cs R)
  = key "date" (Frame cs R) (Ok (Frame cs (parse_date_row <$> R))).
Proof.
  unfold parse_dates, key. rewrite (getitem_frame "date" cs R R).
  destruct (has_column "date" (Frame cs R)) eqn:Hdate; [|reflexivity].
  apply bool_decide_eq_true in Hdate. cbn [columns] in Hdate.
  cbn [raise_unless mbind result_bind]. unfold to_datetime.
  by rewrite setitem_series_0, with_column_elem.
Qed.

Lemma categories_frame (cs : list string) (R R0 : list row) :
  categories (Frame cs R) = Frame cs (as_category (Frame cs R0) <$> R).
Proof. unfold categories, as_category. apply cat_loop. Qed.

Lemma coerce_numeric_frame (cs : list string) (R : list row) :
  coerce_numeric (Frame cs R)
  = key "sales" (Frame cs R) (
      raise_unless (negb (some_infinite "sales" (Frame cs R)))
        (InfiniteValue "sales") (
      key "onpromotion" (Frame cs R) (
      raise_unless (negb (some_infinite "onpromotion" (Frame cs R)))
        (IntCastingNaNError "onpromotion") (
      key "transactions" (Frame cs R) (
      raise_unless (negb (some_infinite "transactions" (Frame cs R)))
        (InfiniteValue "transactions") (
        Ok (Frame cs (coerce_row <$> R)))))))).
Proof.
  unfold coerce_numeric, key. rewrite (getitem_frame "sales" cs R R).
  destruct (has_column "sales" (Frame cs R)) eqn:Hsales; [|reflexivity].
  apply bool_decide_eq_true in Hsales. cbn [columns] in Hsales.
  cbn [raise_unless mbind result_bind].
  rewrite cells_sales, (some_infinite_series_0 "sales" cs).
  destruct (some_infinite "sales" (Frame cs R)); [reflexivity|].
  cbn [negb raise_unless mbind result_bind]. cbv zeta.
  rewrite setitem_series_0, with_column_elem by done.
  rewrite (getitem_frame "onpromotion" cs _ R).
  destruct (has_column "onpromotion" (Frame cs R)) eqn:Hpromo; [|reflexivity].
  apply bool_decide_eq_true in Hpromo. cbn [columns] in Hpromo.
  cbn [raise_unless mbind result_bind].
  rewrite astype_onpromotion, (some_infinite_series "onpromotion" cs)
    by (intros r; by rewrite col_insert_ne).
  destruct (some_infinite "onpromotion" (Frame cs R)); [reflexivity|].
  cbn [negb raise_unless mbind result_bind].
  rewrite (setitem_series "onpromotion" "onpromotion" _ cs R _
             (col "onpromotion")) by (intros r; by rewrite col_insert_ne).
  rewrite with_column_elem by done.
  rewrite (getitem_frame "transactions" cs _ R).
  destruct (has_column "transactions" (Frame cs R)) eqn:Htx; [|reflexivity].
  apply bool_decide_eq_true in Htx. cbn [columns] in Htx.
  cbn [raise_unless mbind result_bind].
  rewrite cells_transactions, (some_infinite_series "transactions" cs)
    by (intros r; by rewrite !col_insert_ne).
  destruct (some_infinite "transactions" (Frame cs R)); [reflexivity|].
  cbn [negb raise_unless mbind result_bind].
  rewrite (setitem_series "transactions" "transactions" _ cs R _
             (col "transactions")) by (intros r; by rewrite !col_insert_ne).
  by rewrite with_column_elem.
Qed.

Lemma needs_backfill_map (c : string) (cs0 cs : list string) (R : list row)
    (g : row → row) :
  (∀ r, col c (g r) = col c r) →
  has_column c (Frame cs R) = has_column c (Frame cs0 R) →
  needs_backfill c (Frame cs (g <$> R)) = needs_backfill c (Frame cs0 R).
Proof.
  intros Hg Hc. unfold needs_backfill. cbn [rows].
  rewrite isna_any_ext by done.
  change (has_column c (Frame cs (g <$> R))) with (has_column c (Frame cs R)).
  by rewrite Hc.
Qed.

Lemma backfill_step (c : string) (f : Z → Z) (cs0 cs : list string)
    (R : list row) (g : row → row) :
  (∀ r, col c (g r) = col c r) →
  has_column c (Frame cs R) = has_column c (Frame cs0 R) →
  (if needs_backfill c (Frame cs (g <$> R))
   then setitem c (dt_field f <$> (col "date" <$> (g <$> R)))
          (Frame cs (g <$> R))
   else Frame cs (g <$> R))
  = Frame (if needs_backfill c (Frame cs0 R) then with_column c cs else cs)
      ((λ r, backfill c f (Frame cs0 R) (g r)) <$> R).
Proof.
  intros Hg Hc. rewrite (needs_backfill_map c cs0 cs R g) by done.
  unfold backfill.
  destruct (needs_backfill c (Frame cs0 R)); [|done].
  by rewrite (setitem_series c "date" _ cs R g (λ r, col "date" (g r))).
Qed.

Lemma backfill_step_0 (c : string) (f : Z → Z) (cs : list string) (R : list row) :
  (if needs_backfill c (Frame cs R)
   then setitem c (dt_field f <$> (col "date" <$> R)) (Frame cs R)
   else Frame cs R)
  = Frame (if needs_backfill c (Frame cs R) then with_column c cs else cs)
      (backfill c f (Frame cs R) <$> R).
Proof.
  unfold backfill. destruct (needs_backfill c (Frame cs R)).
  - by rewrite setitem_series_0.
  - by rewrite list_fmap_id.
Qed.

Lemma backfill_col_ne (c c' : string) (f : Z → Z) (raw : frame) (r : row) :
  c ≠ c' → col c (backfill c' f raw r) = col c r.
Proof.
  intros Hne. unfold backfill. destruct (needs_backfill c' raw); [|done].
  by rewrite col_insert_ne.
Qed.

Lemma backfill_calendar_frame (cs : list string) (R : list row) :
  Forall (λ r, col "date" r = NA ∨ ∃ ns, col "date" r = Timestamp ns) R →
  backfill_calendar (Frame cs R)
  = if needs_backfill "week" (Frame cs R)
       && existsb (λ r, isna (col "date" r)) R
    then Err (IntCastingNaNError "week")
    else Ok (Frame (loaded_columns (Frame cs R))
               (calendar_row (Frame cs R) <$> R)).
Proof.
  intros Hdates. unfold backfill_calendar. cbv zeta.
  unfold dt_year, dt_month. cbn [rows].
  change (negb (has_column "year" (Frame cs R)) || isna_any (col "year" <$> R))
    with (needs_backfill "year" (Frame cs R)).
  rewrite (backfill_step_0 "year" year_of cs R).
  set (cs6 := if needs_backfill "year" (Frame cs R)
              then with_column "year" cs else cs).
  set (g6 := backfill "year" year_of (Frame cs R)).
  assert (Hcs6 : ∀ c, c ≠ "year" →
                   has_column c (Frame cs6 R) = has_column c (Frame cs R)).
  { intros c Hc. unfold cs6. destruct (needs_backfill "year" _); [|done].
    by apply has_column_with_column. }
  cbn [rows].
  change (negb (has_column "month" (Frame cs6 (g6 <$> R)))
          || isna_any (col "month" <$> (g6 <$> R)))
    with (needs_backfill "month" (Frame cs6 (g6 <$> R))).
  rewrite (backfill_step "month" month_of cs cs6 R g6);
    [|intros r; by apply backfill_col_ne|by apply Hcs6].
  set (cs7 := if needs_backfill "month" (Frame cs R)
              then with_column "month" cs6 else cs6).
  set (g7 := λ r, backfill "month" month_of (Frame cs R) (g6 r)).
  assert (Hg7 : ∀ r, col "week" (g7 r) = col "week" r).
  { intros r. unfold g7, g6. by rewrite !backfill_col_ne. }
  assert (Hg7d : ∀ r, col "date" (g7 r) = col "date" r).
  { intros r. unfold g7, g6. by rewrite !backfill_col_ne. }
  assert (Hcs7 : has_column "week" (Frame cs7 R) = has_column "week" (Frame cs R)).
  { unfold cs7. destruct (needs_backfill "month" _); [|by apply Hcs6].
    rewrite (has_column_with_column "week" "month" cs6 R R) by done.
    by apply Hcs6. }
  cbn [rows].
  change (negb (has_column "week" (Frame cs7 (g7 <$> R)))
          || isna_any (col "week" <$> (g7 <$> R)))
    with (needs_backfill "week" (Frame cs7 (g7 <$> R))).
  rewrite (needs_backfill_map "week" cs cs7 R g7) by done.
  assert (Hcols : loaded_columns (Frame cs R)
            = if needs_backfill "week" (Frame cs R)
              then with_column "week" cs7 else cs7) by done.
  rewrite Hcols. clear Hcols.
  assert (Hrow : ∀ r, calendar_row (Frame cs R) r
            = backfill "week" iso_week_of (Frame cs R) (g7 r)) by done.
  destruct (needs_backfill "week" (Frame cs R)) eqn:Hw; cbn [andb].
  - rewrite astype_week.
    + replace (existsb isna (col "date" <$> (g7 <$> R)))
        with (existsb (λ r, isna (col "date" r)) R).
      2: { symmetry. rewrite <- list_fmap_compose. apply existsb_fmap.
           intros r. cbn [compose]. by rewrite Hg7d. }
      destruct (existsb (λ r, isna (col "date" r)) R); [reflexivity|].
      cbn [mbind result_bind].
      rewrite (setitem_series "week" "date" _ cs7 R g7 (λ r, col "date" (g7 r)))
        by done.
      do 2 f_equal. apply list_fmap_ext.
      intros i r _. rewrite Hrow. unfold backfill at 1. by rewrite Hw.
    + rewrite <- list_fmap_compose. apply Forall_fmap.
      eapply Forall_impl; [exact Hdates|]. intros r Hr. cbn [compose].
      by rewrite Hg7d.
  - do 2 f_equal. apply list_fmap_ext.
    intros i r _. rewrite Hrow. unfold backfill at 1. by rewrite Hw.
Qed.

Lemma load_data_blocks_eq (fs : file_system) : load_data fs = load_data_blocks fs.
Proof.
  unfold load_data, load_data_blocks, parse_dates, coerce_numeric, categories,
    backfill_calendar, concatenated.
  generalize cat_cols. intros cats.
  destruct (mapM (read_csv fs) paths) as [dfs|e]; [|reflexivity].
  cbn [mbind result_bind]. cbv zeta.
  destruct (getitem "date" _) as [date|e]; [|reflexivity].
  cbn [mbind result_bind].
  destruct (getitem "sales" _) as [sales|e]; [|reflexivity].
  cbn [mbind result_bind].
  destruct (cells "sales" _) as [sales'|e]; [|reflexivity].
  cbn [mbind result_bind].
  destruct (getitem "onpromotion" _) as [promo|e]; [|reflexivity].
  cbn [mbind result_bind].
  destruct (astype_int64 "onpromotion" _) as [promo'|e]; [|reflexivity].
  cbn [mbind result_bind].
  destruct (getitem "transactions" _) as [tx|e]; [|reflexivity].
  cbn [mbind result_bind].
  destruct (cells "transactions" _) as [tx'|e]; reflexivity.
Qed.
End load_eq.

Section load_outcome.
Context `{Text}.

Lemma normalized_row_col (raw : frame) (c : string) (r : row) :
  c ≠ "date" → c ≠ "sales" → c ≠ "onpromotion" → c ≠ "transactions" →
  col c (normalized_row raw r) = col c r.
Proof.
  intros. unfold normalized_row, coerce_row, parse_date_row.
  rewrite !col_insert_ne, col_as_category by done. by rewrite col_insert_ne.
Qed.

Lemma normalized_row_date (raw : frame) (r : row) :
  col "date" (normalized_row raw r) = to_datetime_cell (col "date" r).
Proof.
  unfold normalized_row, coerce_row, parse_date_row.
  rewrite !col_insert_ne, col_as_category by done. by rewrite col_insert_eq.
Qed.

Lemma has_column_rows (c : string) (cs : list string) (R1 R2 : list row) :
  has_column c (Frame cs R1) = has_column c (Frame cs R2).
Proof. reflexivity. Qed.

Lemma normalized_rows (raw : frame) (R : list row) :
  coerce_row <$> (as_category raw <$> (parse_date_row <$> R))
  = normalized_row raw <$> R.
Proof.
  induction R as [|r R IH]; [reflexivity|]. rewrite !fmap_cons, IH.
  reflexivity.
Qed.

Lemma needs_backfill_normalized (c : string) (cs : list string) (R : list row) :
  c ≠ "date" → c ≠ "sales" → c ≠ "onpromotion" → c ≠ "transactions" →
  needs_backfill c (Frame cs (normalized_row (Frame cs R) <$> R))
  = needs_backfill c (Frame cs R).
Proof.
  intros. apply needs_backfill_map; [|reflexivity].
  intros r. by apply normalized_row_col.
Qed.

Lemma calendar_normalized (cs : list string) (R : list row) :
  backfill_calendar (Frame cs (normalized_row (Frame cs R) <$> R))
  = if needs_backfill "week" (Frame cs R) && some_date_unparsed (Frame cs R)
    then Err (IntCastingNaNError "week")
    else Ok {| columns := loaded_columns (Frame cs R);
               rows := loaded_row (Frame cs R) <$> R |}.
Proof.
  rewrite backfill_calendar_frame.
  - rewrite (needs_backfill_normalized "week") by done.
    replace (existsb (λ r, isna (col "date" r))
               (normalized_row (Frame cs R) <$> R))
      with (some_date_unparsed (Frame cs R)).
    2: { symmetry. apply existsb_fmap. intros r.
         by rewrite normalized_row_date. }
    destruct (needs_backfill "week" (Frame cs R) && some_date_unparsed (Frame cs R));
      [reflexivity|].
    f_equal. f_equal.
    + unfold loaded_columns. cbn [columns].
      by rewrite (needs_backfill_normalized "year"),
        (needs_backfill_normalized "month"), (needs_backfill_normalized "week").
    + rewrite <- list_fmap_compose. apply list_fmap_ext. intros i r _.
      unfold compose, loaded_row, calendar_row, backfill.
      by rewrite (needs_backfill_normalized "year"),
        (needs_backfill_normalized "month"), (needs_backfill_normalized "week").
  - apply Forall_fmap, Forall_forall. intros r _. unfold compose.
    rewrite normalized_row_date. apply to_datetime_cell_timestamp.
Qed.

Lemma bind_ok {A B} (f : A → result B) (a : A) : Ok a ≫= f = f a.
Proof. reflexivity. Qed.

Lemma bind_err {A B} (f : A → result B) (e : error) : Err e ≫= f = Err e.
Proof. reflexivity. Qed.

Lemma some_infinite_parsed (c : string) (cs : list string) (R : list row) :
  c ≠ "date" →
  some_infinite c
    (Frame cs (as_category (Frame cs R) <$> (parse_date_row <$> R)))
  = some_infinite c (Frame cs R).
Proof.
  intros Hc.
  rewrite some_infinite_map by (intros r; apply col_as_category).
  apply some_infinite_map. intros r. unfold parse_date_row.
  by rewrite col_insert_ne.
Qed.

Lemma blocks_frame_numeric (cs : list string) (R : list row) :
  (coerce_numeric (categories (Frame cs (parse_date_row <$> R)))
     ≫= backfill_calendar)
  = key "sales" (Frame cs R) (
      raise_unless (negb (some_infinite "sales" (Frame cs R)))
        (InfiniteValue "sales") (
      key "onpromotion" (Frame cs R) (
      raise_unless (negb (some_infinite "onpromotion" (Frame cs R)))
        (IntCastingNaNError "onpromotion") (
      key "transactions" (Frame cs R) (
      raise_unless (negb (some_infinite "transactions" (Frame cs R)))
        (InfiniteValue "transactions") (
        if needs_backfill "week" (Frame cs R) && some_date_unparsed (Frame cs R)
        then Err (IntCastingNaNError "week")
        else Ok {| columns := loaded_columns (Frame cs R);
                   rows := loaded_row (Frame cs R) <$> R |})))))).
Proof.
  rewrite (categories_frame cs (parse_date_row <$> R) R), coerce_numeric_frame.
  rewrite !some_infinite_parsed by done.
  unfold key.
  rewrite (has_column_rows "sales" cs _ R).
  destruct (has_column "sales" (Frame cs R)); [|reflexivity].
  destruct (some_infinite "sales" (Frame cs R)); [reflexivity|].
  rewrite (has_column_rows "onpromotion" cs _ R).
  destruct (has_column "onpromotion" (Frame cs R)); [|reflexivity].
  destruct (some_infinite "onpromotion" (Frame cs R)); [reflexivity|].
  rewrite (has_column_rows "transactions" cs _ R).
  destruct (has_column "transactions" (Frame cs R)); [|reflexivity].
  destruct (some_infinite "transactions" (Frame cs R)); [reflexivity|].
  cbn [negb raise_unless mbind result_bind].
  rewrite normalized_rows. apply calendar_normalized.
Qed.

Lemma blocks_frame (cs : list string) (R : list row) :
  (parse_dates (Frame cs R) ≫= λ df,
     coerce_numeric (categories df) ≫= backfill_calendar)
  = key "date" (Frame cs R) (key "sales" (Frame cs R) (
      raise_unless (negb (some_infinite "sales" (Frame cs R)))
        (InfiniteValue "sales") (
      key "onpromotion" (Frame cs R) (
      raise_unless (negb (some_infinite "onpromotion" (Frame cs R)))
        (IntCastingNaNError "onpromotion") (
      key "transactions" (Frame cs R) (
      raise_unless (negb (some_infinite "transactions" (Frame cs R)))
        (InfiniteValue "transactions") (
        if needs_backfill "week" (Frame cs R) && some_date_unparsed (Frame cs R)
        then Err (IntCastingNaNError "week")
        else Ok {| columns := loaded_columns (Frame cs R);
                   rows := loaded_row (Frame cs R) <$> R |}))))))).
Proof.
  rewrite parse_dates_frame. unfold key at 1 2.
  destruct (has_column "date" (Frame cs R)); unfold raise_unless at 1 2.
  - rewrite bind_ok. apply blocks_frame_numeric.
  - by rewrite bind_err.
Qed.

Lemma read_partitions (fs : file_system) :
  mapM (read_csv fs) paths =
  match fs "data/parte_1.csv.gz" with
  | None => Err (FileNotFoundError "data/parte_1.csv.gz")
  | Some f1 =>
      match fs "data/parte_2.csv.gz" with
      | None => Err (FileNotFoundError "data/parte_2.csv.gz")
      | Some f2 => Ok [f1; f2]
      end
  end.
Proof.
  unfold paths, read_csv. cbn [mapM].
  destruct (fs "data/parte_1.csv.gz"); [|reflexivity].
  destruct (fs "data/parte_2.csv.gz"); reflexivity.
Qed.

(** [load_data] returns what [load_outcome] describes. *)
Lemma load_data_outcome (fs : file_system) : load_data fs = load_outcome fs.
Proof.
  rewrite load_data_blocks_eq. unfold load_data_blocks, load_outcome.
  rewrite read_partitions.
  destruct (fs "data/parte_1.csv.gz") as [f1|]; [|by rewrite bind_err].
  destruct (fs "data/parte_2.csv.gz") as [f2|]; [|by rewrite bind_err].
  rewrite bind_ok. cbv zeta.
  generalize (concatenated [f1; f2]). intros [cs R].
  apply blocks_frame.
Qed.
End load_outcome.

(** ** The loaded table *)

Section loaded_table.
Context `{Text}.

Ltac load_cases raw :=
  unfold key, has_column, raise_unless;
  destruct (bool_decide ("date" ∈ columns raw)) eqn:Hdate;
  [ destruct (bool_decide ("sales" ∈ columns raw)) eqn:Hsales;
    [ destruct (some_infinite "sales" raw) eqn:Hinf_sales; cbn [negb];
      [ | destruct (bool_decide ("onpromotion" ∈ columns raw)) eqn:Hpromo;
          [ destruct (some_infinite "onpromotion" raw) eqn:Hinf_promo;
            cbn [negb];
            [ | destruct (bool_decide ("transactions" ∈ columns raw)) eqn:Htx;
                [ destruct (some_infinite "transactions" raw) eqn:Hinf_tx;
                  cbn [negb];
                  [ | destruct (needs_backfill "week" raw
                                && some_date_unparsed raw) eqn:Hweek ]
                | ] ]
          | ] ]
    | ]
  | ]; try done.

Lemma load_data_Ok (fs : file_system) (df : frame) :
  load_data fs = Ok df ↔
  ∃ f1 f2,
    fs "data/parte_1.csv.gz" = Some f1 ∧ fs "data/parte_2.csv.gz" = Some f2 ∧
    Forall (λ c, c ∈ columns (concatenated [f1; f2]))
      ["date"; "sales"; "onpromotion"; "transactions"] ∧
    Forall (λ c, some_infinite c (concatenated [f1; f2]) = false)
      ["sales"; "onpromotion"; "transactions"] ∧
    needs_backfill "week" (concatenated [f1; f2])
      && some_date_unparsed (concatenated [f1; f2]) = false ∧
    df = {| columns := loaded_columns (concatenated [f1; f2]);
            rows := loaded_row (concatenated [f1; f2])
                      <$> rows (concatenated [f1; f2]) |}.
Proof.
  rewrite load_data_outcome. unfold load_outcome. split.
  - destruct (fs "data/parte_1.csv.gz") as [f1|]; [|done].
    destruct (fs "data/parte_2.csv.gz") as [f2|]; [|done].
    intros Hload. exists f1, f2. split; [done|]. split; [done|].
    revert Hload. cbv zeta. generalize (concatenated [f1; f2]). intros raw.
    load_cases raw. intros [= <-].
    apply bool_decide_eq_true in Hdate, Hsales, Hpromo, Htx.
    split; [|split; [|done]].
    + repeat (apply Forall_cons_2; [assumption|]). apply Forall_nil_2.
    + repeat (apply Forall_cons_2; [assumption|]). apply Forall_nil_2.
  - intros (f1 & f2 & -> & -> & Hcs & Hfin & Hw & ->). cbv zeta.
    rewrite !Forall_cons in Hcs. destruct Hcs as (? & ? & ? & ? & _).
    rewrite !Forall_cons in Hfin. destruct Hfin as (Hs & Ho & Ht & _).
    rewrite !key_ok by done. by rewrite Hs, Ho, Ht, Hw.
Qed.

(** The causes of a failure of [load_data] when both files are read: a
    column that is missing, an infinite value, or a recomputed week of a
    date that does not parse. *)
Lemma load_data_Err (fs : file_system) (f1 f2 : frame) (e : error) :
  fs "data/parte_1.csv.gz" = Some f1 → fs "data/parte_2.csv.gz" = Some f2 →
  load_data fs = Err e →
  let raw := concatenated [f1; f2] in
  (∃ c, c ∈ ["date"; "sales"; "onpromotion"; "transactions"]
        ∧ (c ∉ columns raw) ∧ e = KeyError c) ∨
  (some_infinite "onpromotion" raw = true
   ∧ e = IntCastingNaNError "onpromotion") ∨
  (∃ c, c ∈ ["sales"; "transactions"] ∧ some_infinite c raw = true
        ∧ e = InfiniteValue c) ∨
  (needs_backfill "week" raw = true ∧ some_date_unparsed raw = true
   ∧ e = IntCastingNaNError "week").
Proof.
  intros Hf1 Hf2. rewrite load_data_outcome. unfold load_outcome.
  rewrite Hf1, Hf2. cbv zeta. generalize (concatenated [f1; f2]). intros raw.
  load_cases raw; intros [= <-];
    rewrite ?bool_decide_eq_false in *.
  - right; right; left. exists "sales". set_solver.
  - by right; left.
  - right; right; left. exists "transactions". set_solver.
  - apply andb_true_iff in Hweek as [? ?]. by do 3 right.
  - left. exists "transactions". set_solver.
  - left. exists "onpromotion". set_solver.
  - left. exists "sales". set_solver.
  - left. exists "date". set_solver.
Qed.

Lemma calendar_row_col (raw : frame) (c : string) (r : row) :
  c ≠ "year" → c ≠ "month" → c ≠ "week" →
  col c (calendar_row raw r) = col c r.
Proof. intros. unfold calendar_row. by rewrite !backfill_col_ne. Qed.

Lemma backfill_col_eq (c : string) (f : Z → Z) (raw : frame) (r : row) :
  col c (backfill c f raw r)
  = if needs_backfill c raw then dt_field f (col "date" r) else col c r.
Proof.
  unfold backfill. destruct (needs_backfill c raw); [|done].
  by rewrite col_insert_eq.
Qed.

Lemma loaded_row_date (raw : frame) (r : row) :
  col "date" (loaded_row raw r) = to_datetime_cell (col "date" r).
Proof.
  unfold loaded_row. rewrite calendar_row_col by done.
  apply normalized_row_date.
Qed.

Lemma loaded_row_sales (raw : frame) (r : row) :
  col "sales" (loaded_row raw r) = coerce_sales (col "sales" r).
Proof.
  unfold loaded_row. rewrite calendar_row_col by done.
  unfold normalized_row, coerce_row, parse_date_row.
  rewrite !col_insert_ne, col_insert_eq, col_as_category by done.
  by rewrite col_insert_ne.
Qed.

Lemma loaded_row_onpromotion (raw : frame) (r : row) :
  col "onpromotion" (loaded_row raw r)
  = coerce_onpromotion (col "onpromotion" r).
Proof.
  unfold loaded_row. rewrite calendar_row_col by done.
  unfold normalized_row, coerce_row, parse_date_row.
  rewrite col_insert_ne, col_insert_eq, col_as_category by done.
  by rewrite col_insert_ne.
Qed.

Lemma loaded_row_year (raw : frame) (r : row) :
  col "year" (loaded_row raw r)
  = if needs_backfill "year" raw
    then dt_field year_of (to_datetime_cell (col "date" r))
    else col "year" r.
Proof.
  unfold loaded_row, calendar_row.
  rewrite !backfill_col_ne, backfill_col_eq by done.
  by rewrite normalized_row_date, normalized_row_col.
Qed.

Lemma loaded_row_month (raw : frame) (r : row) :
  col "month" (loaded_row raw r)
  = if needs_backfill "month" raw
    then dt_field month_of (to_datetime_cell (col "date" r))
    else col "month" r.
Proof.
  unfold loaded_row, calendar_row.
  rewrite backfill_col_ne, backfill_col_eq by done.
  rewrite !backfill_col_ne by done.
  by rewrite normalized_row_date, normalized_row_col.
Qed.

Lemma loaded_row_week (raw : frame) (r : row) :
  col "week" (loaded_row raw r)
  = if needs_backfill "week" raw
    then dt_field iso_week_of (to_datetime_cell (col "date" r))
    else col "week" r.
Proof.
  unfold loaded_row, calendar_row.
  rewrite backfill_col_eq, !backfill_col_ne by done.
  by rewrite normalized_row_date, normalized_row_col.
Qed.
End loaded_table.

(** ** Numbers that are not negative *)

Lemma nonneg_num (z : Z) : 0 ≤ z → nonneg (num z).
Proof.
  intros Hz. exists (Q2Qc (inject_Z z)). split; [done|].
  unfold Qcle. cbn [this Q2Qc]. rewrite !Qred_correct.
  unfold Qle. cbn. lia.
Qed.

Lemma trunc_nonneg (q : Qc) : (0 <= q)%Qc → 0 ≤ trunc q.
Proof.
  unfold Qcle, Qle, trunc. destruct q as [[n d] Hc]. cbn. intros Hq.
  change (Qred 0) with 0%Q in Hq. cbn in Hq. apply Z.quot_pos; lia.
Qed.

Section coercion.
Context `{Text}.

Lemma some_infinite_false (c : string) (raw : frame) (r : row) :
  some_infinite c raw = false → r ∈ rows raw →
  infinite (to_numeric_cell (col c r)) = false.
Proof.
  intros Hfin Hr. destruct (infinite _) eqn:Hinf; [|done].
  assert (some_infinite c raw = true); [|congruence].
  apply existsb_exists. exists r. split; [by apply list_elem_of_In|done].
Qed.

(** C2 (as amended). After loading, every row holds a number in sales and
    an integer in onpromotion, never a null: a sales value that reads as a
    number is kept, an onpromotion value that reads as a number is
    truncated toward zero and cast to [int64], and a value that is missing
    or does not read as a number becomes 0. So sales is not negative on a
    row whose value read is not negative, and neither is onpromotion when
    the value read is also below 2^63. When the load fails, a column is
    missing, a week is recomputed from a date that does not parse, or a
    value read is infinite: a value that is missing or does not read as a
    number makes nothing fail. An infinite onpromotion makes the cast to
    [int64] fail. *)
Theorem load_data_sales_and_onpromotion (fs : file_system) (f1 f2 : frame) :
  fs "data/parte_1.csv.gz" = Some f1 → fs "data/parte_2.csv.gz" = Some f2 →
  let raw := concatenated [f1; f2] in
  (∀ df, load_data fs = Ok df →
     Forall2 (λ r x,
        let sales := to_numeric_cell (col "sales" r) in
        let onpromotion := to_numeric_cell (col "onpromotion" r) in
        (∃ q, col "sales" x = Num q) ∧
        (∃ z, col "onpromotion" x = num z) ∧
        (∀ q, sales = Finite q → col "sales" x = Num q) ∧
        (sales = NaN → col "sales" x = num 0) ∧
        (∀ q, onpromotion = Finite q →
           col "onpromotion" x = num (int64 (trunc q))) ∧
        (onpromotion = NaN → col "onpromotion" x = num 0) ∧
        ((∀ q, sales = Finite q → (0 <= q)%Qc) → nonneg (col "sales" x)) ∧
        ((∀ q, onpromotion = Finite q → (0 <= q)%Qc ∧ trunc q < 2 ^ 63) →
           nonneg (col "onpromotion" x)))
       (rows raw) (rows df)) ∧
  (∀ e, load_data fs = Err e →
     (∃ c, e = KeyError c ∧ c ∉ columns raw) ∨
     (e = IntCastingNaNError "week" ∧ some_date_unparsed raw = true) ∨
     (∃ c r b, c ∈ ["sales"; "onpromotion"; "transactions"] ∧ r ∈ rows raw
               ∧ to_numeric_cell (col c r) = Infinity b)) ∧
  (Forall (λ c, c ∈ columns raw) ["date"; "sales"; "onpromotion"] →
   some_infinite "sales" raw = false →
   (∃ r b, r ∈ rows raw
           ∧ to_numeric_cell (col "onpromotion" r) = Infinity b) →
   load_data fs = Err (IntCastingNaNError "onpromotion")).
Proof.
  intros Hf1 Hf2. cbv zeta. split; [|split].
  - intros df (g1 & g2 & Hg1 & Hg2 & _ & Hfin & _ & ->)%load_data_Ok.
    rewrite Hf1 in Hg1. rewrite Hf2 in Hg2.
    injection Hg1 as <-. injection Hg2 as <-.
    rewrite !Forall_cons in Hfin. destruct Hfin as (Hfs & Hfo & _).
    cbn [rows]. apply Forall2_fmap_r, Forall_Forall2_diag, Forall_forall.
    intros r Hr. unfold compose. cbv beta zeta.
    rewrite loaded_row_sales, loaded_row_onpromotion.
    unfold coerce_sales, coerce_onpromotion.
    pose proof (some_infinite_false _ _ r Hfs Hr) as Hs.
    pose proof (some_infinite_false _ _ r Hfo Hr) as Ho.
    destruct (to_numeric_cell (col "sales" r)) as [q| |]; [| |done];
      destruct (to_numeric_cell (col "onpromotion" r)) as [q'| |];
      try done;
      (split; [by eexists|]); (split; [by eexists|]);
      (split; [by intros ? [= <-]|]); (split; [done|]);
      (split; [by intros ? [= <-]|]); (split; [done|]); split; intros Hpos;
      try (by apply nonneg_num);
      try (by eexists; split; [done|]; apply Hpos).
    + destruct (Hpos q' eq_refl) as [Hq Hlt].
      apply nonneg_num. apply trunc_nonneg in Hq.
      rewrite int64_in_range; lia.
    + destruct (Hpos q' eq_refl) as [Hq Hlt].
      apply nonneg_num. apply trunc_nonneg in Hq.
      rewrite int64_in_range; lia.
  - intros e Herr.
    assert (Hinf : ∀ c, c ∈ ["sales"; "onpromotion"; "transactions"] →
              some_infinite c (concatenated [f1; f2]) = true →
              ∃ c r b, c ∈ ["sales"; "onpromotion"; "transactions"]
                       ∧ r ∈ rows (concatenated [f1; f2])
                       ∧ to_numeric_cell (col c r) = Infinity b).
    { intros c Hc (r & Hr%list_elem_of_In & Hinf)%existsb_exists.
      exists c, r.
      destruct (to_numeric_cell (col c r)) as [| |b] eqn:E; try done.
      by exists b. }
    destruct (load_data_Err fs f1 f2 _ Hf1 Hf2 Herr)
      as [(c & _ & Hc & ->)|[[Ho _]|[(c & Hc & Hi & _)|(_ & Hd & ->)]]].
    + left. by exists c.
    + right; right. apply (Hinf "onpromotion"); [set_solver|done].
    + right; right. apply (Hinf c); [set_solver|done].
    + right; left. done.
  - rewrite !Forall_cons. intros (Hd & Hs & Ho & _) Hfs (r & b & Hr & Hinf).
    rewrite load_data_outcome. unfold load_outcome. rewrite Hf1, Hf2. cbv zeta.
    rewrite !key_ok by done. rewrite Hfs. cbn [negb raise_unless].
    assert (some_infinite "onpromotion" (concatenated [f1; f2]) = true) as ->;
      [|done].
    apply existsb_exists. exists r. split; [by apply list_elem_of_In|].
    by rewrite Hinf.
Qed.
End coercion.

Lemma load_data_sales_and_onpromotion_witness :
  let fs := partitions_without_calendar in
  ∃ f1 f2,
    fs "data/parte_1.csv.gz" = Some f1 ∧ fs "data/parte_2.csv.gz" = Some f2 ∧
    let raw := concatenated [f1; f2] in
    load_data (H:=plain_text) fs = Ok loaded_without_calendar ∧
    Forall2 (λ r x,
        let sales := to_numeric_cell (H:=plain_text) (col "sales" r) in
        let onpromotion :=
          to_numeric_cell (H:=plain_text) (col "onpromotion" r) in
        (∃ q, col "sales" x = Num q) ∧
        (∃ z, col "onpromotion" x = num z) ∧
        (∀ q, sales = Finite q → col "sales" x = Num q) ∧
        (sales = NaN → col "sales" x = num 0) ∧
        (∀ q, onpromotion = Finite q →
           col "onpromotion" x = num (int64 (trunc q))) ∧
        (onpromotion = NaN → col "onpromotion" x = num 0) ∧
        ((∀ q, sales = Finite q → (0 <= q)%Qc) → nonneg (col "sales" x)) ∧
        ((∀ q, onpromotion = Finite q → (0 <= q)%Qc ∧ trunc q < 2 ^ 63) →
           nonneg (col "onpromotion" x)))
      (rows raw) (rows loaded_without_calendar) ∧
    (∀ e, load_data (H:=plain_text) fs = Err e →
       (∃ c, e = KeyError c ∧ c ∉ columns raw) ∨
       (e = IntCastingNaNError "week"
        ∧ some_date_unparsed (H:=plain_text) raw = true) ∨
       (∃ c r b, c ∈ ["sales"; "onpromotion"; "transactions"] ∧ r ∈ rows raw
                 ∧ to_numeric_cell (H:=plain_text) (col c r) = Infinity b)) ∧
    (Forall (λ c, c ∈ columns raw) ["date"; "sales"; "onpromotion"] →
     some_infinite (H:=plain_text) "sales" raw = false →
     (∃ r b, r ∈ rows raw
             ∧ to_numeric_cell (H:=plain_text) (col "onpromotion" r)
               = Infinity b) →
     load_data (H:=plain_text) fs = Err (IntCastingNaNError "onpromotion")).
Proof.
  cbv zeta. eexists _, _. split; [reflexivity|]. split; [reflexivity|].
  assert (load_data (H:=plain_text) partitions_without_calendar
          = Ok loaded_without_calendar) as Hload by (vm_compute; reflexivity).
  split; [exact Hload|].
  destruct (load_data_sales_and_onpromotion (H:=plain_text)
              partitions_without_calendar _ _ eq_refl eq_refl)
    as (Hrows & Hcast & Hinf).
  split; [exact (Hrows _ Hload)|]. split; [exact Hcast|exact Hinf].
Defined.

(** A promotion count beyond the range of [int64] is loaded as the least
    [int64], and an infinite one makes the cast fail. *)
Example load_data_onpromotion_beyond_int64 :
  (∃ df, load_data (H:=plain_text) partitions_with_large_count = Ok df ∧
         col "onpromotion" <$> rows df = [num (- 2 ^ 63)]) ∧
  load_data (H:=plain_text) partitions_with_infinite_count
    = Err (IntCastingNaNError "onpromotion").
Proof.
  split; [|vm_compute; reflexivity].
  eexists. split; vm_compute; reflexivity.
Qed.

(** C2, counterexample. A sales value of -5 and a promotion count of -3
    are loaded as they are: after loading, sales and onpromotion are
    negative on that row. *)
Lemma load_data_keeps_negative_values :
  ∃ df, load_data (H:=plain_text) partitions_with_negatives = Ok df ∧
        col "sales" <$> rows df = [num (-5)] ∧
        col "onpromotion" <$> rows df = [num (-3)] ∧
        ¬ Forall (λ x, nonneg (col "sales" x)) (rows df) ∧
        ¬ Forall (λ x, nonneg (col "onpromotion" x)) (rows df).
Proof.
  eexists. split; [vm_compute; reflexivity|].
  split; [vm_compute; reflexivity|]. split; [vm_compute; reflexivity|].
  split; intros Hall; apply Forall_cons in Hall as [(q & Hq & Hle) _];
    vm_compute in Hq; injection Hq as <-; vm_compute in Hle; by apply Hle.
Qed.

(** ** Calendar columns *)

Lemma needs_backfill_spec (c : string) (df : frame) :
  needs_backfill c df = true ↔
  c ∉ columns df ∨ ∃ r, r ∈ rows df ∧ col c r = NA.
Proof.
  unfold needs_backfill, has_column, isna_any.
  rewrite orb_true_iff, negb_true_iff, bool_decide_eq_false, existsb_exists.
  apply or_iff_compat_l. split.
  - intros (x & Hx & Hna). apply list_elem_of_In, list_elem_of_fmap in Hx.
    destruct Hx as (r & Hx & Hr). exists r. split; [done|].
    rewrite <- Hx. by destruct x.
  - intros (r & Hr & Hna). exists NA. split; [|done].
    apply list_elem_of_In, list_elem_of_fmap. by exists r.
Qed.

Section calendar.
Context `{Text}.

(** C5 (as amended). For each of year, month and week: when the column is
    absent from the concatenated partitions or holds a null there, the
    whole column is recomputed from the parsed date; otherwise it is left
    as read, whatever the date. A recomputed year or month is the year or
    month of the date where the date parsed and null where it did not; a
    recomputed week is the ISO week of the date, and then every date
    parsed. *)
Theorem load_data_backfills_calendar (fs : file_system) (df : frame) :
  load_data fs = Ok df →
  ∃ f1 f2,
    fs "data/parte_1.csv.gz" = Some f1 ∧ fs "data/parte_2.csv.gz" = Some f2 ∧
    let raw := concatenated [f1; f2] in
    (∀ c, needs_backfill c raw = true ↔
            c ∉ columns raw ∨ ∃ r, r ∈ rows raw ∧ col c r = NA) ∧
    Forall2 (λ r x,
        let date := to_datetime_cell (col "date" r) in
        col "date" x = date ∧
        col "year" x = (if needs_backfill "year" raw
                        then dt_field year_of date else col "year" r) ∧
        col "month" x = (if needs_backfill "month" raw
                         then dt_field month_of date else col "month" r) ∧
        col "week" x = (if needs_backfill "week" raw
                        then dt_field iso_week_of date else col "week" r) ∧
        (needs_backfill "week" raw = true → ∃ ns, date = Timestamp ns))
      (rows raw) (rows df) ∧
    (∀ f ns, dt_field f (Timestamp ns) = num (f ns)) ∧
    (∀ f, dt_field f NA = NA).
Proof.
  intros (f1 & f2 & Hf1 & Hf2 & _ & _ & Hweek & ->)%load_data_Ok.
  exists f1, f2. split; [done|]. split; [done|]. cbv zeta.
  split; [intros c; apply needs_backfill_spec|]. split; [|done].
  cbn [rows]. apply Forall2_fmap_r, Forall_Forall2_diag, Forall_forall.
  intros r Hr. unfold compose. cbv beta zeta.
  rewrite loaded_row_date, loaded_row_year, loaded_row_month, loaded_row_week.
  repeat split; try done. intros Hw. rewrite Hw in Hweek.
  cbn [andb] in Hweek. unfold some_date_unparsed in Hweek.
  destruct (to_datetime_cell_timestamp (col "date" r)) as [Hna|Hts]; [|done].
  exfalso. assert (existsb (λ r, isna (to_datetime_cell (col "date" r)))
                     (rows (concatenated [f1; f2])) = true) as Hex.
  { apply existsb_exists. exists r.
    split; [by apply list_elem_of_In | by rewrite Hna]. }
  congruence.
Qed.
End calendar.

Lemma load_data_backfills_calendar_witness :
  ∃ f1 f2,
    partitions_without_calendar "data/parte_1.csv.gz" = Some f1 ∧
    partitions_without_calendar "data/parte_2.csv.gz" = Some f2 ∧
    let raw := concatenated [f1; f2] in
    (∀ c, needs_backfill c raw = true ↔
            c ∉ columns raw ∨ ∃ r, r ∈ rows raw ∧ col c r = NA) ∧
    Forall2 (λ r x,
        let date := to_datetime_cell (H:=plain_text) (col "date" r) in
        col "date" x = date ∧
        col "year" x = (if needs_backfill "year" raw
                        then dt_field year_of date else col "year" r) ∧
        col "month" x = (if needs_backfill "month" raw
                         then dt_field month_of date else col "month" r) ∧
        col "week" x = (if needs_backfill "week" raw
                        then dt_field iso_week_of date else col "week" r) ∧
        (needs_backfill "week" raw = true → ∃ ns, date = Timestamp ns))
      (rows raw)
      (rows (Frame
         ["date"; "store_nbr"; "family"; "sales"; "onpromotion";
          "transactions"; "year"; "month"; "week"]
         [list_to_map [("date", Timestamp 1483228800000000000);
                       ("store_nbr", num 1); ("family", Str "DAIRY");
                       ("sales", num 12); ("onpromotion", num 3);
                       ("transactions", num 40); ("year", num 2017);
                       ("month", num 1); ("week", num 52)];
          list_to_map [("date", Timestamp 1451520000000000000);
                       ("store_nbr", num 1); ("family", Str "DAIRY");
                       ("sales", num 0); ("onpromotion", num 0);
                       ("transactions", NA); ("year", num 2015);
                       ("month", num 12); ("week", num 53)];
          list_to_map [("date", Timestamp 1451865600000000000);
                       ("store_nbr", num 2); ("family", Str "DAIRY");
                       ("sales", num 7); ("onpromotion", num 2);
                       ("transactions", NA); ("year", num 2016);
                       ("month", num 1); ("week", num 1)]])) ∧
    (∀ f ns, dt_field f (Timestamp ns) = num (f ns)) ∧
    (∀ f, dt_field f NA = NA).
Proof.
  apply (load_data_backfills_calendar (H:=plain_text)
           partitions_without_calendar).
  vm_compute. reflexivity.
Defined.

(** C5, counterexample. The calendar columns are present and complete, so
    they are left as read: the first row keeps 1999 as the year of a date
    of 2020, and the second keeps the year 2017 although its date did not
    parse. *)
Lemma load_data_keeps_complete_calendar :
  ∃ df, load_data (H:=plain_text) partitions_with_calendar = Ok df ∧
        col "date" <$> rows df = [Timestamp 1589673600000000000; NA] ∧
        col "year" <$> rows df = [num 1999; num 2017] ∧
        year_of 1589673600000000000 = 2020 ∧
        col "year" <$> rows df
          ≠ dt_field year_of <$> (col "date" <$> rows df).
Proof.
  eexists. split; [vm_compute; reflexivity|].
  split; [vm_compute; reflexivity|]. split; [vm_compute; reflexivity|].
  split; [vm_compute; reflexivity|]. vm_compute. discriminate.
Qed.

(** Without a week column, a date that does not parse makes the cast of
    the recomputed weeks to integers fail. *)
Example load_data_bad_date_without_week :
  load_data (H:=plain_text) partitions_with_bad_date
  = Err (IntCastingNaNError "week").
Proof. vm_compute. reflexivity. Qed.

(** ** Partitions *)

Lemma union_columns_nil (cs : list string) : union_columns [] cs = cs.
Proof.
  unfold union_columns. cbn [app].
  induction cs as [|c cs IH]; [done|].
  rewrite filter_cons_True by (by intros ?%elem_of_nil). by rewrite IH.
Qed.

Lemma concat_two (f1 f2 : frame) :
  concat [f1; f2]
  = {| columns := columns f1 ++ filter (λ c, c ∉ columns f1) (columns f2);
       rows := reindex (columns f1 ++ filter (λ c, c ∉ columns f1) (columns f2))
                 <$> (rows f1 ++ rows f2) |}.
Proof.
  unfold concat. cbn [foldl]. rewrite union_columns_nil.
  unfold union_columns. csimpl. by rewrite app_nil_r.
Qed.


Section partitions.
Context `{Text}.

End partitions.



(** ** The transaction view of the example *)

Lemma transactions_base_one_row_per_pair_witness :
  ∃ base,
    transactions_base two_pairs = Ok base ∧
    columns base = ["date"; "store_nbr"; "state"; "transactions"; "year"] ∧
    Forall (λ b, dom b =
      list_to_set ["date"; "store_nbr"; "state"; "transactions"; "year"])
      (rows base) ∧
    ∀ r, r ∈ rows two_pairs →
      let pair := keys_of ["date"; "store_nbr"] r in
      ∃ b first,
        get_group ["date"; "store_nbr"] pair (rows base) = [b] ∧
        head (get_group ["date"; "store_nbr"] pair (rows two_pairs))
          = Some first ∧
        b = reindex ["date"; "store_nbr"; "state"; "transactions"; "year"]
              first ∧
        ((∀ r', r' ∈ rows two_pairs →
            keys_of ["date"; "store_nbr"] r' = pair →
            col "transactions" r' = col "transactions" r) →
         col "transactions" b = col "transactions" r).
Proof.
  apply (transactions_base_one_row_per_pair two_pairs).
  unfold two_pairs; cbn [columns].
  repeat (apply Forall_cons_2; [set_solver|]). apply Forall_nil_2.
Defined.

Example transactions_base_two_pairs :
  transactions_base two_pairs =
    Ok (Frame ["date"; "store_nbr"; "state"; "transactions"; "year"]
          [list_to_map [("date", Timestamp 0); ("store_nbr", num 1);
                        ("state", Str "Pichincha"); ("transactions", num 40);
                        ("year", num 1970)];
           list_to_map [("date", Timestamp 0); ("store_nbr", num 2);
                        ("state", Str "Guayas"); ("transactions", NA);
                        ("year", num 1970)]]).
Proof. vm_compute. reflexivity. Qed.

(** ** The shape of the loaded table *)

Lemma filter_iff {A} (P Q : A → Prop) `{∀ x, Decision (P x)}
    `{∀ x, Decision (Q x)} (l : list A) :
  (∀ x, x ∈ l → P x ↔ Q x) → filter P l = filter Q l.
Proof.
  induction l as [|x l IH]; intros HPQ; [done|].
  rewrite !filter_cons. rewrite IH by (intros y Hy; apply HPQ; by right).
  destruct (decide (P x)) as [HP|HP], (decide (Q x)) as [HQ|HQ]; try done;
    exfalso; apply (HPQ x) in HP || apply (HPQ x) in HQ; try done; by left.
Qed.

Lemma filter_all {A} (P : A → Prop) `{∀ x, Decision (P x)} (l : list A) :
  Forall P l → filter P l = l.
Proof.
  induction 1 as [|x l HP _ IH]; [done|].
  by rewrite filter_cons_True, IH.
Qed.

Lemma columns_concatenated (f1 f2 : frame) :
  columns (concatenated [f1; f2])
  = filter (λ c, c ≠ "Unnamed: 0")
      (columns f1 ++ filter (λ c, c ∉ columns f1) (columns f2)).
Proof.
  unfold concatenated. rewrite concat_two. unfold has_column. cbn [columns].
  set (cs := columns f1 ++ filter (λ c, c ∉ columns f1) (columns f2)).
  case_bool_decide as Hin.
  - unfold drop_columns. cbn [columns]. apply filter_iff.
    intros c _. set_solver.
  - symmetry. apply filter_all, Forall_forall. by intros c Hc ->.
Qed.

Lemma rows_concatenated (f1 f2 : frame) :
  ∃ g : row → row,
    rows (concatenated [f1; f2]) = g <$> (rows f1 ++ rows f2) ∧
    ∀ c r, c ∈ columns (concatenated [f1; f2]) → col c (g r) = col c r.
Proof.
  pose proof (columns_concatenated f1 f2) as Hcols. revert Hcols.
  unfold concatenated. rewrite concat_two. unfold has_column. cbn [columns].
  set (cs := columns f1 ++ filter (λ c, c ∉ columns f1) (columns f2)).
  case_bool_decide as Hin; intros Hcols.
  - exists (λ r, delete "Unnamed: 0" (reindex cs r)). split.
    + unfold drop_columns. cbn [rows columns]. by rewrite <- list_fmap_compose.
    + intros c r. rewrite Hcols. intros [Hne Hc]%list_elem_of_filter.
      unfold col at 1. rewrite lookup_delete_ne by done.
      fold (col c (reindex cs r)). by apply col_reindex.
  - exists (reindex cs). split; [done|]. cbn [columns].
    intros c r Hc. by apply col_reindex.
Qed.

Lemma loaded_columns_order (raw : frame) :
  loaded_columns raw
  = columns raw ++ filter (λ c, c ∉ columns raw) ["year"; "month"; "week"].
Proof.
  unfold loaded_columns, needs_backfill, has_column, with_column. cbv zeta.
  rewrite !filter_cons, filter_nil.
  destruct (decide ("year" ∈ columns raw)) as [Hy|Hy];
    destruct (decide ("month" ∈ columns raw)) as [Hm|Hm];
    destruct (decide ("week" ∈ columns raw)) as [Hw|Hw];
    rewrite ?(bool_decide_eq_true_2 _ Hy), ?(bool_decide_eq_false_2 _ Hy),
      ?(bool_decide_eq_true_2 _ Hm), ?(bool_decide_eq_false_2 _ Hm),
      ?(bool_decide_eq_true_2 _ Hw), ?(bool_decide_eq_false_2 _ Hw);
    cbn [negb orb];
    repeat (match goal with
            | |- context [decide (?c ∉ ?l)] =>
                first [rewrite (decide_True (P := c ∉ l)) by done
                      |rewrite (decide_False (P := c ∉ l)) by (by intros ?)]
            end);
    repeat (match goal with
            | |- context [if isna_any ?s then _ else _] => destruct (isna_any s)
            end);
    repeat (match goal with
            | |- context [bool_decide (?c ∈ ?l)] =>
                first [rewrite (bool_decide_eq_true_2 (c ∈ l)) by set_solver
                      |rewrite (bool_decide_eq_false_2 (c ∈ l)) by set_solver]
            end);
    rewrite <- ?app_assoc, ?app_nil_r; reflexivity.
Qed.

Section loaded_shape.
Context `{Text}.

Lemma loaded_row_col (raw : frame) (c : string) (r : row) :
  c ∉ ["date"; "sales"; "onpromotion"; "transactions";
       "year"; "month"; "week"] →
  col c (loaded_row raw r) = col c r.
Proof.
  intros Hc. unfold loaded_row.
  rewrite calendar_row_col, normalized_row_col; set_solver.
Qed.

Lemma loaded_row_transactions (raw : frame) (r : row) :
  col "transactions" (loaded_row raw r)
  = coerce_transactions (col "transactions" r).
Proof.
  unfold loaded_row. rewrite calendar_row_col by done.
  unfold normalized_row, coerce_row, parse_date_row.
  rewrite col_insert_eq, col_as_category. by rewrite col_insert_ne.
Qed.

(** The loaded table has the rows of the first partition followed by the
    rows of the second; its columns are the columns of the first partition,
    then the further columns of the second, without the column
    [Unnamed: 0], and then those of year, month and week that the
    partitions lack; a column that is not one of the seven the loader
    writes holds the cells that were read. *)
Theorem load_data_rows_and_columns (fs : file_system) (df : frame) :
  load_data fs = Ok df →
  ∃ f1 f2,
    fs "data/parte_1.csv.gz" = Some f1 ∧ fs "data/parte_2.csv.gz" = Some f2 ∧
    let read := filter (λ c, c ≠ "Unnamed: 0")
                  (columns f1 ++ filter (λ c, c ∉ columns f1) (columns f2)) in
    columns df
      = read ++ filter (λ c, c ∉ read) ["year"; "month"; "week"] ∧
    length (rows df) = (length (rows f1) + length (rows f2))%nat ∧
    ∀ c, c ∈ read →
         c ∉ ["date"; "sales"; "onpromotion"; "transactions";
              "year"; "month"; "week"] →
         col c <$> rows df = col c <$> (rows f1 ++ rows f2).
Proof.
  intros (f1 & f2 & Hf1 & Hf2 & _ & _ & _ & ->)%load_data_Ok.
  exists f1, f2. split; [done|]. split; [done|]. cbv zeta. cbn [columns rows].
  rewrite loaded_columns_order, columns_concatenated. split; [done|].
  destruct (rows_concatenated f1 f2) as (g & Hg & Hcol).
  rewrite columns_concatenated in Hcol. rewrite Hg. split.
  - by rewrite !length_fmap, length_app.
  - intros c Hc Hnot. rewrite <- !list_fmap_compose.
    apply list_fmap_ext. intros i r _. cbn.
    rewrite loaded_row_col by done. by apply Hcol.
Qed.

(** With both partitions read, the first of date, sales, onpromotion and
    transactions that neither partition has is reported as a missing key,
    unless a value read before the column is looked up is infinite: date
    and sales are looked up first; onpromotion after the sales are
    converted; transactions after the cast of onpromotion, which fails on
    an infinite value before the missing column is noticed. With the four
    columns no key is reported missing. *)
Theorem load_data_missing_column (fs : file_system) (f1 f2 : frame) :
  fs "data/parte_1.csv.gz" = Some f1 → fs "data/parte_2.csv.gz" = Some f2 →
  let has c := c ∈ columns f1 ∨ c ∈ columns f2 in
  let raw := concatenated [f1; f2] in
  (¬ has "date" → load_data fs = Err (KeyError "date")) ∧
  (has "date" → ¬ has "sales" → load_data fs = Err (KeyError "sales")) ∧
  (has "date" → has "sales" → ¬ has "onpromotion" →
     some_infinite "sales" raw = false →
     load_data fs = Err (KeyError "onpromotion")) ∧
  (has "date" → has "sales" → has "onpromotion" → ¬ has "transactions" →
     some_infinite "sales" raw = false →
     (some_infinite "onpromotion" raw = false →
        load_data fs = Err (KeyError "transactions")) ∧
     (some_infinite "onpromotion" raw = true →
        load_data fs = Err (IntCastingNaNError "onpromotion"))) ∧
  (has "date" → has "sales" → has "onpromotion" → has "transactions" →
     ∀ c, load_data fs ≠ Err (KeyError c)).
Proof.
  intros Hf1 Hf2. cbv zeta.
  assert (Hin : ∀ c, c ≠ "Unnamed: 0" →
            c ∈ columns (concatenated [f1; f2])
            ↔ c ∈ columns f1 ∨ c ∈ columns f2).
  { intros c Hc. rewrite columns_concatenated, list_elem_of_filter,
      elem_of_app, list_elem_of_filter.
    destruct (decide (c ∈ columns f1)); naive_solver. }
  rewrite load_data_outcome. unfold load_outcome. rewrite Hf1, Hf2. cbv zeta.
  rewrite <- !Hin by done.
  generalize (concatenated [f1; f2]). intros raw.
  unfold key, has_column, raise_unless.
  split; [|split; [|split; [|split]]].
  - intros Hd. by rewrite (bool_decide_eq_false_2 _ Hd).
  - intros Hd Hs.
    by rewrite (bool_decide_eq_true_2 _ Hd), (bool_decide_eq_false_2 _ Hs).
  - intros Hd Hs Ho ->. cbn [negb].
    by rewrite (bool_decide_eq_true_2 _ Hd), (bool_decide_eq_true_2 _ Hs),
      (bool_decide_eq_false_2 _ Ho).
  - intros Hd Hs Ho Ht ->. cbn [negb].
    rewrite (bool_decide_eq_true_2 _ Hd), (bool_decide_eq_true_2 _ Hs),
      (bool_decide_eq_true_2 _ Ho).
    split; intros ->; cbn [negb]; [|done].
    by rewrite (bool_decide_eq_false_2 _ Ht).
  - intros Hd Hs Ho Ht c.
    rewrite (bool_decide_eq_true_2 _ Hd), (bool_decide_eq_true_2 _ Hs),
      (bool_decide_eq_true_2 _ Ho), (bool_decide_eq_true_2 _ Ht).
    destruct (some_infinite "sales" raw); [done|].
    destruct (some_infinite "onpromotion" raw); [done|].
    destruct (some_infinite "transactions" raw); [done|]. cbn [negb].
    by destruct (needs_backfill "week" raw && some_date_unparsed raw).
Qed.

Lemma loaded_row_types (raw : frame) (r : row) :
  (col "date" (loaded_row raw r) = NA
   ∨ ∃ ns, col "date" (loaded_row raw r) = Timestamp ns) ∧
  (∃ q, col "sales" (loaded_row raw r) = Num q) ∧
  (∃ z, col "onpromotion" (loaded_row raw r) = num z) ∧
  (col "transactions" (loaded_row raw r) = NA
   ∨ ∃ q, col "transactions" (loaded_row raw r) = Num q).
Proof.
  rewrite loaded_row_date, loaded_row_sales, loaded_row_onpromotion,
    loaded_row_transactions.
  unfold coerce_sales, coerce_onpromotion, coerce_transactions.
  split; [apply to_datetime_cell_timestamp|].
  destruct (to_numeric_cell (col "sales" r));
    destruct (to_numeric_cell (col "onpromotion" r));
    destruct (to_numeric_cell (col "transactions" r));
    (split; [by eexists|]); (split; [by eexists|]); eauto.
Qed.

Lemma loaded_has_columns (raw : frame) :
  Forall (λ c, c ∈ columns raw)
    ["date"; "sales"; "onpromotion"; "transactions"] →
  Forall (λ c, c ∈ loaded_columns raw)
    ["date"; "sales"; "onpromotion"; "transactions";
     "year"; "month"; "week"].
Proof.
  intros Hcs. rewrite loaded_columns_order.
  rewrite !Forall_cons in Hcs. destruct Hcs as (Hd & Hs & Ho & Ht & _).
  assert (∀ c, c ∈ ["year"; "month"; "week"] →
     c ∈ columns raw ++ filter (λ c, c ∉ columns raw) ["year"; "month"; "week"])
    as Hcal.
  { intros c Hc. rewrite elem_of_app, list_elem_of_filter.
    destruct (decide (c ∈ columns raw)); auto. }
  apply Forall_cons_2; [apply elem_of_app; left; exact Hd|].
  apply Forall_cons_2; [apply elem_of_app; left; exact Hs|].
  apply Forall_cons_2; [apply elem_of_app; left; exact Ho|].
  apply Forall_cons_2; [apply elem_of_app; left; exact Ht|].
  apply Forall_cons_2; [apply Hcal, list_elem_of_here|].
  apply Forall_cons_2;
    [apply Hcal, list_elem_of_further, list_elem_of_here|].
  apply Forall_cons_2;
    [apply Hcal; do 2 apply list_elem_of_further; apply list_elem_of_here|].
  apply Forall_nil_2.
Qed.

(** The columns the loader provides, and the numeric ones among them. *)
Lemma loaded_types (fs : file_system) (df : frame) :
  load_data fs = Ok df →
  Forall (λ c, c ∈ columns df)
    ["date"; "sales"; "onpromotion"; "transactions";
     "year"; "month"; "week"] ∧
  numeric_column "sales" df = true ∧
  numeric_column "onpromotion" df = true ∧
  numeric_column "transactions" df = true.
Proof.
  intros (f1 & f2 & Hf1 & Hf2 & Hcs & _ & _ & ->)%load_data_Ok.
  split; [by apply loaded_has_columns|].
  unfold numeric_column. cbn [rows]. rewrite !forallb_forall.
  repeat split; intros x (r & <- & _)%in_map_iff;
    destruct (loaded_row_types (concatenated [f1; f2]) r)
      as (_ & [q Hq] & [z Hz] & [Ht|[q' Ht]]); rewrite ?Hq, ?Hz, ?Ht; done.
Qed.

(** In the loaded table the columns date, sales, onpromotion, transactions,
    year, month and week exist; sales, onpromotion and transactions hold
    numbers (transactions possibly nulls), so no comparison or aggregate of
    them meets text; and a date is a timestamp or null. *)
Theorem load_data_column_types (fs : file_system) (df : frame) :
  load_data fs = Ok df →
  Forall (λ c, c ∈ columns df)
    ["date"; "sales"; "onpromotion"; "transactions";
     "year"; "month"; "week"] ∧
  numeric_column "sales" df = true ∧
  numeric_column "onpromotion" df = true ∧
  numeric_column "transactions" df = true ∧
  ∀ x, x ∈ rows df →
    (col "date" x = NA ∨ ∃ ns, col "date" x = Timestamp ns) ∧
    (∃ q, col "sales" x = Num q) ∧
    (∃ z, col "onpromotion" x = num z) ∧
    (col "transactions" x = NA ∨ ∃ q, col "transactions" x = Num q).
Proof.
  intros Hload.
  destruct (loaded_types fs df Hload) as (Hcs & Hns & Hno & Hnt).
  split; [done|]. split; [done|]. split; [done|]. split; [done|].
  apply load_data_Ok in Hload as (f1 & f2 & _ & _ & _ & _ & _ & ->).
  cbn [rows]. intros x (r & -> & _)%list_elem_of_fmap.
  apply loaded_row_types.
Qed.
End loaded_shape.

(** ** The order of cells is a total order *)










(** ** [sort_values] sorts *)



Section strongly_sorted.
Context {A : Type} (leb : A → A → bool).
Hypothesis leb_total : ∀ a b, leb a b = false → leb b a = true.
Hypothesis leb_trans :
  ∀ a b c, leb a b = true → leb b c = true → leb a c = true.

End strongly_sorted.


Lemma sort_values_ok (by_ : list (string * bool)) (df : frame) :
  Forall (λ c, c ∈ columns df) by_.*1 →
  (∀ c asc, by_ = [(c, asc)] → comparable c df = true) →
  sort_values by_ df
  = Ok {| columns := columns df; rows := stable_sort (rows_leb by_) (rows df) |}.
Proof.
  intros Hcs Hcmp. unfold sort_values. rewrite no_missing_column by done.
  cbv zeta. destruct by_ as [|[c asc] [|]]; try done.
  by rewrite (Hcmp c asc eq_refl).
Qed.

(** The values of an aggregate are numbers and nulls, which can be
    compared. *)
Lemma comparable_values (c : string) (df : frame) :
  (∀ x, x ∈ rows df → is_numeric (col c x) = true) →
  comparable c df = true.
Proof.
  intros Hnum. apply comparable_numeric. unfold numeric_column.
  apply forallb_forall. intros x Hx%list_elem_of_In. by apply Hnum.
Qed.

Lemma agg_sum_numeric (s : list cell) : is_numeric (agg_sum s) = true.
Proof. done. Qed.

Lemma agg_mean_numeric (s : list cell) : is_numeric (agg_mean s) = true.
Proof. unfold agg_mean. by destruct (valid s). Qed.

Lemma col_value_reset_index (ks : list string) (v : string)
    (f : list cell → cell) (rs : list row) (x : row) :
  x ∈ rows (reset_index ks v (groupby_agg ks v f rs)) → ∃ s, col v x = f s.
Proof.
  unfold reset_index, groupby_agg. cbn [rows]. rewrite <- list_fmap_compose.
  intros (k & -> & _)%list_elem_of_fmap. cbn. rewrite col_insert_eq. eauto.
Qed.

Lemma comparable_aggregate (ks : list string) (v : string)
    (f : list cell → cell) (rs : list row) :
  (∀ s, is_numeric (f s) = true) →
  comparable v (reset_index ks v (groupby_agg ks v f rs)) = true.
Proof.
  intros Hf. apply comparable_values.
  intros x [s ->]%col_value_reset_index. apply Hf.
Qed.



(** ** Counts of distinct values *)

Lemma unique_elem_of (s : list cell) (x : cell) : x ∈ unique s ↔ x ∈ s.
Proof.
  unfold unique. rewrite <- (list_fmap_id (unique_by id [] s)).
  change (fmap id) with (fmap (M:=list) (@id cell)).
  rewrite (unique_by_key_elem_of id), list_fmap_id.
  split; [by intros [? _]|]. intros Hx. split; [done|]. by intros ?%elem_of_nil.
Qed.

Lemma unique_NoDup (s : list cell) : NoDup (unique s).
Proof.
  unfold unique. rewrite <- (list_fmap_id (unique_by id [] s)).
  apply (unique_by_NoDup id).
Qed.

Lemma nunique_mono (s1 s2 : list cell) :
  (∀ x, x ∈ s1 → x ∈ s2) → (nunique s1 ≤ nunique s2)%nat.
Proof.
  intros Hsub. unfold nunique. apply submseteq_length, NoDup_submseteq.
  - apply unique_NoDup.
  - intros x. rewrite !unique_elem_of, !dropna_elem_of. naive_solver.
Qed.

Lemma nunique_buckets (k : string) (rs : list row) :
  nunique (col k <$> rs) = length (buckets k rs).
Proof.
  unfold nunique. apply Permutation_length, NoDup_Permutation.
  - apply unique_NoDup.
  - apply buckets_NoDup.
  - intros x. rewrite unique_elem_of, dropna_elem_of, buckets_elem_of.
    rewrite list_elem_of_fmap. naive_solver.
Qed.

Lemma nunique_where (k : string) (p : row → bool) (df : frame) :
  (nunique (col k <$> rows (where_ p df)) ≤ nunique (col k <$> rows df))%nat.
Proof.
  apply nunique_mono. intros x. rewrite !list_elem_of_fmap.
  intros (r & -> & Hr). exists r. split; [done|].
  unfold where_ in Hr. cbn [rows] in Hr.
  by apply list_elem_of_In, filter_In in Hr as [?%list_elem_of_In _].
Qed.

Lemma getitem_ok (c : string) (df : frame) :
  c ∈ columns df → getitem c df = Ok (col c <$> rows df).
Proof.
  intros Hc. unfold getitem, has_column, raise_unless.
  by rewrite bool_decide_eq_true_2.
Qed.

Lemma getitem_missing (c : string) (df : frame) :
  c ∉ columns df → getitem c df = Err (KeyError c).
Proof.
  intros Hc. unfold getitem, has_column, raise_unless.
  by rewrite bool_decide_eq_false_2.
Qed.

Lemma length_head_ (n : nat) (df : frame) :
  length (rows (head_ n df)) = (n `min` length (rows df))%nat.
Proof. unfold head_. cbn [rows]. by rewrite length_take. Qed.

Lemma grouped_by_length (k v : string) (f : list cell → cell) (df t : frame) :
  grouped_by k v f df t → length (rows t) = length (buckets k (rows df)).
Proof.
  intros (_ & Hnd & Hin & _).
  rewrite <- (length_fmap (col k) (rows t)).
  apply Permutation_length, NoDup_Permutation; [done|apply buckets_NoDup|].
  intros b. by rewrite Hin, buckets_elem_of.
Qed.

(** The counts of Tab 1 and the bar charts beside them agree: the ranking of
    products has as many bars as there are products, up to its limit of 10,
    and the ranking of stores as many as there are stores, up to 30. A key
    that is null is not counted and has no bar. *)
Theorem counts_and_rankings (df : frame) :
  "family" ∈ columns df → "store_nbr" ∈ columns df → "sales" ∈ columns df →
  numeric_column "sales" df = true →
  ∃ products stores top by_store,
    total_products df = Ok products ∧ total_stores df = Ok stores ∧
    top_products df = Ok top ∧ sales_by_store df = Ok by_store ∧
    products = length (buckets "family" (rows df)) ∧
    stores = length (buckets "store_nbr" (rows df)) ∧
    length (rows top) = (10 `min` products)%nat ∧
    length (rows by_store) = (30 `min` stores)%nat.
Proof.
  intros Hf Hs Hv Hnum.
  destruct (ranking_full "family" "sales" 10 df) as (top & Htop & Hg1 & _);
    try done.
  destruct (ranking_full "store_nbr" "sales" 30 df) as (st & Hst & Hg2 & _);
    try done.
  exists (nunique (col "family" <$> rows df)),
    (nunique (col "store_nbr" <$> rows df)), (head_ 10 top), (head_ 30 st).
  unfold total_products, total_stores. rewrite !getitem_ok by done.
  cbn [mbind result_bind]. rewrite !nunique_buckets.
  split; [done|]. split; [done|]. split; [exact Htop|]. split; [exact Hst|].
  split; [done|]. split; [done|].
  rewrite !length_head_.
  by rewrite (grouped_by_length _ _ _ _ _ Hg1), (grouped_by_length _ _ _ _ _ Hg2).
Qed.

(** In a store, the products sold under promotion are among the products
    sold, and these among the products of the store: the three counts are
    in that order. *)
Theorem products_sold_ordered (df_store : frame) :
  "family" ∈ columns df_store → "sales" ∈ columns df_store →
  "onpromotion" ∈ columns df_store →
  numeric_column "sales" df_store = true →
  numeric_column "onpromotion" df_store = true →
  ∃ promoted sold all,
    promo_products_sold df_store = Ok promoted ∧
    products_sold df_store = Ok sold ∧
    total_products df_store = Ok all ∧
    (promoted ≤ sold ≤ all)%nat ∧
    (sold = 0%nat ↔
       ∀ r, r ∈ rows df_store → gt_0 "sales" r = true → col "family" r = NA).
Proof.
  intros Hf Hs Ho Hns Hno.
  unfold promo_products_sold, products_sold, total_products.
  rewrite !measure_ok by done. rewrite !getitem_ok by done.
  cbn [mbind result_bind]. eexists _, _, _. split; [done|]. split; [done|]. split; [done|].
  split; [split|].
  - apply nunique_mono. intros x. rewrite !list_elem_of_fmap.
    intros (r & -> & Hr). exists r. split; [done|].
    unfold where_ in *. cbn [rows] in *.
    apply list_elem_of_In, filter_In in Hr as [Hr [Hp _]%andb_true_iff].
    by apply list_elem_of_In, filter_In.
  - apply nunique_where.
  - rewrite nunique_buckets, length_zero_iff_nil. split.
    + intros Hnil r Hr Hpos. destruct (decide (col "family" r = NA)); [done|].
      assert (col "family" r ∈ buckets "family"
                (rows (where_ (gt_0 "sales") df_store))) as Hin.
      { apply buckets_elem_of. split; [done|]. exists r. split; [|done].
        unfold where_. cbn [rows]. apply list_elem_of_In, filter_In.
        split; [by apply list_elem_of_In|done]. }
      rewrite Hnil in Hin. by apply elem_of_nil in Hin.
    + intros Hall.
      destruct (buckets "family" (rows (where_ (gt_0 "sales") df_store)))
        as [|b bs] eqn:Hb; [done|]. exfalso.
      assert (b ∈ buckets "family" (rows (where_ (gt_0 "sales") df_store)))
        as Hin by (rewrite Hb; apply list_elem_of_here).
      apply buckets_elem_of in Hin as (Hne & r & Hr & Hrb).
      unfold where_ in Hr. cbn [rows] in Hr.
      apply list_elem_of_In, filter_In in Hr as [Hr Hpos].
      apply Hne. rewrite <- Hrb. apply Hall; [by apply list_elem_of_In|done].
Qed.

(** ** The states offered for selection *)

Lemma same_type_text (l : list cell) :
  Forall (λ c, ∃ s, c = Str s) l → same_type l = true.
Proof.
  intros Hl. destruct l as [|c l]; [done|]. cbn.
  apply Forall_cons in Hl as [[s ->] Hl]. apply forallb_forall.
  intros x Hx%list_elem_of_In. rewrite Forall_forall in Hl.
  by destruct (Hl x Hx) as [t ->].
Qed.

Lemma same_type_false (l : list cell) (a b : cell) :
  a ∈ l → b ∈ l → cell_rank a ≠ cell_rank b → same_type l = false.
Proof.
  intros Ha Hb Hab. destruct l as [|c l]; [by apply elem_of_nil in Ha|].
  cbn. apply not_true_is_false. rewrite forallb_forall. intros Hall.
  assert (∀ x, x ∈ c :: l → cell_rank x = cell_rank c) as Hrank.
  { intros x [->|Hx]%elem_of_cons; [done|].
    by apply Nat.eqb_eq, Hall, list_elem_of_In. }
  apply Hab. by rewrite (Hrank a), (Hrank b).
Qed.

(** The states offered in Tab 3 are the states of the dataset that are not
    null, each once, in ascending order, as many as the count of states of
    Tab 1; and the subset of a state on offer has a row. States that are
    not all of one type cannot be put in order: the list of states is
    refused with a type error. *)
Theorem states_selectable (df : frame) :
  "state" ∈ columns df →
  ((∀ r, r ∈ rows df → col "state" r = NA ∨ ∃ s, col "state" r = Str s) →
   ∃ l, states df = Ok l ∧ total_states df = Ok (length l) ∧
        NoDup l ∧ ascending l ∧
        (∀ b, b ∈ l ↔ b ≠ NA ∧ ∃ r, r ∈ rows df ∧ col "state" r = b) ∧
        ∀ b, b ∈ l →
          ∃ sub, df_state df b = Ok sub ∧ columns sub = columns df ∧
                 rows sub ≠ [] ∧
                 rows sub = List.filter
                              (λ r, bool_decide (col "state" r = b)) (rows df)) ∧
  (∀ r1 r2, r1 ∈ rows df → r2 ∈ rows df →
     col "state" r1 ≠ NA → col "state" r2 ≠ NA →
     cell_rank (col "state" r1) ≠ cell_rank (col "state" r2) →
     states df = Err (TypeError "state")).
Proof.
  intros Hst. unfold states, total_states. rewrite !getitem_ok by done.
  cbn [mbind result_bind]. unfold sorted_, raise_unless.
  set (l := unique (dropna (col "state" <$> rows df))).
  assert (Hl : ∀ b, b ∈ l ↔ b ≠ NA ∧ ∃ r, r ∈ rows df ∧ col "state" r = b).
  { intros b. unfold l.
    rewrite unique_elem_of, dropna_elem_of, list_elem_of_fmap. naive_solver. }
  split.
  - intros Htext.
    rewrite same_type_text.
    2:{ apply Forall_forall. intros b (Hb & r & Hr & <-)%Hl.
        by destruct (Htext r Hr). }
    exists (stable_sort cell_leb l). split; [done|].
    split; [by rewrite stable_sort_length|].
    split; [apply stable_sort_NoDup, unique_NoDup|].
    split; [apply stable_sort_Sorted, cell_leb_total|].
    split; [intros b; by rewrite stable_sort_elem_of|].
    intros b (Hb & r & Hr & Hrb)%stable_sort_elem_of%Hl.
    unfold df_state. rewrite key_ok by done. eexists. split; [done|].
    split; [done|]. cbn [where_ rows].
    assert (Heq : List.filter (eq_ "state" b) (rows df)
                  = List.filter (λ r, bool_decide (col "state" r = b)) (rows df)).
    { apply filter_ext. intros x. unfold eq_.
      destruct b; try done; cbn; by rewrite andb_true_r. }
    rewrite Heq. split; [|done].
    intros Hnil.
    assert (r ∈ List.filter (λ r, bool_decide (col "state" r = b)) (rows df))
      as Hin.
    { apply list_elem_of_In, filter_In. split; [by apply list_elem_of_In|].
      by apply bool_decide_eq_true. }
    rewrite Hnil in Hin. by apply elem_of_nil in Hin.
  - intros r1 r2 Hr1 Hr2 Hn1 Hn2 Hdiff.
    rewrite (same_type_false l (col "state" r1) (col "state" r2)); [done|..];
      [apply Hl|apply Hl|done]; eauto.
Qed.

(** ** Sums, shares and rounding *)

Lemma this_plus (x y : Qc) : (this (x + y)%Qc == this x + this y)%Q.
Proof. cbn. apply Qred_correct. Qed.

Lemma this_minus (x y : Qc) : (this (x - y)%Qc == this x - this y)%Q.
Proof. cbn. rewrite Qred_correct. cbn. rewrite Qred_correct. reflexivity. Qed.

Lemma this_mult (x y : Qc) : (this (x * y)%Qc == this x * this y)%Q.
Proof. cbn. apply Qred_correct. Qed.

Lemma this_Q2Qc (q : Q) : (this (Q2Qc q) == q)%Q.
Proof. cbn. apply Qred_correct. Qed.

Lemma this_of_Z (z : Z) : (this (of_Z z) == inject_Z z)%Q.
Proof. apply this_Q2Qc. Qed.

(** Order between rationals in canonical form, as order between
    fractions. *)
Ltac to_Q :=
  unfold Qcle, Qclt in *;
  repeat (rewrite ?this_plus, ?this_minus, ?this_mult, ?this_of_Z,
            ?this_Q2Qc in * ).

Lemma floor_le (q : Qc) : (of_Z (floor q) <= q)%Qc.
Proof.
  to_Q. unfold floor. destruct q as [[n d] Hq]. cbn.
  unfold Qle. cbn. rewrite Z.mul_1_r, Z.mul_comm. apply Z.mul_div_le. lia.
Qed.

Lemma floor_lt (q : Qc) : (q < of_Z (floor q + 1))%Qc.
Proof.
  to_Q. unfold floor. destruct q as [[n d] Hq]. cbn.
  unfold Qlt. cbn. rewrite Z.mul_1_r, Z.mul_comm.
  apply Z.mul_succ_div_gt. lia.
Qed.

Lemma rint_close (y : Qc) :
  (y - Q2Qc (1 # 2) <= of_Z (rint y))%Qc ∧
  (of_Z (rint y) <= y + Q2Qc (1 # 2))%Qc.
Proof.
  pose proof (floor_le y) as Hle. pose proof (floor_lt y) as Hlt.
  unfold rint. cbv zeta.
  repeat case_bool_decide; [| |destruct (Z.even (floor y))];
    to_Q; rewrite ?inject_Z_plus in *; change (inject_Z 1) with 1%Q in *;
    split; lra.
Qed.

Lemma of_Z_le (m n : Z) : (of_Z m <= of_Z n)%Qc ↔ m ≤ n.
Proof. to_Q. by rewrite <- Zle_Qle. Qed.

(** An integer between two bounds half a unit apart from integers lies
    between these integers. *)
Lemma rint_between (y : Qc) (m n : Z) :
  (of_Z m <= y)%Qc → (y <= of_Z n)%Qc → m ≤ rint y ≤ n.
Proof.
  intros Hm Hn. destruct (rint_close y) as [Hlo Hhi].
  assert (m - 1 < rint y ∧ rint y < n + 1) as [? ?]; [|lia].
  rewrite !Zlt_Qlt. to_Q. unfold Z.sub.
  rewrite !inject_Z_plus, inject_Z_opp. change (inject_Z 1) with 1%Q.
  split; lra.
Qed.

Lemma div_of_Z_100 (x : Qc) : (x / of_Z 100 * of_Z 100 = x)%Qc.
Proof. by apply test_field. Qed.

(** Rounding to two decimals moves a number by at most half a hundredth and
    keeps it between 0 and 100 when it was. *)
Lemma round_2_close (x : Qc) :
  (x - Q2Qc (1 # 200) <= round_ x 2)%Qc ∧ (round_ x 2 <= x + Q2Qc (1 # 200))%Qc.
Proof.
  unfold round_. change (10 ^ Z.of_nat 2) with 100.
  destruct (rint_close (x * of_Z 100)) as [Hlo Hhi].
  set (n := of_Z (rint (x * of_Z 100))) in *.
  pose proof (div_of_Z_100 n) as Hdiv. revert Hdiv Hlo Hhi.
  generalize (n / of_Z 100)%Qc. intros m <-. to_Q.
  change (inject_Z 100) with 100%Q. split; lra.
Qed.

Lemma round_2_percent (x : Qc) :
  (0 <= x)%Qc → (x <= of_Z 100)%Qc →
  (0 <= round_ x 2)%Qc ∧ (round_ x 2 <= of_Z 100)%Qc.
Proof.
  intros H0 H100. unfold round_. change (10 ^ Z.of_nat 2) with 100.
  destruct (rint_between (x * of_Z 100) 0 10000) as [Hlo Hhi].
  - to_Q. change (inject_Z 100) with 100%Q. change (inject_Z 0) with 0%Q.
    change (this 0%Qc) with 0%Q in *. lra.
  - to_Q. change (inject_Z 100) with 100%Q in *.
    change (inject_Z 10000) with 10000%Q. lra.
  - apply of_Z_le in Hlo, Hhi.
    set (n := of_Z (rint (x * of_Z 100))) in *.
    pose proof (div_of_Z_100 n) as Hdiv. revert Hdiv Hlo Hhi.
    generalize (n / of_Z 100)%Qc. intros m <-. to_Q.
    change (inject_Z 100) with 100%Q. change (inject_Z 0) with 0%Q.
    change (inject_Z 10000) with 10000%Q. change (this 0%Qc) with 0%Q.
    split; lra.
Qed.

Lemma total_from (a : Qc) (l : list Qc) :
  foldl Qcplus a l = (a + total l)%Qc.
Proof.
  unfold total. revert a. induction l as [|x l IH]; intros a; cbn.
  - ring.
  - rewrite (IH (a + x)%Qc), (IH (0 + x)%Qc). ring.
Qed.

Lemma total_cons (x : Qc) (l : list Qc) : total (x :: l) = (x + total l)%Qc.
Proof. unfold total at 1. cbn. rewrite total_from. ring. Qed.

Lemma sum_cons (c : cell) (s : list cell) :
  sum_ (c :: s) = (addend c + sum_ s)%Qc.
Proof.
  unfold sum_. destruct c; csimpl; rewrite ?total_cons; unfold addend; ring.
Qed.

Lemma sum_nonneg (s : list cell) :
  Forall (λ c, ∀ q, c = Num q → (0 <= q)%Qc) s → (0 <= sum_ s)%Qc.
Proof.
  induction 1 as [|c s Hc _ IH]; [done|]. rewrite sum_cons.
  apply Qcplus_nonneg_nonneg; [|done].
  destruct c; cbn; try done. by apply Hc.
Qed.

Lemma sum_where_le (v : string) (p : row → bool) (rs : list row) :
  (∀ r q, r ∈ rs → col v r = Num q → (0 <= q)%Qc) →
  (sum_ (col v <$> List.filter p rs) <= sum_ (col v <$> rs))%Qc.
Proof.
  induction rs as [|r rs IH]; intros Hpos; [done|].
  assert (sum_ (col v <$> List.filter p rs) <= sum_ (col v <$> rs))%Qc as Hle.
  { apply IH. intros r' q Hr'. apply Hpos. by right. }
  assert (0 <= addend (col v r))%Qc as Hr.
  { destruct (col v r) eqn:Hc; cbn; try done. apply (Hpos r); [by left|done]. }
  rewrite fmap_cons, sum_cons.
  change (List.filter p (r :: rs))
    with (if p r then r :: List.filter p rs else List.filter p rs).
  destruct (p r).
  - rewrite fmap_cons, sum_cons. by apply Qcplus_le_mono_l.
  - revert Hle Hr. generalize (sum_ (col v <$> List.filter p rs)),
      (sum_ (col v <$> rs)), (addend (col v r)). intros a b c Hle Hr.
    to_Q. change (this 0%Qc) with 0%Q in *. lra.
Qed.

(** The share of sales under promotion is never a division by zero: it is 0
    when the total of sales is not positive. When no sales value is
    negative, the sales under promotion are part of the total, the share
    lies between 0 and 100 and is the percentage of the total, and the
    figure shown, rounded to two decimals, lies between 0 and 100 within
    half a hundredth of the share. *)
Theorem promo_share_bounds (df : frame) :
  "sales" ∈ columns df → "onpromotion" ∈ columns df →
  numeric_column "sales" df = true → numeric_column "onpromotion" df = true →
  ∃ all promo share,
    total_sales df = Ok all ∧ promo_sales df = Ok promo ∧
    promo_share df = Ok share ∧
    (¬ (0 < all)%Qc → share = 0%Qc) ∧
    ((0 < all)%Qc → (share * all = promo * of_Z 100)%Qc) ∧
    ((∀ r q, r ∈ rows df → col "sales" r = Num q → (0 <= q)%Qc) →
       (0 <= promo)%Qc ∧ (promo <= all)%Qc ∧
       (0 <= share)%Qc ∧ (share <= of_Z 100)%Qc ∧
       (0 <= round_ share 2)%Qc ∧ (round_ share 2 <= of_Z 100)%Qc ∧
       (share - Q2Qc (1 # 200) <= round_ share 2)%Qc ∧
       (round_ share 2 <= share + Q2Qc (1 # 200))%Qc).
Proof.
  intros Hs Ho Hns Hno. unfold promo_share, total_sales, promo_sales.
  rewrite !measure_ok by (done || by apply numeric_column_where).
  cbn [mbind result_bind where_ rows].
  set (all := sum_ (col "sales" <$> rows df)).
  set (promo := sum_ (col "sales"
                        <$> List.filter (gt_0 "onpromotion") (rows df))).
  eexists _, _, _. split; [done|]. split; [done|]. split; [done|].
  assert (Hshare : (0 < all)%Qc →
     (promo / all * of_Z 100 * all = promo * of_Z 100)%Qc).
  { intros Hpos. field. intros ->. by apply Qclt_not_le in Hpos. }
  split; [|split].
  - intros Hnot. by rewrite bool_decide_eq_false_2.
  - intros Hpos. rewrite bool_decide_eq_true_2 by done. by apply Hshare.
  - intros Hnn.
    assert (0 <= promo)%Qc as Hp.
    { apply sum_nonneg, Forall_fmap, Forall_forall.
      intros r [Hr _]%list_elem_of_In%filter_In q. apply Hnn.
      by apply list_elem_of_In. }
    assert (promo <= all)%Qc as Hpa by by apply sum_where_le.
    assert (Hb : (0 <= (if bool_decide (0 < all)%Qc
                        then promo / all * of_Z 100 else 0))%Qc
               ∧ ((if bool_decide (0 < all)%Qc
                   then promo / all * of_Z 100 else 0) <= of_Z 100)%Qc).
    { case_bool_decide as Hpos; [|done].
      specialize (Hshare Hpos). revert Hshare.
      generalize (promo / all * of_Z 100)%Qc. intros s Hs'.
      assert (s * all <= of_Z 100 * all)%Qc as Hle.
      { rewrite Hs', (Qcmult_comm (of_Z 100)).
        by apply Qcmult_le_mono_nonneg_r. }
      assert (0 * all <= s * all)%Qc as Hge.
      { rewrite Hs'. change (0 * all)%Qc with (Q2Qc 0 * all)%Qc.
        rewrite Qcmult_0_l. by apply Qcmult_nonneg_nonneg. }
      split.
      - by eapply Qcmult_lt_0_le_reg_r.
      - by eapply Qcmult_lt_0_le_reg_r. }
    destruct Hb as [Hb0 Hb100].
    split; [done|]. split; [done|]. split; [done|]. split; [done|].
    split; [by apply round_2_percent|]. split; [by apply round_2_percent|].
    apply round_2_close.
Qed.

(** ** Tables of a subset of the rows *)

Lemma filter_filter {A} (p q : A → bool) (l : list A) :
  List.filter q (List.filter p l) = List.filter (λ x, p x && q x) l.
Proof.
  induction l as [|x l IH]; [done|]. cbn.
  destruct (p x); cbn; [|done]. destruct (q x); by rewrite IH.
Qed.

Lemma get_group_where (k : string) (b : cell) (p : row → bool) (rs : list row) :
  get_group [k] [b] (List.filter p rs)
  = List.filter (λ r, p r && bool_decide (col k r = b)) rs.
Proof.
  unfold get_group. rewrite filter_filter. apply filter_ext. intros r.
  f_equal. cbn. apply bool_decide_ext. naive_solver.
Qed.

Lemma get_group_single (k : string) (b : cell) (rs : list row) :
  get_group [k] [b] rs = List.filter (λ r, bool_decide (col k r = b)) rs.
Proof.
  unfold get_group. apply filter_ext. intros r. cbn.
  apply bool_decide_ext. naive_solver.
Qed.

Lemma elem_of_where (p : row → bool) (df : frame) (r : row) :
  r ∈ rows (where_ p df) ↔ r ∈ rows df ∧ p r = true.
Proof.
  unfold where_. cbn [rows].
  by rewrite list_elem_of_In, filter_In, <- list_elem_of_In.
Qed.

Lemma agg_sum_sum (s : list cell) : agg_sum s = Num (sum_ s).
Proof. done. Qed.

(** What [grouped_by] says of a table computed from the rows of [df] that
    satisfy [p], in terms of the rows of [df]. *)
Lemma grouped_by_where (k v : string) (f : list cell → cell)
    (p : row → bool) (df t : frame) :
  grouped_by k v f (where_ p df) t →
  columns t = [k; v] ∧ NoDup (col k <$> rows t) ∧
  (∀ b, b ∈ col k <$> rows t
        ↔ b ≠ NA ∧ ∃ r, r ∈ rows df ∧ p r = true ∧ col k r = b) ∧
  ∀ x, x ∈ rows t →
    col v x = f (col v <$> List.filter
                   (λ r, p r && bool_decide (col k r = col k x)) (rows df)).
Proof.
  intros (Hc & Hnd & Hin & Hval). split; [done|]. split; [done|]. split.
  - intros b. rewrite Hin. setoid_rewrite elem_of_where. naive_solver.
  - intros x Hx. rewrite (Hval x Hx). unfold where_. cbn [rows].
    by rewrite get_group_where.
Qed.

Lemma eq_true (c : string) (v : cell) (r : row) :
  eq_ c v r = true ↔ col c r = v ∧ v ≠ NA.
Proof.
  unfold eq_. rewrite andb_true_iff, bool_decide_eq_true.
  destruct v; cbn; naive_solver.
Qed.

(** The ranking of stores by sales under promotion: one entry per store
    that has a row with a promotion count above 0, holding the sum of the
    sales of these rows only, in descending order of the sum, cut at 10. *)
Theorem promo_sales_by_store_promoted (df : frame) :
  "store_nbr" ∈ columns df → "sales" ∈ columns df →
  "onpromotion" ∈ columns df →
  numeric_column "sales" df = true → numeric_column "onpromotion" df = true →
  ∃ full,
    promo_sales_by_store df = Ok (head_ 10 full) ∧
    columns full = ["store_nbr"; "sales"] ∧
    NoDup (col "store_nbr" <$> rows full) ∧
    descending (col "sales" <$> rows full) ∧
    (∀ b, b ∈ col "store_nbr" <$> rows full
          ↔ b ≠ NA ∧ ∃ r, r ∈ rows df ∧ gt_0 "onpromotion" r = true
                          ∧ col "store_nbr" r = b) ∧
    ∀ x, x ∈ rows full →
      col "sales" x
      = Num (sum_ (col "sales" <$> List.filter
                     (λ r, gt_0 "onpromotion" r
                           && bool_decide (col "store_nbr" r
                                           = col "store_nbr" x)) (rows df))).
Proof.
  intros Hk Hv Ho Hnv Hno. unfold promo_sales_by_store, promo_df.
  rewrite measure_ok by done. cbn [mbind result_bind].
  destruct (ranking_full "store_nbr" "sales" 10
              (where_ (gt_0 "onpromotion") df)) as (full & Hr & Hg & Hd);
    [done|done|done|by apply numeric_column_where|].
  exists full. split; [done|].
  apply grouped_by_where in Hg as (Hc & Hnd & Hin & Hval).
  split; [done|]. split; [done|]. split; [done|]. split; [done|].
  intros x Hx. by rewrite (Hval x Hx).
Qed.

(** The ranking of the stores of the selected state: one entry per store
    with a row of that state, holding the sum of the sales of the store's
    rows of that state, in descending order, cut at 10. Selecting a null
    selects no row. *)
Theorem sales_store_rank_of_state (df : frame) (state_selected : cell) :
  "state" ∈ columns df → "store_nbr" ∈ columns df → "sales" ∈ columns df →
  numeric_column "sales" df = true →
  ∃ sub full,
    df_state df state_selected = Ok sub ∧
    (∀ r, r ∈ rows sub ↔ r ∈ rows df ∧ col "state" r = state_selected
                           ∧ state_selected ≠ NA) ∧
    sales_store_rank sub = Ok (head_ 10 full) ∧
    columns full = ["store_nbr"; "sales"] ∧
    NoDup (col "store_nbr" <$> rows full) ∧
    descending (col "sales" <$> rows full) ∧
    (∀ b, b ∈ col "store_nbr" <$> rows full
          ↔ b ≠ NA ∧ ∃ r, r ∈ rows sub ∧ col "store_nbr" r = b) ∧
    ∀ x, x ∈ rows full →
      col "sales" x
      = Num (sum_ (col "sales" <$> List.filter
                     (λ r, bool_decide (col "store_nbr" r = col "store_nbr" x))
                     (rows sub))).
Proof.
  intros Hst Hk Hv Hnv. unfold df_state. rewrite key_ok by done.
  destruct (ranking_full "store_nbr" "sales" 10
              (where_ (eq_ "state" state_selected) df)) as (full & Hr & Hg & Hd);
    [done|done|done|by apply numeric_column_where|].
  exists (where_ (eq_ "state" state_selected) df), full.
  split; [done|]. split.
  { intros r. by rewrite elem_of_where, eq_true. }
  split; [exact Hr|].
  destruct Hg as (Hc & Hnd & Hin & Hval).
  split; [done|]. split; [done|]. split; [done|]. split; [done|].
  intros x Hx. by rewrite (Hval x Hx), get_group_single.
Qed.

(** The sales by year of the selected store, on a dataset whose years are
    of one type: one row per year of a row of the store, in ascending order
    of the year, holding the sum of the sales of the store in that year. *)
Theorem sales_by_year_of_store (df : frame) (store_selected : cell) :
  "store_nbr" ∈ columns df → "year" ∈ columns df → "sales" ∈ columns df →
  numeric_column "sales" df = true →
  comparable "year" df = true →
  ∃ sub t,
    df_store df store_selected = Ok sub ∧
    (∀ r, r ∈ rows sub ↔ r ∈ rows df ∧ col "store_nbr" r = store_selected
                           ∧ store_selected ≠ NA) ∧
    sales_by_year sub = Ok t ∧
    columns t = ["year"; "sales"] ∧
    NoDup (col "year" <$> rows t) ∧
    ascending (col "year" <$> rows t) ∧
    (∀ b, b ∈ col "year" <$> rows t
          ↔ b ≠ NA ∧ ∃ r, r ∈ rows sub ∧ col "year" r = b) ∧
    ∀ x, x ∈ rows t →
      col "sales" x
      = Num (sum_ (col "sales" <$> List.filter
                     (λ r, bool_decide (col "year" r = col "year" x))
                     (rows sub))).
Proof.
  intros Hk Hy Hv Hnv Hcmp. unfold df_store. rewrite key_ok by done.
  eexists _, _. split; [done|]. split.
  { intros r. by rewrite elem_of_where, eq_true. }
  unfold sales_by_year.
  rewrite key_ok, measure_ok by (done || by apply numeric_column_where).
  rewrite sort_values_key_sorted by (done || by apply comparable_where).
  split; [done|].
  pose proof (groupby_agg_grouped_by "year" "sales" agg_sum
                (where_ (eq_ "store_nbr" store_selected) df)) as Hg.
  destruct Hg as (Hc & Hnd & Hin & Hval); [done|].
  split; [done|]. split; [done|].
  split; [rewrite col_key_reset_index by done; apply buckets_ascending|].
  split; [done|].
  intros x Hx. by rewrite (Hval x Hx), get_group_single.
Qed.


(** ** Sales with and without promotion *)

Lemma filter_fmap_list {A B} (g : A → B) (p : B → bool) (l : list A) :
  List.filter p (g <$> l) = g <$> List.filter (λ x, p (g x)) l.
Proof.
  induction l as [|x l IH]; [done|]. csimpl.
  destruct (p (g x)); csimpl; by rewrite IH.
Qed.

(** A list in ascending order without repetition whose elements are [a] or
    [b], [a] being the smaller. *)
Lemma ascending_two (a b : cell) (l : list cell) :
  cell_leb b a = false → NoDup l → ascending l →
  (∀ x, x ∈ l → x = a ∨ x = b) →
  l = (if decide (a ∈ l) then [a] else []) ++
      (if decide (b ∈ l) then [b] else []).
Proof.
  intros Hba Hnd Hasc Hin.
  assert (a ≠ b) as Hab by (intros ->; by rewrite cell_leb_refl in Hba).
  destruct l as [|x [|y [|z l]]].
  - rewrite !decide_False; [done|by intros ?%elem_of_nil..].
  - destruct (Hin x) as [->| ->]; [by left|..].
    + rewrite decide_True by by left.
      rewrite decide_False; [done|].
      by intros [?|?%elem_of_nil]%elem_of_cons.
    + rewrite decide_False by by intros [?|?%elem_of_nil]%elem_of_cons.
      by rewrite decide_True by by left.
  - apply NoDup_cons in Hnd as [Hx _].
    apply Sorted_inv in Hasc as [_ Hxy]. apply HdRel_inv in Hxy.
    destruct (Hin x) as [->| ->]; [by left|..];
      (destruct (Hin y) as [->| ->]; [by right; left|..]).
    + exfalso. apply Hx. by left.
    + rewrite decide_True by by left.
      by rewrite decide_True by by right; left.
    + congruence.
    + exfalso. apply Hx. by left.
  - exfalso. apply NoDup_cons in Hnd as [Hx Hnd].
    apply NoDup_cons in Hnd as [Hy _].
    pose proof (Hin x ltac:(set_solver)) as Ex.
    pose proof (Hin y ltac:(set_solver)) as Ey.
    pose proof (Hin z ltac:(set_solver)) as Ez.
    destruct Ex as [-> | ->], Ey as [-> | ->], Ez as [-> | ->]; set_solver.
Qed.

Lemma promo_flag_con (r : row) :
  promo_flag r = Str "Con promoción" ↔ gt_0 "onpromotion" r = true.
Proof. unfold promo_flag. by destruct (gt_0 "onpromotion" r). Qed.

Lemma promo_flag_sin (r : row) :
  promo_flag r = Str "Sin promoción" ↔ gt_0 "onpromotion" r = false.
Proof. unfold promo_flag. by destruct (gt_0 "onpromotion" r). Qed.

(** The comparison of sales with and without promotion has at most two
    rows: under the first label the mean of the sales of the rows with a
    promotion count above 0, when there is such a row, and under the second
    label the mean of the sales of the other rows, when there is one. *)
Theorem promo_compare_two_groups (df : frame) :
  "sales" ∈ columns df → "onpromotion" ∈ columns df →
  numeric_column "sales" df = true → numeric_column "onpromotion" df = true →
  let promoted := List.filter (gt_0 "onpromotion") (rows df) in
  let others := List.filter (λ r, negb (gt_0 "onpromotion" r)) (rows df) in
  let entry (flag : string) (rs : list row) : list row :=
    match rs with
    | [] => []
    | _ => [<["sales" := agg_mean (col "sales" <$> rs)]>
              (<["promo_flag" := Str flag]> ∅)]
    end in
  promo_compare df
  = Ok (Frame ["promo_flag"; "sales"]
          (entry "Con promoción" promoted ++ entry "Sin promoción" others)).
Proof.
  intros Hs Ho Hns Hno. cbv zeta. unfold promo_compare.
  rewrite measure_ok by done.
  set (g := λ r : row, <["promo_flag" := promo_flag r]> r).
  set (df' := setitem "promo_flag" (promo_flag <$> rows df) df).
  assert (Hrows : rows df' = g <$> rows df) by apply setitem_fmap.
  assert (Hflag : ∀ r, col "promo_flag" (g r) = promo_flag r).
  { intros r. unfold g. by rewrite col_insert_eq. }
  assert (Hsales : ∀ r, col "sales" (g r) = col "sales" r).
  { intros r. unfold g. by rewrite col_insert_ne. }
  rewrite mean_by_ok.
  2:{ apply columns_setitem_new. }
  2:{ by apply columns_setitem_old. }
  2:{ unfold numeric_column. rewrite Hrows. apply forallb_forall.
      intros x (r & <- & Hr)%in_map_iff. rewrite Hsales.
      unfold numeric_column in Hns. rewrite forallb_forall in Hns.
      by apply Hns. }
  f_equal. apply frame_eq; [done|]. rewrite reset_index_single, Hrows.
  assert (Hgroup : ∀ p : row → bool, ∀ flag,
            (∀ r, promo_flag r = Str flag ↔ p r = true) →
            col "sales" <$> get_group ["promo_flag"] [Str flag] (g <$> rows df)
            = col "sales" <$> List.filter p (rows df)).
  { intros p flag Hp. rewrite get_group_single, filter_fmap_list.
    rewrite <- list_fmap_compose.
    rewrite (filter_ext _ p).
    - apply list_fmap_ext. intros i r _. apply Hsales.
    - intros r. rewrite Hflag. destruct (p r) eqn:Hpr.
      + apply bool_decide_eq_true, Hp, Hpr.
      + apply bool_decide_eq_false. intros Hf%Hp. congruence. }
  assert (Hmem : ∀ p : row → bool, ∀ flag,
            (∀ r, promo_flag r = Str flag ↔ p r = true) →
            Str flag ∈ buckets "promo_flag" (g <$> rows df)
            ↔ List.filter p (rows df) ≠ []).
  { intros p flag Hp. rewrite buckets_elem_of. split.
    - intros (_ & x & (r & -> & Hr)%list_elem_of_fmap & Hx) Hnil.
      rewrite Hflag in Hx. apply Hp in Hx.
      assert (r ∈ List.filter p (rows df)) as Hin
        by (apply list_elem_of_In, filter_In; split;
            [by apply list_elem_of_In|done]).
      rewrite Hnil in Hin. by apply elem_of_nil in Hin.
    - intros Hne. split; [done|].
      destruct (List.filter p (rows df)) as [|r rs] eqn:Hf; [done|].
      assert (r ∈ List.filter p (rows df)) as Hin
        by (rewrite Hf; by left).
      apply list_elem_of_In, filter_In in Hin as [Hr Hpr].
      exists (g r). split; [apply list_elem_of_fmap; exists r; split;
                             [done|by apply list_elem_of_In]|].
      rewrite Hflag. by apply Hp. }
  assert (Hneg : ∀ r, promo_flag r = Str "Sin promoción"
                      ↔ negb (gt_0 "onpromotion" r) = true).
  { intros r. rewrite promo_flag_sin. by destruct (gt_0 "onpromotion" r). }
  rewrite (ascending_two (Str "Con promoción") (Str "Sin promoción")
             (buckets "promo_flag" (g <$> rows df)));
    [|done|apply buckets_NoDup|apply buckets_ascending|].
  2:{ intros b (_ & x & (r & -> & _)%list_elem_of_fmap & <-)%buckets_elem_of.
      rewrite Hflag. unfold promo_flag.
      destruct (gt_0 "onpromotion" r); auto. }
  rewrite fmap_app. f_equal.
  - destruct (decide (Str "Con promoción"
                        ∈ buckets "promo_flag" (g <$> rows df))) as [Hin|Hin].
    + apply (Hmem _ _ promo_flag_con) in Hin.
      rewrite fmap_cons, fmap_nil, (Hgroup _ _ promo_flag_con).
      by destruct (List.filter (gt_0 "onpromotion") (rows df)).
    + destruct (List.filter (gt_0 "onpromotion") (rows df)) eqn:Hf; [done|].
      exfalso. apply Hin, (Hmem _ _ promo_flag_con). by rewrite Hf.
  - destruct (decide (Str "Sin promoción"
                        ∈ buckets "promo_flag" (g <$> rows df))) as [Hin|Hin].
    + apply (Hmem _ _ Hneg) in Hin.
      rewrite fmap_cons, fmap_nil, (Hgroup _ _ Hneg).
      by destruct (List.filter (λ r, negb (gt_0 "onpromotion" r)) (rows df)).
    + destruct (List.filter (λ r, negb (gt_0 "onpromotion" r)) (rows df))
        eqn:Hf; [done|].
      exfalso. apply Hin, (Hmem _ _ Hneg). by rewrite Hf.
Qed.

(** ** The leading product of each store *)




(** The last sort of [top_product_per_store] is by the sums, which are
    numbers; the first is by two columns. *)
Lemma top_product_per_store_Ok (df : frame) :
  "store_nbr" ∈ columns df → "family" ∈ columns df → "sales" ∈ columns df →
  numeric_column "sales" df = true →
  ∃ t, top_product_per_store df = Ok t.
Proof.
  intros Hst Hfa Hsa Hnum.
  unfold top_product_per_store. rewrite !key_ok, measure_ok by done.
  rewrite sort_values_ok;
    [|cbn; repeat (apply Forall_cons_2; [set_solver|]); apply Forall_nil_2
     |by intros c asc [=]].
  cbn [mbind result_bind]. unfold groupby_head_1. cbn [columns rows].
  rewrite key_ok by (cbn; set_solver). cbn [mbind result_bind].
  rewrite sort_values_ok; [by eexists| |].
  - cbn. repeat (apply Forall_cons_2; [set_solver|]). apply Forall_nil_2.
  - intros c asc [= <- _]. apply comparable_values. cbn [rows].
    intros x [Hx%list_elem_of_In%filter_In _]%unique_by_elem_of.
    destruct Hx as [Hx%list_elem_of_In%stable_sort_elem_of _].
    apply col_value_reset_index in Hx as [s ->]. apply agg_sum_numeric.
Qed.


(** ** Months with data *)

Lemma select_Ok (cs : list string) (df t : frame) :
  select cs df = Ok t → Forall (λ c, c ∈ columns df) cs.
Proof.
  unfold select. destruct (filter (λ c, c ∉ columns df) cs) eqn:Hf; [|done].
  intros _. apply Forall_forall. intros c Hc.
  destruct (decide (c ∈ columns df)) as [|Hn]; [done|].
  assert (c ∈ filter (λ c, c ∉ columns df) cs) as Hin
    by by apply list_elem_of_filter.
  rewrite Hf in Hin. by apply elem_of_nil in Hin.
Qed.

Lemma unique_by_length_le {A K} `{EqDecision K} (f : A → K) (seen : list K)
    (l : list A) :
  (length (unique_by f seen l) ≤ length l)%nat.
Proof.
  revert seen. induction l as [|x l IH]; intros seen; cbn; [done|].
  destruct (decide (f x ∈ seen)); cbn.
  - specialize (IH seen). lia.
  - specialize (IH (f x :: seen)). lia.
Qed.

Section months.
Context `{Text}.

(** The count of months with data is the number of distinct pairs of year
    and month among the rows, a null counting as a value. The monthly table
    of oil price and sales has at most that many rows: it leaves out the
    pairs with a null and the months without a known oil price. *)
Theorem months_available_counts (df : frame) :
  Forall (λ c, c ∈ columns df) ["dcoilwtico"; "year"; "month"; "sales"] →
  numeric_column "dcoilwtico" df = true →
  numeric_column "sales" df = true →
  ∃ n pairs t,
    months_available df = Ok n ∧ n = length pairs ∧
    NoDup pairs ∧
    (∀ k, k ∈ pairs ↔ ∃ r, r ∈ rows df ∧ k = [col "year" r; col "month" r]) ∧
    (n ≤ length (rows df))%nat ∧
    oil_month df = Ok t ∧ (length (rows t) ≤ n)%nat.
Proof.
  intros Hcs Hno Hns. pose proof Hcs as Hall.
  rewrite !Forall_cons in Hcs. destruct Hcs as (Ho & Hy & Hm & Hs & _).
  set (ks := ["year"; "month"]).
  set (kept := unique_by (keys_of ks) [] (reindex ks <$> rows df)).
  assert (Hkeys : keys_of ks <$> (reindex ks <$> rows df)
                  = keys_of ks <$> rows df).
  { rewrite <- list_fmap_compose. apply list_fmap_ext. intros i r _.
    by apply keys_of_reindex. }
  exists (length kept), (keys_of ks <$> kept). eexists.
  split; [|split; [|split; [|split; [|split; [|split]]]]].
  - unfold months_available. rewrite select_ok
      by (repeat (apply Forall_cons_2; [done|]); apply Forall_nil_2).
    cbn [mbind result_bind columns]. rewrite drop_duplicates_ok
      by (cbn [columns]; repeat (apply Forall_cons_2; [set_solver|]);
          apply Forall_nil_2).
    done.
  - by rewrite length_fmap.
  - apply unique_by_NoDup.
  - intros k. unfold kept. rewrite unique_by_key_elem_of, Hkeys.
    rewrite list_elem_of_fmap. split.
    + intros [(r & -> & Hr) _]. by exists r.
    + intros (r & Hr & ->). split; [by exists r|]. by intros ?%elem_of_nil.
  - unfold kept. etrans; [apply unique_by_length_le|].
    by rewrite length_fmap.
  - by apply oil_month_rows.
  - cbn [rows]. rewrite length_fmap.
    rewrite <- (length_fmap (keys_of ks) kept).
    apply submseteq_length, NoDup_submseteq; [apply group_index_NoDup|].
    intros k (_ & r & Hr & <-)%group_index_elem_of.
    unfold kept. rewrite unique_by_key_elem_of, Hkeys.
    split; [|by intros ?%elem_of_nil].
    apply list_elem_of_fmap. exists r. split; [done|].
    by apply list_elem_of_In, filter_In in Hr as [?%list_elem_of_In _].
Qed.
End months.

(** ** The transaction view, again *)

Lemma reindex_reindex (cs : list string) (r : row) :
  reindex cs (reindex cs r) = reindex cs r.
Proof.
  apply map_eq. intros c. rewrite !lookup_reindex.
  destruct (decide (c ∈ cs)); [|done]. by rewrite col_reindex.
Qed.

Lemma unique_by_NoDup_id {A K} `{EqDecision K} (f : A → K) (seen : list K)
    (l : list A) :
  NoDup (f <$> l) → (∀ x, x ∈ l → f x ∉ seen) → unique_by f seen l = l.
Proof.
  revert seen. induction l as [|x l IH]; intros seen Hnd Hseen; [done|].
  csimpl in Hnd. apply NoDup_cons in Hnd as [Hx Hnd]. cbn.
  rewrite decide_False by (apply Hseen; by left). f_equal.
  apply IH; [done|]. intros y Hy [Heq|Hin]%elem_of_cons.
  - apply Hx, list_elem_of_fmap. by exists y.
  - eapply Hseen; [by right|done].
Qed.

(** De-duplicating the transaction view again changes nothing: it has the
    five columns and one row per pair of date and store. *)
Theorem transactions_base_idempotent (df base : frame) :
  transactions_base df = Ok base → transactions_base base = Ok base.
Proof.
  intros Hbase.
  assert (Hcs : Forall (λ c, c ∈ columns df)
                  ["date"; "store_nbr"; "state"; "transactions"; "year"]).
  { unfold transactions_base in Hbase. cbv zeta in Hbase.
    destruct (select _ df) as [t|e] eqn:Hsel; [|done].
    by eapply select_Ok. }
  rewrite transactions_base_rows in Hbase by done. injection Hbase as <-.
  rewrite transactions_base_rows
    by (cbn [columns]; apply Forall_forall; by intros c Hc).
  cbn [rows]. f_equal. f_equal.
  set (cols := ["date"; "store_nbr"; "state"; "transactions"; "year"]).
  set (ks := ["date"; "store_nbr"]).
  set (kept := unique_by (keys_of ks) [] (reindex cols <$> rows df)).
  assert (Hre : reindex cols <$> kept = kept).
  { rewrite <- (list_fmap_id kept) at 2. apply list_fmap_ext.
    intros i x Hx. apply list_elem_of_lookup_2 in Hx.
    apply unique_by_elem_of in Hx as [(r & -> & _)%list_elem_of_fmap _].
    apply reindex_reindex. }
  rewrite Hre. apply unique_by_NoDup_id; [apply unique_by_NoDup|].
  intros x _. by intros ?%elem_of_nil.
Qed.

(** ** [safe_int] *)

(** [safe_int] returns an integer or its argument: it leaves an integer as
    it is, and applying it twice is applying it once. *)
Theorem safe_int_stable (int_literal : string → option Z) (x : cell) :
  (∀ z, safe_int int_literal (num z) = num z) ∧
  safe_int int_literal (safe_int int_literal x) = safe_int int_literal x ∧
  ((∃ z, safe_int int_literal x = num z) ∨ safe_int int_literal x = x).
Proof.
  assert (Hnum : ∀ z, safe_int int_literal (num z) = num z).
  { intros z. unfold safe_int, num. cbn. by rewrite trunc_num. }
  split; [done|]. destruct (int_ int_literal x) as [z|] eqn:E.
  - assert (safe_int int_literal x = num z) as Hx
      by (unfold safe_int; by rewrite E).
    rewrite !Hx. split; [apply Hnum|]. left. by exists z.
  - assert (safe_int int_literal x = x) as Hx
      by (unfold safe_int; by rewrite E).
    rewrite !Hx. split; [done|by right].
Qed.

(** ** The transactions of a state on offer *)

Lemma transactions_base_Ok (df base : frame) :
  transactions_base df = Ok base →
  Forall (λ c, c ∈ columns df)
    ["date"; "store_nbr"; "state"; "transactions"; "year"] ∧
  base = {| columns := ["date"; "store_nbr"; "state"; "transactions"; "year"];
            rows := unique_by (keys_of ["date"; "store_nbr"]) []
                      (reindex
                         ["date"; "store_nbr"; "state"; "transactions"; "year"]
                         <$> rows df) |}.
Proof.
  intros Hbase.
  assert (Hcs : Forall (λ c, c ∈ columns df)
                  ["date"; "store_nbr"; "state"; "transactions"; "year"]).
  { unfold transactions_base in Hbase. cbv zeta in Hbase.
    destruct (select _ df) as [t|e] eqn:Hsel; [|done].
    by eapply select_Ok. }
  split; [done|]. rewrite transactions_base_rows in Hbase by done.
  by injection Hbase as <-.
Qed.

Lemma transactions_base_row (df base : frame) (x : row) :
  transactions_base df = Ok base → x ∈ rows base →
  ∃ r, r ∈ rows df ∧
       x = reindex ["date"; "store_nbr"; "state"; "transactions"; "year"] r.
Proof.
  intros [_ ->]%transactions_base_Ok. cbn [rows].
  intros [(r & -> & Hr)%list_elem_of_fmap _]%unique_by_elem_of. by exists r.
Qed.

(** When the state of a row depends only on its date and store, every state
    of the dataset has a row in the transaction view, so the view of a
    state on offer is not empty; its rows are rows of that state. *)
Theorem tx_state_of_state (df base : frame) (state_selected : cell) :
  transactions_base df = Ok base →
  (∀ r1 r2, r1 ∈ rows df → r2 ∈ rows df →
     col "date" r1 = col "date" r2 → col "store_nbr" r1 = col "store_nbr" r2 →
     col "state" r1 = col "state" r2) →
  state_selected ≠ NA →
  (∃ r, r ∈ rows df ∧ col "state" r = state_selected) →
  ∃ tx, tx_state base state_selected = Ok tx ∧
        columns tx = ["date"; "store_nbr"; "state"; "transactions"; "year"] ∧
        rows tx ≠ [] ∧
        ∀ x, x ∈ rows tx ↔ x ∈ rows base ∧ col "state" x = state_selected.
Proof.
  intros Hbase Hfun Hna (r & Hr & Hrs).
  pose proof (transactions_base_Ok _ _ Hbase) as [Hcs Heq].
  set (cols := ["date"; "store_nbr"; "state"; "transactions"; "year"]) in *.
  set (ks := ["date"; "store_nbr"]) in *.
  assert (Hsub : ks ⊆ cols) by set_solver.
  unfold tx_state. rewrite key_ok by (rewrite Heq; cbn; set_solver).
  eexists. split; [done|]. split; [by rewrite Heq|].
  assert (Hin : ∀ x, x ∈ rows (where_ (eq_ "state" state_selected) base)
                     ↔ x ∈ rows base ∧ col "state" x = state_selected).
  { intros x. rewrite elem_of_where, eq_true. naive_solver. }
  split; [|done].
  assert (keys_of ks r ∈ keys_of ks <$> rows base) as Hk.
  { rewrite Heq. cbn [rows]. apply unique_by_key_elem_of.
    split; [|by intros ?%elem_of_nil].
    rewrite <- list_fmap_compose. apply list_elem_of_fmap. exists r.
    split; [|done]. symmetry. by apply keys_of_reindex. }
  apply list_elem_of_fmap in Hk as (x & Hkx & Hx).
  destruct (transactions_base_row _ _ x Hbase Hx) as (r' & Hr' & ->).
  fold cols in Hkx, Hx. rewrite keys_of_reindex in Hkx by done.
  injection Hkx as Hd Hs.
  assert (reindex cols r' ∈ rows (where_ (eq_ "state" state_selected) base))
    as Hw.
  { apply Hin. split; [done|]. rewrite col_reindex by set_solver.
    rewrite <- Hrs. by apply Hfun. }
  intros Hnil. rewrite Hnil in Hw. by apply elem_of_nil in Hw.
Qed.

(** ** The dashboard on a loaded table *)

Lemma ranking_Ok (k v : string) (n : nat) (df : frame) :
  k ≠ v → k ∈ columns df → v ∈ columns df → numeric_column v df = true →
  ∃ t, ranking k v n df = Ok t.
Proof.
  intros. destruct (ranking_full k v n df) as (full & Hr & _); try done.
  by eexists.
Qed.

Lemma mean_by_sorted_Ok (k v : string) (df : frame) :
  k ≠ v → k ∈ columns df → v ∈ columns df → numeric_column v df = true →
  comparable k df = true →
  ∃ t, (mean_by k v df ≫= sort_values [(k, true)]) = Ok t.
Proof.
  intros. rewrite mean_by_ok by done. cbn [mbind result_bind].
  rewrite sort_values_key_sorted by done. by eexists.
Qed.

Lemma comparable_reindex (c : string) (cs : list string) (df : frame)
    (rs : list row) :
  comparable c df = true →
  (∀ x, x ∈ rs → ∃ r, r ∈ rows df ∧ x = reindex cs r) → c ∈ cs →
  comparable c {| columns := cs; rows := rs |} = true.
Proof.
  rewrite !comparable_spec. cbn [rows]. intros Hall Hrs Hc.
  intros x1 x2 (r1 & Hr1 & ->)%Hrs (r2 & Hr2 & ->)%Hrs.
  rewrite !col_reindex by done. by apply Hall.
Qed.

Lemma numeric_column_reindex (c : string) (cs : list string) (df : frame)
    (rs : list row) :
  numeric_column c df = true →
  (∀ x, x ∈ rs → ∃ r, r ∈ rows df ∧ x = reindex cs r) → c ∈ cs →
  numeric_column c {| columns := cs; rows := rs |} = true.
Proof.
  intros Hn Hrs Hc. unfold numeric_column in *. cbn [rows].
  rewrite forallb_forall in Hn. apply forallb_forall.
  intros x (r & Hr & ->)%list_elem_of_In%Hrs.
  rewrite col_reindex by done. by apply Hn, list_elem_of_In.
Qed.

Section dashboard.
Context `{Text}.

(** On a loaded table that also has the columns store_nbr, family, state,
    day_of_week, holiday_type and a numeric dcoilwtico, and whose years,
    months and weeks are each of one type, the counts, sums and tables of
    the four tabs are computed, whichever store and state are selected: the
    loader provides the other columns the dashboard reads, with numbers
    where the queries compute. The list of states is computed when the
    states are text. *)
Theorem dashboard_on_loaded_data (fs : file_system) (df : frame)
    (store_selected state_selected : cell) :
  load_data fs = Ok df →
  Forall (λ c, c ∈ columns df)
    ["store_nbr"; "family"; "state"; "day_of_week"; "holiday_type";
     "dcoilwtico"] →
  numeric_column "dcoilwtico" df = true →
  Forall (λ c, comparable c df = true) ["year"; "month"; "week"] →
  ((∃ n, total_stores df = Ok n) ∧ (∃ n, total_products df = Ok n) ∧
   (∃ n, total_states df = Ok n) ∧ (∃ n, months_available df = Ok n) ∧
   (∃ t, top_products df = Ok t) ∧ (∃ t, sales_by_store df = Ok t) ∧
   (∃ t, promo_sales_by_store df = Ok t) ∧
   (∃ t, dow_avg df = Ok t) ∧ (∃ t, week_avg df = Ok t) ∧
   (∃ t, month_avg df = Ok t)) ∧
  (∃ sub, df_store df store_selected = Ok sub ∧
     (∃ t, sales_by_year sub = Ok t) ∧ (∃ n, products_sold sub = Ok n) ∧
     (∃ n, promo_products_sold sub = Ok n) ∧ (∃ q, promo_sales sub = Ok q) ∧
     (∃ t, top_store_products sub = Ok t)) ∧
  (∃ sub base tx,
     df_state df state_selected = Ok sub ∧
     transactions_base df = Ok base ∧
     tx_state base state_selected = Ok tx ∧
     (∃ t, tx_year tx = Ok t) ∧ (∃ t, sales_store_rank sub = Ok t) ∧
     (∃ t, top_product_per_store sub = Ok t)) ∧
  ((∃ q, total_sales df = Ok q) ∧ (∃ q, promo_share df = Ok q) ∧
   (∃ t, promo_compare df = Ok t) ∧ (∃ t, holiday_avg df = Ok t) ∧
   (∃ t, oil_month df = Ok t)) ∧
  ((∀ r, r ∈ rows df → col "state" r = NA ∨ ∃ s, col "state" r = Str s) →
   ∃ l, states df = Ok l).
Proof.
  intros Hload Hcs Hoil Hcmp.
  destruct (loaded_types fs df Hload) as (Hcs' & Hns & Hno & Hnt).
  rewrite !Forall_cons in Hcmp. destruct Hcmp as (Hcy & Hcm & Hcw & _).
  rewrite !Forall_cons in Hcs. rewrite !Forall_cons in Hcs'.
  destruct Hcs as (Hsto & Hfam & Hsta & Hdow & Hhol & Hdco & _).
  destruct Hcs' as (Hdat & Hsal & Honp & Htra & Hyea & Hmon & Hwee & _).
  split; [|split; [|split; [|split]]].
  - unfold total_stores, total_products, total_states.
    rewrite !getitem_ok by done. cbn [mbind result_bind].
    split; [by eexists|]. split; [by eexists|]. split; [by eexists|].
    split.
    { unfold months_available. rewrite select_ok
        by (repeat (apply Forall_cons_2; [done|]); apply Forall_nil_2).
      cbn [mbind result_bind columns]. rewrite drop_duplicates_ok
        by (cbn [columns]; repeat (apply Forall_cons_2; [set_solver|]);
            apply Forall_nil_2).
      by eexists. }
    split; [by apply ranking_Ok|]. split; [by apply ranking_Ok|].
    split.
    { unfold promo_sales_by_store, promo_df. rewrite measure_ok by done.
      cbn [mbind result_bind].
      apply ranking_Ok; [done|done|done|by apply numeric_column_where]. }
    split.
    { unfold dow_avg. rewrite key_ok, measure_ok by done. by eexists. }
    split; by apply mean_by_sorted_Ok.
  - unfold df_store. rewrite key_ok by done. eexists. split; [done|].
    set (sub := where_ (eq_ "store_nbr" store_selected) df).
    assert (numeric_column "sales" sub = true) as Hns'
      by by apply numeric_column_where.
    assert (numeric_column "onpromotion" sub = true) as Hno'
      by by apply numeric_column_where.
    split.
    { unfold sales_by_year. rewrite key_ok, measure_ok by done.
      rewrite sort_values_key_sorted by (done || by apply comparable_where).
      by eexists. }
    unfold products_sold, promo_products_sold, promo_sales.
    rewrite !measure_ok by (done || by apply numeric_column_where).
    rewrite !getitem_ok by done. cbn [mbind result_bind].
    split; [by eexists|]. split; [by eexists|]. split; [by eexists|].
    by apply ranking_Ok.
  - unfold df_state. rewrite key_ok by done.
    rewrite transactions_base_rows
      by (repeat (apply Forall_cons_2; [done|]); apply Forall_nil_2).
    set (sub := where_ (eq_ "state" state_selected) df).
    set (base := {| columns := ["date"; "store_nbr"; "state"; "transactions";
                                "year"];
                    rows := unique_by (keys_of ["date"; "store_nbr"]) []
                              (reindex ["date"; "store_nbr"; "state";
                                        "transactions"; "year"]
                                 <$> rows df) |}).
    exists sub, base, (where_ (eq_ "state" state_selected) base).
    split; [done|]. split; [done|].
    split; [unfold tx_state; by rewrite key_ok by (cbn; set_solver)|].
    assert (numeric_column "sales" sub = true) as Hns'
      by by apply numeric_column_where.
    split.
    { unfold tx_year. rewrite key_ok by (cbn; set_solver).
      rewrite measure_ok; [|cbn; set_solver|].
      - rewrite sort_values_key_sorted; [by eexists|done|].
        apply comparable_where.
        apply (comparable_reindex _ _ df); [done| |set_solver].
        intros x [(r & -> & Hr)%list_elem_of_fmap _]%unique_by_elem_of.
        by exists r.
      - apply numeric_column_where.
        apply (numeric_column_reindex _ _ df); [done| |set_solver].
        intros x [(r & -> & Hr)%list_elem_of_fmap _]%unique_by_elem_of.
        by exists r. }
    split; [by apply ranking_Ok|].
    destruct (top_product_per_store_Ok sub) as [t Ht]; try done.
    by exists t.
  - unfold promo_share, total_sales, promo_sales.
    rewrite !measure_ok by (done || by apply numeric_column_where).
    cbn [mbind result_bind]. split; [by eexists|]. split; [by eexists|].
    split.
    { unfold promo_compare. rewrite measure_ok by done.
      rewrite mean_by_ok; [by eexists|apply columns_setitem_new
                          |by apply columns_setitem_old|].
      unfold numeric_column. rewrite setitem_fmap. apply forallb_forall.
      intros x (r & <- & Hr)%in_map_iff. rewrite col_insert_ne by done.
      unfold numeric_column in Hns. rewrite forallb_forall in Hns.
      by apply Hns. }
    split.
    { unfold holiday_avg. rewrite mean_by_ok by done.
      cbn [mbind result_bind]. rewrite sort_values_ok; [by eexists| |].
      - cbn. apply Forall_cons_2; [set_solver|apply Forall_nil_2].
      - intros c asc [= <- _]. apply comparable_aggregate, agg_mean_numeric. }
    rewrite oil_month_rows; [by eexists| |done|done].
    repeat (apply Forall_cons_2; [done|]). apply Forall_nil_2.
  - intros Htext. unfold states. rewrite getitem_ok by done.
    cbn [mbind result_bind]. unfold sorted_, raise_unless.
    rewrite same_type_text; [by eexists|].
    apply Forall_forall. intros b.
    rewrite unique_elem_of, dropna_elem_of, list_elem_of_fmap.
    intros (Hb & r & -> & Hr). by destruct (Htext r Hr).
Qed.

(** The transaction view of a loaded table: the loader provides date,
    transactions and year, so the view is built exactly when the table has
    the columns store_nbr and state; otherwise one of these two is reported
    as a missing key. *)
Theorem transactions_base_after_load (fs : file_system) (df : frame) :
  load_data fs = Ok df →
  ("store_nbr" ∈ columns df ∧ "state" ∈ columns df
   ↔ ∃ base, transactions_base df = Ok base) ∧
  ("store_nbr" ∉ columns df ∨ "state" ∉ columns df →
   ∃ c, transactions_base df = Err (KeyError c) ∧
        (c = "store_nbr" ∨ c = "state") ∧ c ∉ columns df).
Proof.
  intros Hload.
  destruct (loaded_types fs df Hload) as (Hcs & _).
  rewrite !Forall_cons in Hcs.
  destruct Hcs as (Hdat & _ & _ & Htra & Hyea & _).
  split.
  - split.
    + intros [Hsto Hsta]. eexists. apply transactions_base_rows.
      repeat (apply Forall_cons_2; [done|]). apply Forall_nil_2.
    + intros [base [Hcs _]%transactions_base_Ok].
      rewrite !Forall_cons in Hcs. by destruct Hcs as (_ & ? & ? & _).
  - intros Hmiss. unfold transactions_base. cbv zeta. unfold select.
    destruct (filter (λ c, c ∉ columns df)
                ["date"; "store_nbr"; "state"; "transactions"; "year"])
      as [|c l] eqn:Hf.
    + exfalso.
      assert (∀ c, c ∈ ["store_nbr"; "state"] → c ∈ columns df) as Hall.
      { intros c Hc. destruct (decide (c ∈ columns df)) as [|Hn]; [done|].
        assert (c ∈ filter (λ c, c ∉ columns df)
                      ["date"; "store_nbr"; "state"; "transactions"; "year"])
          as Hin by (apply list_elem_of_filter; set_solver).
        rewrite Hf in Hin. by apply elem_of_nil in Hin. }
      destruct Hmiss as [Hn|Hn]; apply Hn, Hall; set_solver.
    + exists c. split; [done|].
      assert (c ∈ filter (λ c, c ∉ columns df)
                    ["date"; "store_nbr"; "state"; "transactions"; "year"])
        as [Hn Hc]%list_elem_of_filter by (rewrite Hf; by left).
      split; [|done]. set_solver.
Qed.
End dashboard.

(** ** Grouping loses no sales *)

Lemma sum_Permutation (s1 s2 : list cell) : s1 ≡ₚ s2 → sum_ s1 = sum_ s2.
Proof.
  induction 1 as [|c s1 s2 _ IH|c d s|s1 s2 s3 _ IH1 _ IH2].
  - done.
  - by rewrite !sum_cons, IH.
  - rewrite !sum_cons. ring.
  - by rewrite IH1.
Qed.

Lemma sum_plus {A} (f g : A → Qc) (l : list A) :
  sum_ ((λ b, Num (f b + g b)) <$> l)
  = (sum_ ((λ b, Num (f b)) <$> l) + sum_ ((λ b, Num (g b)) <$> l))%Qc.
Proof.
  induction l as [|b l IH]; [done|]. rewrite !fmap_cons, !sum_cons, IH.
  cbn [addend]. ring.
Qed.

Lemma sum_zero {A} (l : list A) : sum_ ((λ _, Num 0) <$> l) = 0%Qc.
Proof.
  induction l as [|b l IH]; [done|]. rewrite fmap_cons, sum_cons, IH.
  cbn [addend]. ring.
Qed.

(** One row adds its value to the group of its key, and to no other. *)
Lemma sum_indicator (b0 : cell) (a : Qc) (bs : list cell) :
  NoDup bs →
  sum_ ((λ b, Num (if bool_decide (b0 = b) then a else 0)) <$> bs)
  = (if bool_decide (b0 ∈ bs) then a else 0)%Qc.
Proof.
  induction 1 as [|b bs Hb _ IH]; [done|].
  rewrite fmap_cons, sum_cons, IH. cbn [addend].
  destruct (decide (b0 = b)) as [->|Hne].
  - rewrite (bool_decide_eq_true_2 (b = b)) by done.
    rewrite (bool_decide_eq_false_2 (b ∈ bs)) by done.
    rewrite (bool_decide_eq_true_2 (b ∈ b :: bs)) by by left. ring.
  - rewrite (bool_decide_eq_false_2 (b0 = b)) by done.
    destruct (decide (b0 ∈ bs)) as [Hin|Hin].
    + rewrite !bool_decide_eq_true_2; [ring|by right|done].
    + rewrite !bool_decide_eq_false_2; [ring| |done].
      by intros [?|?]%elem_of_cons.
Qed.

Lemma sum_groups (k v : string) (bs : list cell) (rs : list row) :
  NoDup bs → NA ∉ bs →
  (∀ r, r ∈ rs → col k r ≠ NA → col k r ∈ bs) →
  sum_ ((λ b, Num (sum_ (col v <$> List.filter
                            (λ r, bool_decide (col k r = b)) rs))) <$> bs)
  = sum_ (col v <$> List.filter (λ r, notna (col k r)) rs).
Proof.
  intros Hnd Hna. induction rs as [|r rs IH]; intros Hin.
  - cbn. apply sum_zero.
  - assert (Hstep : ∀ b,
      sum_ (col v <$> List.filter (λ r, bool_decide (col k r = b)) (r :: rs))
      = ((if bool_decide (col k r = b) then addend (col v r) else 0)
         + sum_ (col v <$> List.filter (λ r, bool_decide (col k r = b)) rs))%Qc).
    { intros b. cbn [List.filter].
      destruct (bool_decide (col k r = b));
        [by rewrite fmap_cons, sum_cons|ring]. }
    set (f := λ b : cell,
           (if bool_decide (col k r = b) then addend (col v r) else 0)%Qc).
    set (g := λ b : cell,
           sum_ (col v <$> List.filter
                   (λ r, bool_decide (col k r = b)) rs)).
    rewrite (list_fmap_ext _ (λ b, Num (f b + g b)%Qc) bs)
      by (intros i b _; by rewrite Hstep).
    rewrite (sum_plus f g). unfold f, g.
    rewrite sum_indicator by done.
    rewrite IH by (intros r' Hr'; apply Hin; by right).
    cbn [List.filter]. destruct (col k r) eqn:Hk; cbn [notna isna negb].
    + rewrite bool_decide_eq_false_2 by done. ring.
    + rewrite bool_decide_eq_true_2, fmap_cons, sum_cons; [done|].
      rewrite <- Hk. apply Hin; [by left|by rewrite Hk].
    + rewrite bool_decide_eq_true_2, fmap_cons, sum_cons; [done|].
      rewrite <- Hk. apply Hin; [by left|by rewrite Hk].
    + rewrite bool_decide_eq_true_2, fmap_cons, sum_cons; [done|].
      rewrite <- Hk. apply Hin; [by left|by rewrite Hk].
Qed.

Lemma grouped_by_adds_up (k v : string) (df t : frame) :
  grouped_by k v agg_sum df t →
  sum_ (col v <$> rows t)
  = sum_ (col v <$> List.filter (λ r, notna (col k r)) (rows df)).
Proof.
  intros (_ & Hnd & Hin & Hval).
  rewrite <- (sum_groups k v (col k <$> rows t)); [|done|..].
  - rewrite <- list_fmap_compose. f_equal. apply list_fmap_ext.
    intros i x Hx%list_elem_of_lookup_2. cbn.
    by rewrite (Hval x Hx), get_group_single.
  - intros [? _]%Hin. done.
  - intros r Hr Hk. apply Hin. eauto.
Qed.

(** The sums of the ranking of stores, before it is cut at 30, add up to
    the sales of the rows that have a store: to the total of sales when no
    store is null. With at most 30 stores the bars of the chart add up to
    the total of sales. *)
Theorem sales_by_store_adds_up (df : frame) :
  "store_nbr" ∈ columns df → "sales" ∈ columns df →
  numeric_column "sales" df = true →
  ∃ full all,
    sales_by_store df = Ok (head_ 30 full) ∧ total_sales df = Ok all ∧
    sum_ (col "sales" <$> rows full)
    = sum_ (col "sales"
              <$> List.filter (λ r, notna (col "store_nbr" r)) (rows df)) ∧
    ((∀ r, r ∈ rows df → col "store_nbr" r ≠ NA) →
       sum_ (col "sales" <$> rows full) = all ∧
       ((nunique (col "store_nbr" <$> rows df) ≤ 30)%nat →
          head_ 30 full = full)).
Proof.
  intros Hk Hv Hnum.
  destruct (ranking_full "store_nbr" "sales" 30 df) as (full & Hr & Hg & _);
    try done.
  exists full, (sum_ (col "sales" <$> rows df)).
  split; [exact Hr|]. split; [unfold total_sales; by rewrite measure_ok|].
  pose proof (grouped_by_adds_up _ _ _ _ Hg) as Hsum.
  split; [done|]. intros Hall. split.
  - rewrite Hsum. f_equal. f_equal. apply forallb_filter_id.
    apply forallb_forall. intros r Hr'%list_elem_of_In.
    specialize (Hall r Hr'). by destruct (col "store_nbr" r).
  - intros Hn. rewrite nunique_buckets in Hn.
    rewrite <- (grouped_by_length _ _ _ _ _ Hg) in Hn.
    destruct full as [cs rs]. unfold head_. cbn [columns rows] in *.
    f_equal. by apply take_ge.
Qed.

(** ** The figures and tables of the example data *)

Example kpis_store_sales :
  total_stores store_sales = Ok 2%nat ∧
  total_products store_sales = Ok 3%nat ∧
  total_states store_sales = Ok 2%nat ∧
  months_available store_sales = Ok 2%nat ∧
  products_sold store_sales = Ok 2%nat ∧
  promo_products_sold store_sales = Ok 1%nat ∧
  states store_sales = Ok [Str "Guayas"; Str "Pichincha"].
Proof. repeat split; vm_compute; reflexivity. Qed.

(** 30 of the 100 sold were sold under promotion. *)
Example promo_share_store_sales :
  total_sales store_sales = Ok (of_Z 100) ∧
  promo_sales store_sales = Ok (of_Z 30) ∧
  promo_share store_sales = Ok (of_Z 30) ∧
  round_ (Q2Qc (1 # 3)) 2 = Q2Qc (33 # 100) ∧
  round_ (Q2Qc (1 # 8)) 2 = Q2Qc (12 # 100).
Proof.
  repeat split; try apply (f_equal Ok); apply Qc_is_canon; vm_compute;
    reflexivity.
Qed.

(** A return of 5 without promotion beside a sale of 10 under promotion:
    the share of sales under promotion is 200 per cent. *)
Example promo_share_above_100 :
  promo_share
    (Frame ["sales"; "onpromotion"]
       [list_to_map [("sales", num 10); ("onpromotion", num 1)];
        list_to_map [("sales", num (-5)); ("onpromotion", num 0)]])
  = Ok (of_Z 200).
Proof. apply (f_equal Ok), Qc_is_canon. vm_compute. reflexivity. Qed.

(** Store 1 sold 40 of DAIRY and 60 of MEATS, store 2 nothing of BOOKS. *)
Example top_product_per_store_store_sales :
  top_product_per_store store_sales
  = Ok (Frame ["store_nbr"; "family"; "sales"]
          [list_to_map [("store_nbr", num 1); ("family", Str "MEATS");
                        ("sales", num 60)];
           list_to_map [("store_nbr", num 2); ("family", Str "BOOKS");
                        ("sales", num 0)]]).
Proof. vm_compute. reflexivity. Qed.

(** A state that is a number beside a state that is text: the list of
    states cannot be sorted. *)
Example states_of_two_types :
  states (Frame ["state"]
            [list_to_map [("state", Str "Guayas")];
             list_to_map [("state", num 17)]])
  = Err (TypeError "state").
Proof. vm_compute. reflexivity. Qed.

Example safe_int_examples :
  safe_int integer (num 7) = num 7 ∧
  safe_int integer (Num (Q2Qc (-7 # 2))) = num (-3) ∧
  safe_int integer (Str "12") = num 12 ∧
  safe_int integer (Str "n/a") = Str "n/a" ∧
  safe_int integer NA = NA.
Proof. repeat split; vm_compute; reflexivity. Qed.

(** ** The theorems at the example data *)

Ltac in_columns df := unfold df; cbn [columns]; set_solver.

Lemma load_data_rows_and_columns_witness :
  let fs := partitions_full in
  let df := loaded_full in
  ∃ f1 f2,
    fs "data/parte_1.csv.gz" = Some f1 ∧ fs "data/parte_2.csv.gz" = Some f2 ∧
    let read := filter (λ c, c ≠ "Unnamed: 0")
                  (columns f1 ++ filter (λ c, c ∉ columns f1) (columns f2)) in
    columns df
      = read ++ filter (λ c, c ∉ read) ["year"; "month"; "week"] ∧
    length (rows df) = (length (rows f1) + length (rows f2))%nat ∧
    ∀ c, c ∈ read →
         c ∉ ["date"; "sales"; "onpromotion"; "transactions";
              "year"; "month"; "week"] →
         col c <$> rows df = col c <$> (rows f1 ++ rows f2).
Proof.
  cbv zeta.
  apply (load_data_rows_and_columns (H:=plain_text)
           partitions_full loaded_full).
  - vm_compute. reflexivity.
Defined.

Lemma load_data_column_types_witness :
  let df := loaded_full in
  Forall (λ c, c ∈ columns df)
    ["date"; "sales"; "onpromotion"; "transactions";
     "year"; "month"; "week"] ∧
  numeric_column "sales" df = true ∧
  numeric_column "onpromotion" df = true ∧
  numeric_column "transactions" df = true ∧
  ∀ x, x ∈ rows df →
    (col "date" x = NA ∨ ∃ ns, col "date" x = Timestamp ns) ∧
    (∃ q, col "sales" x = Num q) ∧
    (∃ z, col "onpromotion" x = num z) ∧
    (col "transactions" x = NA ∨ ∃ q, col "transactions" x = Num q).
Proof.
  cbv zeta.
  apply (load_data_column_types (H:=plain_text) partitions_full loaded_full).
  - vm_compute. reflexivity.
Defined.

Lemma counts_and_rankings_witness :
  let df := store_sales in
  ∃ products stores top by_store,
    total_products df = Ok products ∧ total_stores df = Ok stores ∧
    top_products df = Ok top ∧ sales_by_store df = Ok by_store ∧
    products = length (buckets "family" (rows df)) ∧
    stores = length (buckets "store_nbr" (rows df)) ∧
    length (rows top) = (10 `min` products)%nat ∧
    length (rows by_store) = (30 `min` stores)%nat.
Proof.
  cbv zeta.
  apply (counts_and_rankings store_sales).
  - in_columns store_sales.
  - in_columns store_sales.
  - in_columns store_sales.
  - reflexivity.
Defined.

Lemma products_sold_ordered_witness :
  let df_store := store_sales in
  ∃ promoted sold all,
    promo_products_sold df_store = Ok promoted ∧
    products_sold df_store = Ok sold ∧
    total_products df_store = Ok all ∧
    (promoted ≤ sold ≤ all)%nat ∧
    (sold = 0%nat ↔
       ∀ r, r ∈ rows df_store → gt_0 "sales" r = true → col "family" r = NA).
Proof.
  cbv zeta.
  apply (products_sold_ordered store_sales).
  - in_columns store_sales.
  - in_columns store_sales.
  - in_columns store_sales.
  - reflexivity.
  - reflexivity.
Defined.

Lemma states_selectable_witness :
  let df := store_sales in
  ((∀ r, r ∈ rows df → col "state" r = NA ∨ ∃ s, col "state" r = Str s) →
   ∃ l, states df = Ok l ∧ total_states df = Ok (length l) ∧
        NoDup l ∧ ascending l ∧
        (∀ b, b ∈ l ↔ b ≠ NA ∧ ∃ r, r ∈ rows df ∧ col "state" r = b) ∧
        ∀ b, b ∈ l →
          ∃ sub, df_state df b = Ok sub ∧ columns sub = columns df ∧
                 rows sub ≠ [] ∧
                 rows sub = List.filter
                              (λ r, bool_decide (col "state" r = b)) (rows df)) ∧
  (∀ r1 r2, r1 ∈ rows df → r2 ∈ rows df →
     col "state" r1 ≠ NA → col "state" r2 ≠ NA →
     cell_rank (col "state" r1) ≠ cell_rank (col "state" r2) →
     states df = Err (TypeError "state")).
Proof.
  cbv zeta.
  apply (states_selectable store_sales).
  - in_columns store_sales.
Defined.

Lemma promo_share_bounds_witness :
  let df := store_sales in
  ∃ all promo share,
    total_sales df = Ok all ∧ promo_sales df = Ok promo ∧
    promo_share df = Ok share ∧
    (¬ (0 < all)%Qc → share = 0%Qc) ∧
    ((0 < all)%Qc → (share * all = promo * of_Z 100)%Qc) ∧
    ((∀ r q, r ∈ rows df → col "sales" r = Num q → (0 <= q)%Qc) →
       (0 <= promo)%Qc ∧ (promo <= all)%Qc ∧
       (0 <= share)%Qc ∧ (share <= of_Z 100)%Qc ∧
       (0 <= round_ share 2)%Qc ∧ (round_ share 2 <= of_Z 100)%Qc ∧
       (share - Q2Qc (1 # 200) <= round_ share 2)%Qc ∧
       (round_ share 2 <= share + Q2Qc (1 # 200))%Qc).
Proof.
  cbv zeta.
  apply (promo_share_bounds store_sales).
  - in_columns store_sales.
  - in_columns store_sales.
  - reflexivity.
  - reflexivity.
Defined.

Lemma promo_sales_by_store_promoted_witness :
  let df := store_sales in
  ∃ full,
    promo_sales_by_store df = Ok (head_ 10 full) ∧
    columns full = ["store_nbr"; "sales"] ∧
    NoDup (col "store_nbr" <$> rows full) ∧
    descending (col "sales" <$> rows full) ∧
    (∀ b, b ∈ col "store_nbr" <$> rows full
          ↔ b ≠ NA ∧ ∃ r, r ∈ rows df ∧ gt_0 "onpromotion" r = true
                          ∧ col "store_nbr" r = b) ∧
    ∀ x, x ∈ rows full →
      col "sales" x
      = Num (sum_ (col "sales" <$> List.filter
                     (λ r, gt_0 "onpromotion" r
                           && bool_decide (col "store_nbr" r
                                           = col "store_nbr" x)) (rows df))).
Proof.
  cbv zeta.
  apply (promo_sales_by_store_promoted store_sales).
  - in_columns store_sales.
  - in_columns store_sales.
  - in_columns store_sales.
  - reflexivity.
  - reflexivity.
Defined.

Lemma sales_store_rank_of_state_witness :
  let df := store_sales in
  let state_selected := Str "Pichincha" in
  ∃ sub full,
    df_state df state_selected = Ok sub ∧
    (∀ r, r ∈ rows sub ↔ r ∈ rows df ∧ col "state" r = state_selected
                           ∧ state_selected ≠ NA) ∧
    sales_store_rank sub = Ok (head_ 10 full) ∧
    columns full = ["store_nbr"; "sales"] ∧
    NoDup (col "store_nbr" <$> rows full) ∧
    descending (col "sales" <$> rows full) ∧
    (∀ b, b ∈ col "store_nbr" <$> rows full
          ↔ b ≠ NA ∧ ∃ r, r ∈ rows sub ∧ col "store_nbr" r = b) ∧
    ∀ x, x ∈ rows full →
      col "sales" x
      = Num (sum_ (col "sales" <$> List.filter
                     (λ r, bool_decide (col "store_nbr" r = col "store_nbr" x))
                     (rows sub))).
Proof.
  cbv zeta.
  apply (sales_store_rank_of_state store_sales (Str "Pichincha")).
  - in_columns store_sales.
  - in_columns store_sales.
  - in_columns store_sales.
  - reflexivity.
Defined.

Lemma sales_by_year_of_store_witness :
  let df := store_sales in
  let store_selected := num 1 in
  ∃ sub t,
    df_store df store_selected = Ok sub ∧
    (∀ r, r ∈ rows sub ↔ r ∈ rows df ∧ col "store_nbr" r = store_selected
                           ∧ store_selected ≠ NA) ∧
    sales_by_year sub = Ok t ∧
    columns t = ["year"; "sales"] ∧
    NoDup (col "year" <$> rows t) ∧
    ascending (col "year" <$> rows t) ∧
    (∀ b, b ∈ col "year" <$> rows t
          ↔ b ≠ NA ∧ ∃ r, r ∈ rows sub ∧ col "year" r = b) ∧
    ∀ x, x ∈ rows t →
      col "sales" x
      = Num (sum_ (col "sales" <$> List.filter
                     (λ r, bool_decide (col "year" r = col "year" x))
                     (rows sub))).
Proof.
  cbv zeta.
  apply (sales_by_year_of_store store_sales (num 1)).
  - in_columns store_sales.
  - in_columns store_sales.
  - in_columns store_sales.
  - reflexivity.
  - reflexivity.
Defined.


Lemma promo_compare_two_groups_witness :
  let df := store_sales in
  let promoted := List.filter (gt_0 "onpromotion") (rows df) in
  let others := List.filter (λ r, negb (gt_0 "onpromotion" r)) (rows df) in
  let entry (flag : string) (rs : list row) : list row :=
    match rs with
    | [] => []
    | _ => [<["sales" := agg_mean (col "sales" <$> rs)]>
              (<["promo_flag" := Str flag]> ∅)]
    end in
  promo_compare df
  = Ok (Frame ["promo_flag"; "sales"]
          (entry "Con promoción" promoted ++ entry "Sin promoción" others)).
Proof.
  cbv zeta.
  apply (promo_compare_two_groups store_sales).
  - in_columns store_sales.
  - in_columns store_sales.
  - reflexivity.
  - reflexivity.
Defined.


Lemma months_available_counts_witness :
  let df := oil_and_sales in
  ∃ n pairs t,
    months_available df = Ok n ∧ n = length pairs ∧
    NoDup pairs ∧
    (∀ k, k ∈ pairs ↔ ∃ r, r ∈ rows df ∧ k = [col "year" r; col "month" r]) ∧
    (n ≤ length (rows df))%nat ∧
    oil_month (H:=plain_text) df = Ok t ∧ (length (rows t) ≤ n)%nat.
Proof.
  cbv zeta.
  apply (months_available_counts (H:=plain_text) oil_and_sales).
  - unfold oil_and_sales; cbn [columns].
    repeat (apply Forall_cons_2; [set_solver|]). apply Forall_nil_2.
  - reflexivity.
  - reflexivity.
Defined.

Lemma transactions_base_idempotent_witness :
  let base := two_pairs_view in
  transactions_base base = Ok base.
Proof.
  cbv zeta.
  apply (transactions_base_idempotent two_pairs two_pairs_view).
  - vm_compute. reflexivity.
Defined.

Lemma tx_state_of_state_witness :
  let df := two_pairs in
  let base := two_pairs_view in
  let state_selected := Str "Guayas" in
  ∃ tx, tx_state base state_selected = Ok tx ∧
        columns tx = ["date"; "store_nbr"; "state"; "transactions"; "year"] ∧
        rows tx ≠ [] ∧
        ∀ x, x ∈ rows tx ↔ x ∈ rows base ∧ col "state" x = state_selected.
Proof.
  cbv zeta.
  apply (tx_state_of_state two_pairs two_pairs_view (Str "Guayas")).
  - vm_compute. reflexivity.
  - unfold two_pairs. cbn [rows]. intros r1 r2 H1 H2.
    repeat (apply elem_of_cons in H1 as [-> | H1]);
      try (by apply elem_of_nil in H1);
      repeat (apply elem_of_cons in H2 as [-> | H2]);
      try (by apply elem_of_nil in H2);
      intros Hd Hs; vm_compute in Hs; vm_compute; congruence.
  - discriminate.
  - eexists. split; [unfold two_pairs; cbn [rows]; do 2 right; left|];
      reflexivity.
Defined.

Lemma dashboard_on_loaded_data_witness :
  let df := loaded_full in
  let store_selected := num 1 in
  let state_selected := Str "Pichincha" in
  ((∃ n, total_stores df = Ok n) ∧ (∃ n, total_products df = Ok n) ∧
   (∃ n, total_states df = Ok n) ∧ (∃ n, months_available df = Ok n) ∧
   (∃ t, top_products df = Ok t) ∧ (∃ t, sales_by_store df = Ok t) ∧
   (∃ t, promo_sales_by_store df = Ok t) ∧
   (∃ t, dow_avg df = Ok t) ∧ (∃ t, week_avg df = Ok t) ∧
   (∃ t, month_avg df = Ok t)) ∧
  (∃ sub, df_store df store_selected = Ok sub ∧
     (∃ t, sales_by_year sub = Ok t) ∧ (∃ n, products_sold sub = Ok n) ∧
     (∃ n, promo_products_sold sub = Ok n) ∧ (∃ q, promo_sales sub = Ok q) ∧
     (∃ t, top_store_products sub = Ok t)) ∧
  (∃ sub base tx,
     df_state df state_selected = Ok sub ∧
     transactions_base df = Ok base ∧
     tx_state base state_selected = Ok tx ∧
     (∃ t, tx_year tx = Ok t) ∧ (∃ t, sales_store_rank sub = Ok t) ∧
     (∃ t, top_product_per_store sub = Ok t)) ∧
  ((∃ q, total_sales df = Ok q) ∧ (∃ q, promo_share df = Ok q) ∧
   (∃ t, promo_compare df = Ok t) ∧ (∃ t, holiday_avg df = Ok t) ∧
   (∃ t, oil_month (H:=plain_text) df = Ok t)) ∧
  ((∀ r, r ∈ rows df → col "state" r = NA ∨ ∃ s, col "state" r = Str s) →
   ∃ l, states df = Ok l).
Proof.
  cbv zeta.
  apply (dashboard_on_loaded_data (H:=plain_text)
           partitions_full loaded_full (num 1) (Str "Pichincha")).
  - vm_compute. reflexivity.
  - unfold loaded_full; cbn [columns].
    repeat (apply Forall_cons_2; [set_solver|]). apply Forall_nil_2.
  - reflexivity.
  - repeat (apply Forall_cons_2; [reflexivity|]). apply Forall_nil_2.
Defined.

Lemma transactions_base_after_load_witness :
  let df := loaded_full in
  ("store_nbr" ∈ columns df ∧ "state" ∈ columns df
   ↔ ∃ base, transactions_base df = Ok base) ∧
  ("store_nbr" ∉ columns df ∨ "state" ∉ columns df →
   ∃ c, transactions_base df = Err (KeyError c) ∧
        (c = "store_nbr" ∨ c = "state") ∧ c ∉ columns df).
Proof.
  cbv zeta.
  apply (transactions_base_after_load (H:=plain_text)
           partitions_full loaded_full).
  - vm_compute. reflexivity.
Defined.

Lemma sales_by_store_adds_up_witness :
  let df := store_sales in
  ∃ full all,
    sales_by_store df = Ok (head_ 30 full) ∧ total_sales df = Ok all ∧
    sum_ (col "sales" <$> rows full)
    = sum_ (col "sales"
              <$> List.filter (λ r, notna (col "store_nbr" r)) (rows df)) ∧
    ((∀ r, r ∈ rows df → col "store_nbr" r ≠ NA) →
       sum_ (col "sales" <$> rows full) = all ∧
       ((nunique (col "store_nbr" <$> rows df) ≤ 30)%nat →
          head_ 30 full = full)).
Proof.
  cbv zeta.
  apply (sales_by_store_adds_up store_sales).
  - in_columns store_sales.
  - in_columns store_sales.
  - reflexivity.
Defined.

Lemma load_data_missing_column_witness :
  load_data (H:=plain_text) partitions_without_sales = Err (KeyError "sales") ∧
  load_data (H:=plain_text) partitions_with_infinite_count
    = Err (IntCastingNaNError "onpromotion").
Proof.
  split.
  - destruct (load_data_missing_column (H:=plain_text)
                partitions_without_sales _ _ eq_refl eq_refl)
      as (_ & Hsales & _).
    apply Hsales; clear Hsales.
    + left. cbn [columns]. set_solver.
    + intros [Hs|Hs]; cbn [columns] in Hs; set_solver.
  - destruct (load_data_missing_column (H:=plain_text)
                partitions_with_infinite_count _ _ eq_refl eq_refl)
      as (_ & _ & _ & Htx & _).
    apply Htx; clear Htx.
    + left. cbn [columns]. set_solver.
    + left. cbn [columns]. set_solver.
    + left. cbn [columns]. set_solver.
    + intros [Hs|Hs]; cbn [columns] in Hs; set_solver.
    + reflexivity.
    + reflexivity.
Defined.
